(** * scripts/train.py: training loop, evaluation loop and hyperparameter search

    A shallow embedding of [scripts/train.py].  Python objects that the
    script mutates or shares (data loaders, the model, the optimizer, the
    scheduler, the Optuna study and its trials) live in a heap indexed by
    locations; the functions of the script are state transformers over a
    world made of that heap, the global torch generator, the autograd
    switch and a trace of the calls the script makes to the outside
    (print, wandb, torch, the file system).

    Numbers: Python ints are [Z]; Python floats are idealised as exact
    rationals [Q] (no rounding, no nan or inf).  The libraries the script
    calls (torch, optuna) are taken through two interfaces, [Torch] and
    [Optuna]; what is assumed of them is stated in [TorchLaws] and
    [OptunaLaws]. *)

From Stdlib Require Import ZArith QArith Qpower Lia Lqa Ascii String.
From stdpp Require Import gmap strings list.

Local Open Scope Z_scope.

(** ** Exceptions and results *)

Inductive Exn :=
| ZeroDivisionError
| UnboundLocalError
| ValueError
| IndexError
| RuntimeError
| AttributeError.

Inductive Result (A : Type) :=
| Ok (a : A)
| Raise (e : Exn).
Arguments Ok {A} a.
Arguments Raise {A} e.

Definition is_ok {A} (r : Result A) : bool :=
  match r with Ok _ => true | Raise _ => false end.

(** ** Command line arguments (the namespace returned by [parse_args]) *)

Record Args := {
  batch_size : Z;
  test_batch_size : Z;
  epochs : Z;
  gamma : Q;
  no_cuda : bool;
  dry_run : bool;
  seed : Z;
  log_interval : Z;
  save_model : bool;
}.

(** The defaults of the parser, lines 93-112. *)
Definition default_args : Args :=
  {| batch_size := 64; test_batch_size := 1000; epochs := 2; gamma := 7 # 10;
     no_cuda := false; dry_run := false; seed := 1; log_interval := 10;
     save_model := false |}.

Definition with_gamma (g : Q) (a : Args) : Args :=
  {| batch_size := batch_size a; test_batch_size := test_batch_size a;
     epochs := epochs a; gamma := g; no_cuda := no_cuda a;
     dry_run := dry_run a; seed := seed a; log_interval := log_interval a;
     save_model := save_model a |}.

Definition with_save_model (b : bool) (a : Args) : Args :=
  {| batch_size := batch_size a; test_batch_size := test_batch_size a;
     epochs := epochs a; gamma := gamma a; no_cuda := no_cuda a;
     dry_run := dry_run a; seed := seed a; log_interval := log_interval a;
     save_model := b |}.

Inductive Device := Cuda | Cpu.

(** ** The libraries *)

(** torch, torchvision and the network class [plr_exercise.models.Net]
    (the class is not part of [scripts/train.py]; its constructor and its
    forward pass are fields of this interface). *)
Class Torch := {
  Image : Type;      (* one transformed input sample *)
  Params : Type;     (* the weights of a [Net] *)
  Grads : Type;      (* gradients, one per weight *)
  AdamState : Type;  (* the moment estimates kept by [optim.Adam] *)
  Rng : Type;        (* the state of the global generator *)
  manual_seed : Z → Rng;
  (* [Net()]: random initialisation *)
  Net_init : Rng → Params * Rng;
  (* the number of classes the network tells apart *)
  num_classes : nat;
  (* [model(data)]: training mode, weights, generator, batch; one row of
     class scores per sample *)
  forward : bool → Params → Rng → list Image → list (list Q) * Rng;
  (* gradient of the mean nll loss of that forward pass *)
  backward : bool → Params → Rng → list Image → list nat → Grads;
  grad_add : Grads → Grads → Grads;
  adam_init : AdamState;
  (* one Adam update with learning rate [lr] *)
  adam_step : Q → AdamState → Params → Grads → Params * AdamState;
  (* the order in which a loader visits the samples of a dataset of the
     given size; the flag is [shuffle] *)
  sample_order : bool → Rng → nat → list nat * Rng;
}.

Inductive TrialState := Complete | Fail.

Record FrozenTrial := {
  ft_number : nat;
  ft_state : TrialState;
  ft_value : option Q;
  ft_params : list (string * Q);
}.

(** optuna: the sampler of a study. *)
Class Optuna := {
  Sampler : Type;
  sampler_init : Sampler;
  (* [suggest_float(name, low, high, log=...)] for a parameter not yet set *)
  sample_float : Sampler → string → Q → Q → bool → Q * Sampler;
  (* the sampler is told the outcome of every finished trial *)
  after_trial : Sampler → FrozenTrial → Sampler;
}.

Abbreviation loc := positive.

Section Script.

Context `{Torch} `{Optuna}.

(** ** Objects *)

(** [torch.utils.data.DataLoader(dataset, **kwargs)] *)
Record DataLoader := {
  dl_dataset : list (Image * nat);
  dl_batch_size : Z;
  dl_shuffle : bool;
  dl_num_workers : Z;
  dl_pin_memory : bool;
}.

(** A [Net] instance: weights, the [.grad] of the weights, the mode. *)
Record Module := {
  m_params : Params;
  m_grad : option Grads;
  m_training : bool;
  m_device : Device;
}.

(** [optim.Adam(model.parameters(), lr=lr)]: the optimizer holds the
    parameter tensors of the model, not a copy. *)
Record Adam := {
  opt_model : loc;
  opt_lr : Q;
  opt_state : AdamState;
}.

(** [StepLR(optimizer, step_size, gamma)] *)
Record StepLR := {
  sl_optimizer : loc;
  sl_step_size : Z;
  sl_gamma : Q;
  sl_last_epoch : Z;
}.

Inductive Direction := Minimize | Maximize.

Record Study := {
  st_direction : Direction;
  st_trials : list FrozenTrial;   (* oldest first *)
  st_sampler : Sampler;
}.

(** A running trial: [trial.params] keeps insertion order. *)
Record Trial := {
  tr_study : loc;
  tr_number : nat;
  tr_params : list (string * Q);
}.

Inductive Obj :=
| ODataLoader (d : DataLoader)
| OModule (m : Module)
| OAdam (o : Adam)
| OStepLR (s : StepLR)
| OStudy (s : Study)
| OTrial (t : Trial).

Inductive Kind := KDataLoader | KModule | KAdam | KStepLR | KStudy | KTrial.

Definition kind_of (o : Obj) : Kind :=
  match o with
  | ODataLoader _ => KDataLoader
  | OModule _ => KModule
  | OAdam _ => KAdam
  | OStepLR _ => KStepLR
  | OStudy _ => KStudy
  | OTrial _ => KTrial
  end.

(** ** Trace *)

(** What the script does to the outside, and the library calls it makes. *)
Inductive Event :=
(* print *)
| PrintTrain (epoch seen total : Z) (percent loss : Q)
| PrintTest (avg : Q) (correct total : Z) (percent : Q)
| PrintStr (s : string)
| PrintValue (v : option Q)
| PrintParam (key : string) (value : Q)
(* wandb *)
| WandbLogin
| WandbInit (dir project : string) (config : Args) (code_dir : string)
| WandbLogCode (name root : string)
| WandbLog (row : list (string * Q))
| WandbFinish
(* os, torchvision datasets, torch.save *)
| Makedirs (path : string)
| LoadMNIST (root : string) (is_train download : bool)
| TorchSave (path : string) (state : Params)
(* object construction and torch calls *)
| New (k : Kind) (l : loc)
| Iter (loader : loc)
| Forward (model : loc) (training tracked : bool)
| Backward (model : loc)
| ZeroGrad (optimizer : loc)
| OptStep (optimizer : loc) (lr : Q)
| SchedStep (scheduler : loc).

(** ** World *)

Record World := {
  heap : gmap loc Obj;
  rng : Rng;
  grad_enabled : bool;
  trace : list Event;   (* newest first *)
}.

Definition set_heap (h : gmap loc Obj) (w : World) : World :=
  {| heap := h; rng := rng w; grad_enabled := grad_enabled w; trace := trace w |}.
Definition set_rng (g : Rng) (w : World) : World :=
  {| heap := heap w; rng := g; grad_enabled := grad_enabled w; trace := trace w |}.
Definition set_grad_enabled (b : bool) (w : World) : World :=
  {| heap := heap w; rng := rng w; grad_enabled := b; trace := trace w |}.
Definition set_trace (t : list Event) (w : World) : World :=
  {| heap := heap w; rng := rng w; grad_enabled := grad_enabled w; trace := t |}.

(** ** The monad of the script: state and exceptions *)

Definition M (A : Type) : Type := World → Result A * World.

Definition ret {A} (a : A) : M A := λ w, (Ok a, w).

Definition bind {A B} (c : M A) (k : A → M B) : M B :=
  λ w, match c w with
       | (Ok a, w') => k a w'
       | (Raise e, w') => (Raise e, w')
       end.

Definition raise {A} (e : Exn) : M A := λ w, (Raise e, w).

Notation "'let*' x := c 'in' k" := (bind c (λ x, k))
  (at level 10, x pattern, c at level 100, k at level 200).
Notation "c ;; k" := (bind c (λ _, k))
  (at level 100, k at level 200, right associativity).

(** [for x in xs: body], with a loop-carried state and [break]. *)
Inductive Flow := Continue | Break.

Fixpoint for_loop {A S} (xs : list A) (s : S) (body : A → S → M (Flow * S)) : M S :=
  match xs with
  | [] => ret s
  | x :: xs' =>
      let* r := body x s in
      match r with
      | (Break, s') => ret s'
      | (Continue, s') => for_loop xs' s' body
      end
  end.

Definition emit (e : Event) : M unit :=
  λ w, (Ok tt, set_trace (e :: trace w) w).

Definition get_rng : M Rng := λ w, (Ok (rng w), w).
Definition put_rng (g : Rng) : M unit := λ w, (Ok tt, set_rng g w).
Definition is_grad_enabled : M bool := λ w, (Ok (grad_enabled w), w).

(** ** Heap access *)

Definition alloc (o : Obj) : M loc :=
  λ w, let l := fresh (dom (heap w)) in
       (Ok l, set_trace (New (kind_of o) l :: trace w) (set_heap (<[l := o]> (heap w)) w)).

Definition load (l : loc) : M Obj :=
  λ w, match heap w !! l with
       | Some o => (Ok o, w)
       | None => (Raise AttributeError, w)
       end.

Definition store (l : loc) (o : Obj) : M unit :=
  λ w, (Ok tt, set_heap (<[l := o]> (heap w)) w).

Definition get_loader (l : loc) : M DataLoader :=
  let* o := load l in
  match o with ODataLoader d => ret d | _ => raise AttributeError end.
Definition get_module (l : loc) : M Module :=
  let* o := load l in
  match o with OModule m => ret m | _ => raise AttributeError end.
Definition get_adam (l : loc) : M Adam :=
  let* o := load l in
  match o with OAdam a => ret a | _ => raise AttributeError end.
Definition get_steplr (l : loc) : M StepLR :=
  let* o := load l in
  match o with OStepLR s => ret s | _ => raise AttributeError end.
Definition get_study (l : loc) : M Study :=
  let* o := load l in
  match o with OStudy s => ret s | _ => raise AttributeError end.
Definition get_trial (l : loc) : M Trial :=
  let* o := load l in
  match o with OTrial t => ret t | _ => raise AttributeError end.


(** ** Python arithmetic *)

(** [a % b] on ints: the sign follows the divisor, as [Z.modulo] does. *)
Definition py_mod (a b : Z) : M Z :=
  if b =? 0 then raise ZeroDivisionError else ret (a mod b).

(** [a / b] with a float numerator and an int denominator. *)
Definition py_truediv (a : Q) (b : Z) : M Q :=
  if b =? 0 then raise ZeroDivisionError else ret (a / inject_Z b)%Q.

Definition Qsum (l : list Q) : Q := foldr Qplus 0%Q l.

(** ** torch.utils.data.DataLoader *)

Inductive KwVal := KwInt (z : Z) | KwBool (b : bool).

Definition kw_int (kwargs : gmap string KwVal) (k : string) (default : Z) : Z :=
  match kwargs !! k with Some (KwInt z) => z | _ => default end.
Definition kw_bool (kwargs : gmap string KwVal) (k : string) (default : bool) : bool :=
  match kwargs !! k with Some (KwBool b) => b | _ => default end.

(** The batch sampler refuses a batch size that is not positive. *)
Definition new_DataLoader (dataset : list (Image * nat)) (kwargs : gmap string KwVal) : M loc :=
  let bs := kw_int kwargs "batch_size" 1 in
  if bs <=? 0 then raise ValueError
  else alloc (ODataLoader {| dl_dataset := dataset; dl_batch_size := bs;
                             dl_shuffle := kw_bool kwargs "shuffle" false;
                             dl_num_workers := kw_int kwargs "num_workers" 0;
                             dl_pin_memory := kw_bool kwargs "pin_memory" false |}).

(** A batch as the loop sees it: [(data, target)]. *)
Definition Batch : Type := list Image * list nat.

Fixpoint chunks {A} (fuel n : nat) (l : list A) : list (list A) :=
  match fuel with
  | O => []
  | S fuel' =>
      match l with
      | [] => []
      | _ => take n l :: chunks fuel' n (drop n l)
      end
  end.

Definition collate (samples : list (Image * nat)) : Batch :=
  (samples.*1, samples.*2).

Definition batches_of (d : DataLoader) (order : list nat) : list Batch :=
  let samples := omap (λ i, dl_dataset d !! i) order in
  collate <$> chunks (length samples) (Z.to_nat (dl_batch_size d)) samples.

(** [iter(loader)]: draws the visiting order from the global generator;
    the loader object itself is only read. *)
Definition iter_loader (l : loc) : M (list Batch) :=
  let* d := get_loader l in
  emit (Iter l);;
  let* g := get_rng in
  let '(order, g') := sample_order (dl_shuffle d) g (length (dl_dataset d)) in
  put_rng g';;
  ret (batches_of d order).

(** [len(loader.dataset)] *)
Definition len_dataset (l : loc) : M Z :=
  let* d := get_loader l in
  ret (Z.of_nat (length (dl_dataset d))).

(** [len(loader)]: the number of batches, [(n + batch_size - 1) // batch_size]. *)
Definition len_loader (l : loc) : M Z :=
  let* d := get_loader l in
  ret ((Z.of_nat (length (dl_dataset d)) + dl_batch_size d - 1) / dl_batch_size d).

(** [enumerate(xs)] *)
Definition enumerate {A} (xs : list A) : list (Z * A) :=
  imap (λ i x, (Z.of_nat i, x)) xs.

(** [range(n)] *)
Definition range (n : Z) : list Z :=
  Z.of_nat <$> seq 0 (Z.to_nat n).

(** ** Tensors that remember how they were computed *)

Record Graph := {
  g_model : loc;
  g_training : bool;
  g_rng : Rng;
  g_data : list Image;
}.

(** The output of [model(data)]: the scores, and the autograd graph when
    gradient tracking was on. *)
Record Output := {
  out_rows : list (list Q);
  out_graph : option Graph;
}.

(** A scalar loss. *)
Record Loss := {
  item : Q;
  loss_graph : option (Graph * list nat);
}.

(** [x.to(device)] leaves every value as it is. *)
Definition to {X} (x : X) (device : Device) : X := x.

(** [model.train()] and [model.eval()] *)
Definition set_mode (model : loc) (training : bool) : M unit :=
  let* m := get_module model in
  store model (OModule {| m_params := m_params m; m_grad := m_grad m;
                          m_training := training; m_device := m_device m |}).

(** [model(data)] *)
Definition call_model (model : loc) (data : list Image) : M Output :=
  let* m := get_module model in
  let* g := get_rng in
  let '(rows, g') := forward (m_training m) (m_params m) g data in
  put_rng g';;
  let* tracked := is_grad_enabled in
  emit (Forward model (m_training m) tracked);;
  ret {| out_rows := rows;
         out_graph := if tracked
                      then Some {| g_model := model; g_training := m_training m;
                                   g_rng := g; g_data := data |}
                      else None |}.

Inductive Reduction := Mean | Sum.

(** [-output[i][target[i]]] for every sample [i]. *)
Fixpoint nll_terms (rows : list (list Q)) (target : list nat) : Result (list Q) :=
  match rows, target with
  | row :: rows', t :: target' =>
      match row !! t with
      | None => Raise IndexError
      | Some x =>
          match nll_terms rows' target' with
          | Ok l => Ok ((- x)%Q :: l)
          | Raise e => Raise e
          end
      end
  | _, _ => Ok []
  end.

(** [F.nll_loss(output, target, reduction=...)]; the default reduction is
    the mean over the batch. *)
Definition nll_loss (output : Output) (target : list nat) (reduction : Reduction) : M Loss :=
  if negb (length (out_rows output) =? length target)%nat then raise ValueError
  else
    match nll_terms (out_rows output) target with
    | Raise e => raise e
    | Ok terms =>
        ret {| item := match reduction with
                       | Sum => Qsum terms
                       | Mean => (Qsum terms / inject_Z (Z.of_nat (length target)))%Q
                       end;
               loss_graph := match out_graph output with
                             | Some g => Some (g, target)
                             | None => None
                             end |}
    end.

(** [loss.backward()]: adds the gradient to the [.grad] of the weights. *)
Definition loss_backward (loss : Loss) : M unit :=
  match loss_graph loss with
  | None => raise RuntimeError
  | Some (g, target) =>
      let* m := get_module (g_model g) in
      let gr := backward (g_training g) (m_params m) (g_rng g) (g_data g) target in
      store (g_model g)
            (OModule {| m_params := m_params m;
                        m_grad := Some (match m_grad m with
                                        | None => gr
                                        | Some g0 => grad_add g0 gr
                                        end);
                        m_training := m_training m; m_device := m_device m |});;
      emit (Backward (g_model g))
  end.

(** [Net().to(device)] *)
Definition new_Net (device : Device) : M loc :=
  let* g := get_rng in
  let '(p, g') := Net_init g in
  put_rng g';;
  alloc (OModule {| m_params := p; m_grad := None; m_training := true;
                    m_device := device |}).

(** [optim.Adam(model.parameters(), lr=lr)] *)
Definition new_Adam (model : loc) (lr : Q) : M loc :=
  let* _ := get_module model in
  if Qlt_le_dec lr 0 then raise ValueError
  else alloc (OAdam {| opt_model := model; opt_lr := lr; opt_state := adam_init |}).

(** [optimizer.zero_grad()] *)
Definition zero_grad (optimizer : loc) : M unit :=
  let* o := get_adam optimizer in
  let* m := get_module (opt_model o) in
  store (opt_model o)
        (OModule {| m_params := m_params m; m_grad := None;
                    m_training := m_training m; m_device := m_device m |});;
  emit (ZeroGrad optimizer).

(** [optimizer.step()]: updates the weights of the model in place; weights
    without a gradient are left alone. *)
Definition optimizer_step (optimizer : loc) : M unit :=
  let* o := get_adam optimizer in
  let* m := get_module (opt_model o) in
  match m_grad m with
  | None => ret tt
  | Some g =>
      let '(p', s') := adam_step (opt_lr o) (opt_state o) (m_params m) g in
      store (opt_model o)
            (OModule {| m_params := p'; m_grad := m_grad m;
                        m_training := m_training m; m_device := m_device m |});;
      store optimizer
            (OAdam {| opt_model := opt_model o; opt_lr := opt_lr o; opt_state := s' |})
  end;;
  emit (OptStep optimizer (opt_lr o)).

(** [StepLR(optimizer, step_size=..., gamma=...)]; the constructor leaves
    the learning rate as it is and sets [last_epoch] to 0. *)
Definition new_StepLR (optimizer : loc) (step_size : Z) (gamma : Q) : M loc :=
  let* _ := get_adam optimizer in
  alloc (OStepLR {| sl_optimizer := optimizer; sl_step_size := step_size;
                    sl_gamma := gamma; sl_last_epoch := 0 |}).

(** [scheduler.step()]: the learning rate of the optimizer is multiplied
    by [gamma] every [step_size] epochs. *)
Definition scheduler_step (scheduler : loc) : M unit :=
  let* s := get_steplr scheduler in
  let* o := get_adam (sl_optimizer s) in
  let e := sl_last_epoch s + 1 in
  let* r := py_mod e (sl_step_size s) in
  let lr' := if (e =? 0) || negb (r =? 0) then opt_lr o
             else (opt_lr o * sl_gamma s)%Q in
  store scheduler
        (OStepLR {| sl_optimizer := sl_optimizer s; sl_step_size := sl_step_size s;
                    sl_gamma := sl_gamma s; sl_last_epoch := e |});;
  store (sl_optimizer s)
        (OAdam {| opt_model := opt_model o; opt_lr := lr'; opt_state := opt_state o |});;
  emit (SchedStep scheduler).

(** [with torch.no_grad(): body]: the switch is restored on the way out,
    also when the body raises. *)
Definition with_no_grad {A} (body : M A) : M A :=
  λ w, let prev := grad_enabled w in
       let '(r, w') := body (set_grad_enabled false w) in
       (r, set_grad_enabled prev w').

(** [output.argmax(dim=1)]: the index of the first maximum of a row. *)
Fixpoint argmax_from (best_i : nat) (best : Q) (i : nat) (row : list Q) : nat :=
  match row with
  | [] => best_i
  | x :: row' =>
      if Qlt_le_dec best x then argmax_from i x (S i) row'
      else argmax_from best_i best (S i) row'
  end.

Definition argmax (row : list Q) : nat :=
  match row with
  | [] => 0%nat
  | x :: row' => argmax_from 0 x 1 row'
  end.

(** [pred.eq(target.view_as(pred)).sum().item()] *)
Fixpoint count_eq (pred target : list nat) : Z :=
  match pred, target with
  | p :: pred', t :: target' =>
      (if (p =? t)%nat then 1 else 0) + count_eq pred' target'
  | _, _ => 0
  end.

(** ** train (lines 15-47) *)

Definition train_batch (args : Args) (model : loc) (device : Device)
    (train_loader optimizer : loc) (epoch : Z) (b : Z * Batch) (_ : unit)
  : M (Flow * unit) :=
  let '(batch_idx, (data, target)) := b in
  let data := to data device in
  let target := to target device in
  zero_grad optimizer;;
  let* output := call_model model data in
  let* loss := nll_loss output target Mean in
  loss_backward loss;;
  optimizer_step optimizer;;
  let* r := py_mod batch_idx (log_interval args) in
  if r =? 0 then
    let* total := len_dataset train_loader in
    let* nb := len_loader train_loader in
    let* percent := py_truediv (100 * inject_Z batch_idx)%Q nb in
    emit (PrintTrain epoch (batch_idx * Z.of_nat (length data)) total percent (item loss));;
    emit (WandbLog [("epoch", inject_Z epoch); ("train_loss", item loss)]);;
    if dry_run args then ret (Break, tt) else ret (Continue, tt)
  else ret (Continue, tt).

Definition train (args : Args) (model : loc) (device : Device)
    (train_loader optimizer : loc) (epoch : Z) : M unit :=
  set_mode model true;;
  let* batches := iter_loader train_loader in
  for_loop (enumerate batches) tt
    (train_batch args model device train_loader optimizer epoch).

(** ** test (lines 50-83) *)

(** The body of the loop of lines 67-73; the loop carries [test_loss] and
    [correct]. *)
Definition test_batch (model : loc) (device : Device) (b : Batch) (acc : Q * Z)
  : M (Flow * (Q * Z)) :=
  let '(data, target) := b in
  let '(test_loss, correct) := acc in
  let data := to data device in
  let target := to target device in
  let* output := call_model model data in
  let* l := nll_loss output target Sum in
  let test_loss := (test_loss + item l)%Q in
  let pred := argmax <$> out_rows output in
  let correct := correct + count_eq pred target in
  ret (Continue, (test_loss, correct)).

Definition test_loop (model : loc) (device : Device) (batches : list Batch)
  : M (Q * Z) :=
  for_loop batches (0%Q, 0) (test_batch model device).

Definition test (model : loc) (device : Device) (test_loader : loc) (epoch : Z) : M Q :=
  set_mode model false;;
  let* acc := with_no_grad (let* batches := iter_loader test_loader in
                            test_loop model device batches) in
  let '(test_loss, correct) := acc in
  let* n := len_dataset test_loader in
  let* test_loss := py_truediv test_loss n in
  let* percent := py_truediv (100 * inject_Z correct)%Q n in
  emit (PrintTest test_loss correct n percent);;
  emit (WandbLog [("test_loss", test_loss); ("epoch", inject_Z epoch)]);;
  ret test_loss.


(** ** optuna *)

Fixpoint params_lookup (name : string) (ps : list (string * Q)) : option Q :=
  match ps with
  | [] => None
  | (k, v) :: ps' => if String.eqb k name then Some v else params_lookup name ps'
  end.

(** [trial.suggest_float(name, low, high, log=...)]: the distribution is
    checked, a parameter already suggested in this trial keeps its value,
    a new one is drawn by the sampler of the study and recorded in
    [trial.params]. *)
Definition suggest_float (trial : loc) (name : string) (low high : Q) (log : bool) : M Q :=
  if Qlt_le_dec high low then raise ValueError
  else if log && (if Qlt_le_dec 0 low then false else true) then raise ValueError
  else
    let* t := get_trial trial in
    match params_lookup name (tr_params t) with
    | Some v => ret v
    | None =>
        let* st := get_study (tr_study t) in
        let '(v, smp) := sample_float (st_sampler st) name low high log in
        store (tr_study t)
              (OStudy {| st_direction := st_direction st; st_trials := st_trials st;
                         st_sampler := smp |});;
        store trial
              (OTrial {| tr_study := tr_study t; tr_number := tr_number t;
                         tr_params := tr_params t ++ [(name, v)] |});;
        ret v
    end.

(** [optuna.create_study(direction=...)] *)
Definition create_study (direction : Direction) : M loc :=
  alloc (OStudy {| st_direction := direction; st_trials := [];
                   st_sampler := sampler_init |}).

(** [study.ask()] *)
Definition study_ask (study : loc) : M loc :=
  let* st := get_study study in
  alloc (OTrial {| tr_study := study; tr_number := length (st_trials st);
                   tr_params := [] |}).

(** [study.tell(trial, ...)] *)
Definition study_tell (study trial : loc) (state : TrialState) (value : option Q) : M unit :=
  let* st := get_study study in
  let* t := get_trial trial in
  let ft := {| ft_number := tr_number t; ft_state := state; ft_value := value;
               ft_params := tr_params t |} in
  store study
        (OStudy {| st_direction := st_direction st; st_trials := st_trials st ++ [ft];
                   st_sampler := after_trial (st_sampler st) ft |}).

(** Runs [c] and hands back how it ended, as [try: ... except Exception]. *)
Definition attempt {A} (c : M A) : M (Result A) :=
  λ w, let '(r, w') := c w in (Ok r, w').

(** One trial of [study.optimize]: a failed trial is recorded and the
    exception goes on to the caller (the script passes no [catch]). *)
Definition run_trial (study : loc) (func : loc → M Q) : M unit :=
  let* trial := study_ask study in
  let* r := attempt (func trial) in
  match r with
  | Ok v => study_tell study trial Complete (Some v)
  | Raise e => study_tell study trial Fail None;; raise e
  end.

(** [study.optimize(func, n_trials=...)] *)
Definition optimize (study : loc) (func : loc → M Q) (n_trials : Z) : M unit :=
  for_loop (range n_trials) tt
    (λ _ _, run_trial study func;; ret (Continue, tt)).

(** Is value [a] strictly better than [b]? *)
Definition better (d : Direction) (a b : Q) : bool :=
  match d with
  | Minimize => if Qlt_le_dec a b then true else false
  | Maximize => if Qlt_le_dec b a then true else false
  end.

(** The best of the completed trials; the earliest one wins a tie. *)
Fixpoint best_of (d : Direction) (best : option (Q * FrozenTrial))
    (ts : list FrozenTrial) : option (Q * FrozenTrial) :=
  match ts with
  | [] => best
  | t :: ts' =>
      match ft_state t, ft_value t with
      | Complete, Some v =>
          match best with
          | None => best_of d (Some (v, t)) ts'
          | Some (vb, b) =>
              if better d v vb then best_of d (Some (v, t)) ts'
              else best_of d best ts'
          end
      | _, _ => best_of d best ts'
      end
  end.

(** [study.best_trial] *)
Definition best_trial (study : loc) : M FrozenTrial :=
  let* st := get_study study in
  match best_of (st_direction st) None (st_trials st) with
  | Some (_, t) => ret t
  | None => raise ValueError
  end.

(** ** objective (lines 147-163) *)

(** The closure of [main], with the variables it captures ([args],
    [device], [train_loader], [test_loader]) as parameters.  The local
    [test_loss] is unbound until the loop body has run once. *)
Definition objective_epoch (args : Args) (device : Device)
    (train_loader test_loader model optimizer scheduler : loc)
    (epoch : Z) (_ : option Q) : M (Flow * option Q) :=
  train args model device train_loader optimizer epoch;;
  let* test_loss := test model device test_loader epoch in
  scheduler_step scheduler;;
  ret (Continue, Some test_loss).

Definition objective (args : Args) (device : Device) (train_loader test_loader : loc)
    (trial : loc) : M Q :=
  let* lr := suggest_float trial "lr" (1 # 10000) (1 # 10) true in
  let* gamma := suggest_float trial "gamma" (1 # 2) (9 # 10) false in
  let* model := new_Net device in
  let* optimizer := new_Adam model lr in
  let* scheduler := new_StepLR optimizer 1 gamma in
  let* test_loss :=
    for_loop (range (epochs args)) None
      (objective_epoch args device train_loader test_loader model optimizer scheduler) in
  match test_loss with
  | Some v => ret v
  | None => raise UnboundLocalError
  end.

(** ** main (lines 86-179) *)

(** What the script reads from its surroundings. *)
Record Env := {
  cuda_is_available : bool;
  PLR_ROOT_DIR : string;
  mnist_train : list (Image * nat);
  mnist_test : list (Image * nat);
}.

(** [os.path.join(a, b)] for a relative [b]. *)
Definition path_join (a b : string) : string :=
  match String.length a with
  | O => b
  | S n =>
      match String.get n a with
      | Some "/"%char => a +:+ b
      | _ => a +:+ "/" +:+ b
      end
  end.

Definition print_param (kv : string * Q) (_ : unit) : M (Flow * unit) :=
  let '(key, value) := kv in
  emit (PrintParam key value);;
  ret (Continue, tt).

Definition main (env : Env) (args : Args) : M unit :=
  emit WandbLogin;;
  emit (Makedirs (path_join (PLR_ROOT_DIR env) "results"));;
  emit (WandbInit (path_join (PLR_ROOT_DIR env) "results") "plr-project" args
                  (PLR_ROOT_DIR env));;
  emit (WandbLogCode "source_files" (PLR_ROOT_DIR env));;
  let use_cuda := negb (no_cuda args) && cuda_is_available env in
  put_rng (manual_seed (seed args));;
  let device := if use_cuda then Cuda else Cpu in
  let train_kwargs : gmap string KwVal := {[ "batch_size" := KwInt (batch_size args) ]} in
  let test_kwargs : gmap string KwVal := {[ "batch_size" := KwInt (test_batch_size args) ]} in
  let cuda_kwargs : gmap string KwVal :=
    <[ "num_workers" := KwInt 1 ]>
      (<[ "pin_memory" := KwBool true ]> {[ "shuffle" := KwBool true ]}) in
  let train_kwargs := if use_cuda then cuda_kwargs ∪ train_kwargs else train_kwargs in
  let test_kwargs := if use_cuda then cuda_kwargs ∪ test_kwargs else test_kwargs in
  emit (LoadMNIST "../data" true true);;
  let dataset1 := mnist_train env in
  emit (LoadMNIST "../data" false false);;
  let dataset2 := mnist_test env in
  let* train_loader := new_DataLoader dataset1 train_kwargs in
  let* test_loader := new_DataLoader dataset2 test_kwargs in
  let* study := create_study Minimize in
  optimize study (objective args device train_loader test_loader) 5;;
  emit (PrintStr "Best trial:");;
  let* trial := best_trial study in
  emit (PrintValue (ft_value trial));;
  emit (PrintStr "  Params: ");;
  for_loop (ft_params trial) tt print_param;;
  emit WandbFinish.

(** ** What is assumed of the libraries *)

(** [Net] ends in a log-softmax: the scores are log-probabilities (line 72
    calls them so), none above 0. *)
Definition forward_log_probs : Prop :=
  ∀ training p g data row x,
    row ∈ (forward training p g data).1 → x ∈ row → (x <= 0)%Q.

(** One row per sample, one score per class. *)
Definition forward_shaped : Prop :=
  ∀ training p g data,
    length (forward training p g data).1 = length data ∧
    Forall (λ row, length row = num_classes) (forward training p g data).1.

(** A loader visits every sample of its dataset once. *)
Definition order_permutes : Prop :=
  ∀ shuffle g n, (sample_order shuffle g n).1 ≡ₚ seq 0 n.

(** The sampler answers within the bounds it is given. *)
Definition sampler_in_range : Prop :=
  ∀ s name low high log,
    (low <= high)%Q →
    (low <= (sample_float s name low high log).1 <= high)%Q.

(** ** The specification's reading of the evaluation loss *)

(** The summed nll loss of every test batch in turn: the network is in
    evaluation mode and the generator is handed from one forward pass to
    the next. *)
Fixpoint eval_losses (p : Params) (g : Rng) (batches : list Batch) : option (list Q) :=
  match batches with
  | [] => Some []
  | (data, target) :: rest =>
      let '(rows, g') := forward false p g data in
      if (length rows =? length target)%nat then
        match nll_terms rows target with
        | Ok terms => cons (Qsum terms) <$> eval_losses p g' rest
        | Raise _ => None
        end
      else None
  end.

(** The number of samples in a list of batches. *)
Definition batch_samples (batches : list Batch) : nat :=
  foldr (λ b n, (length b.2 + n)%nat) 0%nat batches.

(** The events that [w'] has and [w] has not: the trace only grows. *)
Definition emitted (w w' : World) : list Event :=
  take (length (trace w') - length (trace w)) (trace w').

(** The epoch loop of [objective], told as a relation: [n] rounds of
    train, test, scheduler step from epoch [e] on, with the test loss of
    every round. *)
Inductive epochs_run (args : Args) (device : Device)
    (train_loader test_loader model optimizer scheduler : loc)
  : Z → nat → World → World → list Q → Prop :=
| epochs_done e w :
    epochs_run args device train_loader test_loader model optimizer scheduler
      e 0 w w []
| epochs_round e n w w1 w2 w3 w' v vs :
    train args model device train_loader optimizer e w = (Ok tt, w1) →
    test model device test_loader e w1 = (Ok v, w2) →
    scheduler_step scheduler w2 = (Ok tt, w3) →
    epochs_run args device train_loader test_loader model optimizer scheduler
      (e + 1) n w3 w' vs →
    epochs_run args device train_loader test_loader model optimizer scheduler
      e (S n) w w' (v :: vs).

(** ** Relations between the world before and after a computation *)

(** [c] takes every world to one related to it by [R]. *)
Definition stable (R : World → World → Prop) {A} (c : M A) : Prop :=
  ∀ w, R w (c w).2.

(** Objects stay where they are and keep their class; those of a frozen
    class are not modified at all. *)
Definition heap_frame (frozen : Kind → bool) (h h' : gmap loc Obj) : Prop :=
  ∀ l o, h !! l = Some o →
    ∃ o', h' !! l = Some o' ∧ kind_of o' = kind_of o ∧
          (frozen (kind_of o) = true → o' = o).

Definition frame (frozen : Kind → bool) (w w' : World) : Prop :=
  heap_frame frozen (heap w) (heap w').

(** The trace grows, by events that all satisfy [P]. *)
Definition emits (P : Event → Prop) (w w' : World) : Prop :=
  ∃ evs, trace w' = evs ++ trace w ∧ Forall P evs.

(** [c] never looks at the trace: on another trace it does the same and
    emits the same events. *)
Definition oblivious {A} (c : M A) : Prop :=
  ∀ w, ∃ evs,
    trace (c w).2 = evs ++ trace w ∧
    ∀ t, c (set_trace t w) = ((c w).1, set_trace (evs ++ t) (c w).2).

(** Classes of events. *)
Definition is_save (e : Event) : bool :=
  match e with TorchSave _ _ => true | _ => false end.

Definition is_new_loader (e : Event) : bool :=
  match e with New KDataLoader _ => true | _ => false end.

(** An iteration is over one of the two given loaders. *)
Definition iter_within (train_loader test_loader : loc) (e : Event) : bool :=
  match e with
  | Iter l => bool_decide (l = train_loader) || bool_decide (l = test_loader)
  | _ => true
  end.

(** Only the data loaders are frozen. *)
Definition loaders_frozen (k : Kind) : bool :=
  match k with KDataLoader => true | _ => false end.

(** Everything but the model, the optimizer and the scheduler is frozen. *)
Definition torch_frozen (k : Kind) : bool :=
  match k with KModule | KAdam | KStepLR => false | _ => true end.

(** The world in which the interpreter starts the script. *)
Definition initial_world (g : Rng) : World :=
  {| heap := ∅; rng := g; grad_enabled := true; trace := [] |}.

(** ** More relations between the world before and after *)

(** A relation on heaps, as a relation on worlds. *)
Definition on_heap (Rh : relation (gmap loc Obj)) : World → World → Prop :=
  λ w w', Rh (heap w) (heap w').

(** Nothing changes outside the locations in [L]. *)
Definition only_at (L : gset loc) (h h' : gmap loc Obj) : Prop :=
  ∀ l, l ∉ L → h' !! l = h !! l.

(** The weights and gradients of the model stay as they are. *)
Definition keeps_weights (model : loc) (h h' : gmap loc Obj) : Prop :=
  ∀ m, h !! model = Some (OModule m) →
    ∃ m', h' !! model = Some (OModule m') ∧
          m_params m' = m_params m ∧ m_grad m' = m_grad m.

(** The learning rate of the optimizer and the scheduler stay as they are. *)
Definition keeps_lr (optimizer scheduler : loc) (h h' : gmap loc Obj) : Prop :=
  ∀ o s, h !! optimizer = Some (OAdam o) → h !! scheduler = Some (OStepLR s) →
    ∃ o', h' !! optimizer = Some (OAdam o') ∧ opt_lr o' = opt_lr o ∧
          h' !! scheduler = Some (OStepLR s).

(** [R], as long as [I] held before; then [I] holds after. *)
Definition guarded (I : World → Prop) (R : World → World → Prop) : World → World → Prop :=
  λ w w', I w → I w' ∧ R w w'.

(** The model is in the given mode. *)
Definition in_mode (model : loc) (training : bool) (w : World) : Prop :=
  ∃ m, heap w !! model = Some (OModule m) ∧ m_training m = training.

(** A forward pass is one of the given model in the given mode. *)
Definition forward_in_mode (model : loc) (training : bool) (e : Event) : Prop :=
  match e with
  | Forward l tr _ => l = model ∧ tr = training
  | _ => True
  end.

Definition is_opt_step (e : Event) : bool :=
  match e with OptStep _ _ => true | _ => false end.

Definition is_finish (e : Event) : bool :=
  match e with WandbFinish => true | _ => false end.

Definition with_no_cuda (b : bool) (a : Args) : Args :=
  {| batch_size := batch_size a; test_batch_size := test_batch_size a;
     epochs := epochs a; gamma := gamma a; no_cuda := b;
     dry_run := dry_run a; seed := seed a; log_interval := log_interval a;
     save_model := save_model a |}.

Definition is_print_train (e : Event) : bool :=
  match e with PrintTrain _ _ _ _ _ => true | _ => false end.

Definition count_if {A} (f : A → bool) (xs : list A) : nat :=
  length (List.filter f xs).

(** Between [w] and [w'], [steps] optimizer steps were taken and [logs]
    training lines printed. *)
Definition tally (steps logs : nat) (w w' : World) : Prop :=
  ∃ evs, trace w' = evs ++ trace w ∧
         count_if is_opt_step evs = steps ∧ count_if is_print_train evs = logs.

(** [c] calls [wandb.finish] as its last act when it returns, and not at
    all when it raises. *)
Definition finishes_last {A} (c : M A) : Prop :=
  ∀ w, ∃ evs,
    trace (c w).2 = evs ++ trace w ∧
    match (c w).1 with
    | Ok _ => ∃ evs', evs = WandbFinish :: evs' ∧ Forall (λ e, is_finish e = false) evs'
    | Raise _ => Forall (λ e, is_finish e = false) evs
    end.

End Script.

(** * A small instance

    A one-weight network with two classes, a plain gradient step in place
    of Adam, and a sampler that alternates between the two bounds: enough
    to run every function of the script. *)

Module Toy.

Definition torch : Torch := {|
  Image := Q;
  Params := Q;
  Grads := Q;
  AdamState := unit;
  Rng := nat;
  manual_seed z := Z.to_nat z;
  Net_init g := (inject_Z (Z.of_nat g), S g);
  num_classes := 2;
  forward training p g data :=
    ((λ x, [Qred (- ((p - x) * (p - x))); (- (1))%Q]) <$> data, S g);
  backward training p g data target :=
    Qred (foldr Qplus 0%Q ((λ x, (2 * (p - x))%Q) <$> data));
  grad_add a b := Qred (a + b);
  adam_init := tt;
  adam_step lr st p gr := (Qred (p - lr * gr), st);
  sample_order shuffle g n := (if shuffle then rev (seq 0 n) else seq 0 n, S g);
|}.

#[local] Existing Instance torch.

Definition optuna : Optuna := {|
  Sampler := nat;
  sampler_init := 0%nat;
  sample_float s name low high log := (if Nat.even s then low else high, S s);
  after_trial s ft := S s;
|}.

#[local] Existing Instance optuna.

Definition env : Env :=
  {| cuda_is_available := false; PLR_ROOT_DIR := "/plr";
     mnist_train := [(0%Q, 0%nat); (1%Q, 1%nat); (2%Q, 0%nat)];
     mnist_test := [(1%Q, 0%nat); (3%Q, 1%nat)] |}.

Definition args : Args :=
  {| batch_size := 2; test_batch_size := 1; epochs := 2; gamma := 7 # 10;
     no_cuda := false; dry_run := false; seed := 1; log_interval := 10;
     save_model := false |}.

Definition dry_args (log_interval : Z) : Args :=
  {| batch_size := 2; test_batch_size := 1; epochs := 1; gamma := 7 # 10;
     no_cuda := false; dry_run := true; seed := 1; log_interval := log_interval;
     save_model := false |}.

Definition zero_epoch_args : Args :=
  {| batch_size := 2; test_batch_size := 1; epochs := 0; gamma := 7 # 10;
     no_cuda := false; dry_run := false; seed := 1; log_interval := 10;
     save_model := false |}.

Definition train_loader : loc := 1%positive.
Definition test_loader : loc := 2%positive.
Definition study : loc := 3%positive.
Definition trial : loc := 4%positive.
Definition model : loc := 5%positive.
Definition optimizer : loc := 6%positive.

Definition train_data : DataLoader :=
  {| dl_dataset := mnist_train env; dl_batch_size := 2; dl_shuffle := false;
     dl_num_workers := 0; dl_pin_memory := false |}.

Definition test_data : DataLoader :=
  {| dl_dataset := mnist_test env; dl_batch_size := 1; dl_shuffle := false;
     dl_num_workers := 0; dl_pin_memory := false |}.

(** The batches the test loader yields. *)
Definition test_batches : list Batch :=
  [([1%Q : Image], [0%nat]); ([3%Q : Image], [1%nat])].

Definition net : Module :=
  {| m_params := 1%Q; m_grad := None; m_training := true; m_device := Cpu |}.

Definition adam : Adam :=
  {| opt_model := model; opt_lr := 1 # 10; opt_state := tt |}.

(** A world in the middle of a search: the loaders, a study, a trial just
    asked for, a model and its optimizer. *)
Definition world : World :=
  {| heap :=
       <[train_loader := ODataLoader train_data]>
         (<[test_loader := ODataLoader test_data]>
            (<[study := OStudy {| st_direction := Minimize; st_trials := [];
                                  st_sampler := 0%nat |}]>
               (<[trial := OTrial {| tr_study := study; tr_number := 0;
                                     tr_params := [] |}]>
                  (<[model := OModule net]>
                     (<[optimizer := OAdam adam]> ∅)))));
     rng := 0%nat; grad_enabled := true; trace := [] |}.

(** The same world with a test loader whose dataset is empty. *)
Definition empty_data : DataLoader :=
  {| dl_dataset := []; dl_batch_size := 1; dl_shuffle := false;
     dl_num_workers := 0; dl_pin_memory := false |}.

Definition empty_world : World :=
  set_heap (<[test_loader := ODataLoader empty_data]> (heap world)) world.

(** The surroundings of [env] on a machine with CUDA. *)
Definition cuda_env : Env :=
  {| cuda_is_available := true; PLR_ROOT_DIR := PLR_ROOT_DIR env;
     mnist_train := mnist_train env; mnist_test := mnist_test env |}.

End Toy.

(** * Properties *)

Section Properties.

Context `{Torch} `{Optuna}.

(** ** Running the monad *)

Lemma bind_Ok_inv {A B} (c : M A) (k : A → M B) w b w' :
  bind c k w = (Ok b, w') →
  ∃ a w1, c w = (Ok a, w1) ∧ k a w1 = (Ok b, w').
Proof.
  unfold bind. destruct (c w) as [[a|e] w1]; [eauto | discriminate].
Qed.

Lemma bind_Ok_run {A B} (c : M A) (k : A → M B) w a w1 :
  c w = (Ok a, w1) → bind c k w = k a w1.
Proof. unfold bind. by intros ->. Qed.

Lemma bind_Raise_run {A B} (c : M A) (k : A → M B) w e w1 :
  c w = (Raise e, w1) → bind c k w = (Raise e, w1).
Proof. unfold bind. by intros ->. Qed.

Lemma load_inv l w o w' :
  load l w = (Ok o, w') → heap w !! l = Some o ∧ w' = w.
Proof. unfold load. destruct (heap w !! l); naive_solver. Qed.

Lemma get_loader_inv l w d w' :
  get_loader l w = (Ok d, w') → heap w !! l = Some (ODataLoader d) ∧ w' = w.
Proof.
  unfold get_loader. intros (o & w1 & [Ho ->]%load_inv & Hk)%bind_Ok_inv.
  destruct o; inversion Hk; subst; auto.
Qed.

Lemma get_module_inv l w m w' :
  get_module l w = (Ok m, w') → heap w !! l = Some (OModule m) ∧ w' = w.
Proof.
  unfold get_module. intros (o & w1 & [Ho ->]%load_inv & Hk)%bind_Ok_inv.
  destruct o; inversion Hk; subst; auto.
Qed.

Lemma get_adam_inv l w a w' :
  get_adam l w = (Ok a, w') → heap w !! l = Some (OAdam a) ∧ w' = w.
Proof.
  unfold get_adam. intros (o & w1 & [Ho ->]%load_inv & Hk)%bind_Ok_inv.
  destruct o; inversion Hk; subst; auto.
Qed.

Lemma get_steplr_inv l w s w' :
  get_steplr l w = (Ok s, w') → heap w !! l = Some (OStepLR s) ∧ w' = w.
Proof.
  unfold get_steplr. intros (o & w1 & [Ho ->]%load_inv & Hk)%bind_Ok_inv.
  destruct o; inversion Hk; subst; auto.
Qed.

Lemma get_study_inv l w s w' :
  get_study l w = (Ok s, w') → heap w !! l = Some (OStudy s) ∧ w' = w.
Proof.
  unfold get_study. intros (o & w1 & [Ho ->]%load_inv & Hk)%bind_Ok_inv.
  destruct o; inversion Hk; subst; auto.
Qed.

Lemma get_trial_inv l w t w' :
  get_trial l w = (Ok t, w') → heap w !! l = Some (OTrial t) ∧ w' = w.
Proof.
  unfold get_trial. intros (o & w1 & [Ho ->]%load_inv & Hk)%bind_Ok_inv.
  destruct o; inversion Hk; subst; auto.
Qed.

Lemma get_loader_run l w d :
  heap w !! l = Some (ODataLoader d) → get_loader l w = (Ok d, w).
Proof. intros Hl. unfold get_loader, bind, load. by rewrite Hl. Qed.

Lemma get_module_run l w m :
  heap w !! l = Some (OModule m) → get_module l w = (Ok m, w).
Proof. intros Hl. unfold get_module, bind, load. by rewrite Hl. Qed.

Lemma get_adam_run l w a :
  heap w !! l = Some (OAdam a) → get_adam l w = (Ok a, w).
Proof. intros Hl. unfold get_adam, bind, load. by rewrite Hl. Qed.

Lemma get_steplr_run l w s :
  heap w !! l = Some (OStepLR s) → get_steplr l w = (Ok s, w).
Proof. intros Hl. unfold get_steplr, bind, load. by rewrite Hl. Qed.

Lemma get_study_run l w s :
  heap w !! l = Some (OStudy s) → get_study l w = (Ok s, w).
Proof. intros Hl. unfold get_study, bind, load. by rewrite Hl. Qed.

Lemma get_trial_run l w t :
  heap w !! l = Some (OTrial t) → get_trial l w = (Ok t, w).
Proof. intros Hl. unfold get_trial, bind, load. by rewrite Hl. Qed.

(** ** One evaluation batch *)

Lemma call_model_inv model data w out w' :
  call_model model data w = (Ok out, w') →
  ∃ m, heap w !! model = Some (OModule m) ∧
       out_rows out = (forward (m_training m) (m_params m) (rng w) data).1 ∧
       out_graph out =
         (if grad_enabled w
          then Some {| g_model := model; g_training := m_training m;
                       g_rng := rng w; g_data := data |}
          else None) ∧
       heap w' = heap w ∧
       rng w' = (forward (m_training m) (m_params m) (rng w) data).2 ∧
       grad_enabled w' = grad_enabled w ∧
       trace w' = Forward model (m_training m) (grad_enabled w) :: trace w.
Proof.
  unfold call_model.
  intros (m & w1 & [Hm ->]%get_module_inv & Hk)%bind_Ok_inv.
  exists m. split; [done|].
  unfold bind, get_rng, put_rng, is_grad_enabled, emit, ret in Hk.
  destruct (forward (m_training m) (m_params m) (rng w) data) as [rows g'] eqn:Hf.
  simpl in Hk. inversion Hk; subst; simpl. by repeat split.
Qed.

Lemma nll_loss_inv out target reduction w l w' :
  nll_loss out target reduction w = (Ok l, w') →
  w' = w ∧ length (out_rows out) = length target ∧
  ∃ terms, nll_terms (out_rows out) target = Ok terms ∧
           item l = match reduction with
                    | Sum => Qsum terms
                    | Mean => (Qsum terms / inject_Z (Z.of_nat (length target)))%Q
                    end ∧
           loss_graph l = match out_graph out with
                          | Some g => Some (g, target)
                          | None => None
                          end.
Proof.
  unfold nll_loss.
  destruct (length (out_rows out) =? length target)%nat eqn:Hlen; simpl; [|discriminate].
  apply Nat.eqb_eq in Hlen.
  destruct (nll_terms (out_rows out) target) as [terms|e]; [|discriminate].
  unfold ret. intros [= <- <-]. eauto 10.
Qed.

Lemma test_batch_inv model device data target tl c w r w' :
  test_batch model device (data, target) (tl, c) w = (Ok r, w') →
  ∃ m terms,
    let fw := forward (m_training m) (m_params m) (rng w) data in
    heap w !! model = Some (OModule m) ∧
    length fw.1 = length target ∧
    nll_terms fw.1 target = Ok terms ∧
    r = (Continue, ((tl + Qsum terms)%Q, c + count_eq (argmax <$> fw.1) target)) ∧
    heap w' = heap w ∧ rng w' = fw.2 ∧
    grad_enabled w' = grad_enabled w ∧
    trace w' = Forward model (m_training m) (grad_enabled w) :: trace w.
Proof.
  unfold test_batch, to.
  intros (out & w1 & Hc & Hk)%bind_Ok_inv.
  apply bind_Ok_inv in Hk as (l & w2 & Hn & Hk).
  apply call_model_inv in Hc as (m & Hm & Hrows & _ & Hh & Hg & Hge & Ht).
  apply nll_loss_inv in Hn as (-> & Hlen & terms & Hterms & Hitem & _).
  unfold ret in Hk. inversion Hk; subst.
  exists m, terms. simpl. rewrite <- Hrows, Hitem. auto 10.
Qed.

(** ** Counting *)

Lemma count_eq_bounds pred target :
  0 ≤ count_eq pred target ≤ Z.of_nat (length target).
Proof.
  revert target. induction pred as [|p pred IH]; intros [|t target]; simpl; try lia.
  specialize (IH target). destruct (p =? t)%nat; lia.
Qed.

Lemma chunks_length_le {A} fuel n (l : list A) :
  (length (concat (chunks fuel n l)) ≤ length l)%nat.
Proof.
  revert l. induction fuel as [|fuel IH]; intros l; simpl; [lia|].
  destruct l as [|x l']; simpl; [lia|].
  set (l := x :: l').
  change (length (take n l ++ concat (chunks fuel n (drop n l))) ≤ length l)%nat.
  rewrite length_app. specialize (IH (drop n l)).
  rewrite <- (take_drop n l) at 3. rewrite length_app. lia.
Qed.

Lemma batch_samples_collate (cs : list (list (Image * nat))) :
  batch_samples (collate <$> cs) = length (concat cs).
Proof.
  unfold batch_samples. induction cs as [|c cs IH]; simpl; [done|].
  rewrite length_app, length_fmap. f_equal. exact IH.
Qed.

Lemma batch_samples_take k (bs : list Batch) :
  (batch_samples (take k bs) ≤ batch_samples bs)%nat.
Proof.
  unfold batch_samples. revert k. induction bs as [|b bs IH]; intros [|k]; simpl; try lia.
  specialize (IH k). lia.
Qed.

Lemma omap_length_le {A B} (f : A → option B) (l : list A) :
  (length (omap f l) ≤ length l)%nat.
Proof. induction l as [|x l IH]; csimpl; [lia|]. destruct (f x); csimpl; lia. Qed.

Lemma batches_of_samples (d : DataLoader) order :
  (batch_samples (batches_of d order) ≤ length order)%nat.
Proof.
  unfold batches_of. rewrite batch_samples_collate.
  etrans; [apply chunks_length_le|]. apply omap_length_le.
Qed.

Lemma test_loop_count model device batches : ∀ tl c w tl' c' w',
  for_loop batches (tl, c) (test_batch model device) w = (Ok (tl', c'), w') →
  c ≤ c' ≤ c + Z.of_nat (batch_samples batches).
Proof.
  induction batches as [|[data target] batches IH]; intros tl c w tl' c' w' Hrun.
  - inversion Hrun. unfold batch_samples. simpl. lia.
  - simpl in Hrun. apply bind_Ok_inv in Hrun as (r & w1 & Hb & Hrun).
    apply test_batch_inv in Hb as (m & terms & _ & _ & _ & -> & _).
    apply IH in Hrun.
    pose proof (count_eq_bounds
      (argmax <$> (forward (m_training m) (m_params m) (rng w) data).1) target).
    unfold batch_samples in *. simpl. lia.
Qed.

Lemma iter_loader_inv l w batches w' :
  iter_loader l w = (Ok batches, w') →
  ∃ d, heap w !! l = Some (ODataLoader d) ∧
       let so := sample_order (dl_shuffle d) (rng w) (length (dl_dataset d)) in
       batches = batches_of d so.1 ∧
       heap w' = heap w ∧ rng w' = so.2 ∧ grad_enabled w' = grad_enabled w ∧
       trace w' = Iter l :: trace w.
Proof.
  unfold iter_loader.
  intros (d & w1 & [Hd ->]%get_loader_inv & Hk)%bind_Ok_inv.
  exists d. split; [done|].
  unfold bind, emit, get_rng, put_rng, ret in Hk. simpl in Hk.
  destruct (sample_order (dl_shuffle d) (rng w) (length (dl_dataset d))) as [order g'].
  simpl in *. inversion Hk; subst; simpl. by repeat split.
Qed.

Lemma to_nat_length_order (Hperm : order_permutes) shuffle g n :
  length (sample_order shuffle g n).1 = n.
Proof. rewrite (Permutation_length (Hperm shuffle g n)). apply length_seq. Qed.

(** ** The evaluation loop *)

Lemma Qsum_nll_terms_nonneg rows target terms :
  (∀ row x, row ∈ rows → x ∈ row → (x <= 0)%Q) →
  nll_terms rows target = Ok terms → (0 <= Qsum terms)%Q.
Proof.
  revert target terms. induction rows as [|row rows IH]; intros [|t target] terms Hle; simpl;
    try (intros [= <-]; simpl; lra).
  destruct (row !! t) as [x|] eqn:Hx; [|discriminate].
  destruct (nll_terms rows target) as [l|] eqn:Hl; [|discriminate].
  intros [= <-]. simpl.
  assert (x <= 0)%Q.
  { apply (Hle row); [apply list_elem_of_here | by eapply list_elem_of_lookup_2]. }
  assert (0 <= Qsum l)%Q.
  { eapply IH; [|done]. intros r y Hr. apply Hle. by apply list_elem_of_further. }
  lra.
Qed.

Lemma test_loop_nonneg (Hlp : forward_log_probs) model device batches :
  ∀ tl c w tl' c' w',
    for_loop batches (tl, c) (test_batch model device) w = (Ok (tl', c'), w') →
    (tl <= tl')%Q.
Proof.
  induction batches as [|[data target] batches IH]; intros tl c w tl' c' w' Hrun.
  - inversion Hrun. lra.
  - simpl in Hrun. apply bind_Ok_inv in Hrun as (r & w1 & Hb & Hrun).
    apply test_batch_inv in Hb as (m & terms & _ & _ & Hterms & -> & _).
    apply IH in Hrun.
    apply Qsum_nll_terms_nonneg in Hterms; [lra|].
    intros row x. apply Hlp.
Qed.

Lemma fold_left_Qplus (l : list Q) (a : Q) :
  (fold_left Qplus l a == a + Qsum l)%Q.
Proof.
  revert a. induction l as [|x l IH]; intros a; simpl; [lra|].
  rewrite IH. lra.
Qed.

Lemma test_loop_value model device m batches :
  m_training m = false →
  ∀ tl c w tl' c' w',
    heap w !! model = Some (OModule m) →
    for_loop batches (tl, c) (test_batch model device) w = (Ok (tl', c'), w') →
    ∃ losses evs,
      eval_losses (m_params m) (rng w) batches = Some losses ∧
      tl' = fold_left Qplus losses tl ∧
      heap w' = heap w ∧ grad_enabled w' = grad_enabled w ∧
      trace w' = evs ++ trace w ∧
      Forall (λ e, e = Forward model false (grad_enabled w)) evs.
Proof.
  intros Hev.
  induction batches as [|[data target] batches IH]; intros tl c w tl' c' w' Hm Hrun.
  - inversion Hrun; subst. by exists [], [].
  - simpl in Hrun. apply bind_Ok_inv in Hrun as (r & w1 & Hb & Hrun).
    apply test_batch_inv in Hb as (m' & terms & Hb).
    simpl in Hb. destruct Hb as (Hm' & Hlen & Hterms & -> & Hh & Hg & Hge & Ht).
    rewrite Hm in Hm'. injection Hm' as <-. rewrite Hev in *.
    apply IH in Hrun as (losses & evs & Hl & -> & Hh' & Hge' & Ht' & Hevs);
      [|by rewrite Hh].
    exists (Qsum terms :: losses), (evs ++ [Forward model false (grad_enabled w)]).
    simpl.
    destruct (forward false (m_params m) (rng w) data) as [rows g'] eqn:Hf.
    simpl in *. apply Nat.eqb_eq in Hlen. rewrite Hlen, Hterms.
    rewrite <- Hg, Hl. simpl.
    repeat split; try congruence.
    + rewrite Ht', Ht. by rewrite <- app_assoc.
    + apply Forall_app. split; [|by repeat constructor].
      by rewrite Hge in Hevs.
Qed.

Lemma set_mode_inv model training w u w' :
  set_mode model training w = (Ok u, w') →
  ∃ m, heap w !! model = Some (OModule m) ∧
       heap w' = <[model := OModule {| m_params := m_params m; m_grad := m_grad m;
                                       m_training := training;
                                       m_device := m_device m |}]> (heap w) ∧
       rng w' = rng w ∧ grad_enabled w' = grad_enabled w ∧ trace w' = trace w.
Proof.
  unfold set_mode.
  intros (m & w1 & [Hm ->]%get_module_inv & Hk)%bind_Ok_inv.
  exists m. unfold store in Hk. inversion Hk; subst; simpl. by repeat split.
Qed.

Lemma len_dataset_inv l w n w' :
  len_dataset l w = (Ok n, w') →
  ∃ d, heap w !! l = Some (ODataLoader d) ∧ n = Z.of_nat (length (dl_dataset d)) ∧ w' = w.
Proof.
  unfold len_dataset.
  intros (d & w1 & [Hd ->]%get_loader_inv & Hk)%bind_Ok_inv.
  unfold ret in Hk. inversion Hk; subst. eauto.
Qed.

Lemma py_truediv_inv a b w q w' :
  py_truediv a b w = (Ok q, w') → b ≠ 0 ∧ q = (a / inject_Z b)%Q ∧ w' = w.
Proof.
  unfold py_truediv. destruct (Z.eqb_spec b 0); [discriminate|].
  unfold ret. by intros [= <- <-].
Qed.

Lemma py_mod_inv a b w r w' :
  py_mod a b w = (Ok r, w') → b ≠ 0 ∧ r = a mod b ∧ w' = w.
Proof.
  unfold py_mod. destruct (Z.eqb_spec b 0); [discriminate|].
  unfold ret. by intros [= <- <-].
Qed.

(** What a run of [test] that returns has done, step by step. *)
Lemma test_inv model device test_loader epoch w v w' :
  test model device test_loader epoch w = (Ok v, w') →
  ∃ m d w1 tl c w2,
    let m' := {| m_params := m_params m; m_grad := m_grad m; m_training := false;
                 m_device := m_device m |} in
    let so := sample_order (dl_shuffle d) (rng w) (length (dl_dataset d)) in
    let n := Z.of_nat (length (dl_dataset d)) in
    heap w !! model = Some (OModule m) ∧
    heap w !! test_loader = Some (ODataLoader d) ∧
    model ≠ test_loader ∧
    heap w1 = <[model := OModule m']> (heap w) ∧
    rng w1 = so.2 ∧ grad_enabled w1 = false ∧
    trace w1 = Iter test_loader :: trace w ∧
    test_loop model device (batches_of d so.1) w1 = (Ok (tl, c), w2) ∧
    n ≠ 0 ∧
    v = (tl / inject_Z n)%Q ∧
    heap w' = heap w2 ∧ rng w' = rng w2 ∧ grad_enabled w' = grad_enabled w ∧
    trace w' = WandbLog [("test_loss", v); ("epoch", inject_Z epoch)]
               :: PrintTest v c n (100 * inject_Z c / inject_Z n)%Q :: trace w2.
Proof.
  unfold test.
  intros (u & wa & Hmode & Hk)%bind_Ok_inv.
  apply set_mode_inv in Hmode as (m & Hm & Hha & Hra & Hga & Hta).
  apply bind_Ok_inv in Hk as ([tl c] & wb & Hloop & Hk).
  unfold with_no_grad in Hloop.
  destruct (bind (iter_loader test_loader) _ (set_grad_enabled false wa))
    as [r w2] eqn:Hbody.
  injection Hloop as -> <-.
  apply bind_Ok_inv in Hbody as (batches & w1 & Hiter & Hbody).
  apply iter_loader_inv in Hiter as (d & Hd & Hiter).
  simpl in Hiter. destruct Hiter as (-> & Hh1 & Hr1 & Hg1 & Ht1).
  simpl in Hd, Hh1, Hr1, Hg1, Ht1, Hbody.
  apply bind_Ok_inv in Hk as (n & ? & (d' & Hd' & -> & ->)%len_dataset_inv & Hk).
  apply bind_Ok_inv in Hk as (q & ? & (Hn & -> & ->)%py_truediv_inv & Hk).
  apply bind_Ok_inv in Hk as (pc & ? & (_ & -> & ->)%py_truediv_inv & Hk).
  unfold bind, emit, ret in Hk. simpl in Hk. injection Hk as <- <-.
  assert (Hne : model ≠ test_loader).
  { intros <-. rewrite Hha, lookup_insert_eq in Hd. discriminate. }
  rewrite Hha, lookup_insert_ne in Hd by done.
  assert (Hloop := Hbody).
  apply (test_loop_value model device
           {| m_params := m_params m; m_grad := m_grad m; m_training := false;
              m_device := m_device m |}) in Hloop as (_ & _ & _ & _ & Hh2 & _);
    [|done|by rewrite Hh1, Hha, lookup_insert_eq].
  simpl in Hd'. rewrite Hh2, Hh1, Hha, lookup_insert_ne, Hd in Hd' by done.
  injection Hd' as <-.
  exists m, d, w1, tl, c, w2. simpl.
  rewrite Hra in *. rewrite Hta in Ht1.
  split_and!; try done. congruence.
Qed.

Lemma emitted_app w w' evs :
  trace w' = evs ++ trace w → emitted w w' = evs.
Proof.
  intros Ht. unfold emitted. rewrite Ht, length_app.
  replace (length evs + length (trace w) - length (trace w))%nat with (length evs) by lia.
  by rewrite take_app_length.
Qed.

(** ** test: the value it returns *)

(** C3: whenever [test] returns, the value is the sum over the test batches
    of their summed nll losses, divided by the size of the test dataset;
    every forward pass of the call ran with gradient tracking off, the
    switch is back where it was and the weights and their gradients are
    untouched. *)
Theorem test_returns_average_loss model device test_loader epoch w v w' :
  test model device test_loader epoch w = (Ok v, w') →
  ∃ m d losses,
    let so := sample_order (dl_shuffle d) (rng w) (length (dl_dataset d)) in
    heap w !! model = Some (OModule m) ∧
    heap w !! test_loader = Some (ODataLoader d) ∧
    eval_losses (m_params m) so.2 (batches_of d so.1) = Some losses ∧
    (v == Qsum losses / inject_Z (Z.of_nat (length (dl_dataset d))))%Q ∧
    (∀ l training tracked,
        Forward l training tracked ∈ emitted w w' → tracked = false) ∧
    grad_enabled w' = grad_enabled w ∧
    ∃ m', heap w' !! model = Some (OModule m') ∧
          m_params m' = m_params m ∧ m_grad m' = m_grad m.
Proof.
  intros (m & d & w1 & tl & c & w2 & Hinv)%test_inv. simpl in Hinv.
  destruct Hinv as (Hm & Hd & Hne & Hh1 & Hr1 & Hg1 & Ht1 & Hloop & Hn & -> & Hh' & Hr' & Hg' & Ht').
  set (m0 := {| m_params := m_params m; m_grad := m_grad m; m_training := false;
                m_device := m_device m |}) in *.
  apply (test_loop_value model device m0) in Hloop
    as (losses & evs & Hl & -> & Hh2 & Hg2 & Ht2 & Hevs);
    [|done|by rewrite Hh1, lookup_insert_eq].
  exists m, d, losses. simpl. rewrite Hr1 in Hl.
  split_and!; try done.
  - by rewrite fold_left_Qplus, Qplus_0_l.
  - intros l training tracked.
    erewrite emitted_app; last first.
    { rewrite Ht', Ht2, Ht1.
      by instantiate (1 := _ :: _ :: evs ++ [Iter test_loader]); simpl; rewrite <- app_assoc. }
    rewrite !elem_of_cons, elem_of_app, list_elem_of_singleton.
    intros [?|[?|[Hin|?]]]; try discriminate.
    rewrite Forall_forall in Hevs. apply Hevs in Hin. rewrite Hg1 in Hin. congruence.
  - exists m0. by rewrite Hh', Hh2, Hh1, lookup_insert_eq.
Qed.

(** C5: the average loss returned by [test] is never negative, the scores
    of the network being log-probabilities. *)
Theorem test_loss_nonnegative (Hlp : forward_log_probs)
    model device test_loader epoch w v w' :
  test model device test_loader epoch w = (Ok v, w') → (0 <= v)%Q.
Proof.
  intros (m & d & w1 & tl & c & w2 & Hinv)%test_inv. simpl in Hinv.
  destruct Hinv as (_ & _ & _ & _ & _ & _ & _ & Hloop & Hn & -> & _).
  apply (test_loop_nonneg Hlp) in Hloop.
  apply Qle_shift_div_l; [|lra].
  change 0%Q with (inject_Z 0). rewrite <- Zlt_Qlt. lia.
Qed.

(** ** test: the count of correct predictions *)

(** C4: after any prefix of the batches of the test loader, the running
    count of correct predictions lies between 0 and the size of the test
    dataset. *)
Theorem correct_never_exceeds_dataset (Hperm : order_permutes)
    model device test_loader d w0 batches w1 k w tl c w' :
  heap w0 !! test_loader = Some (ODataLoader d) →
  iter_loader test_loader w0 = (Ok batches, w1) →
  test_loop model device (take k batches) w = (Ok (tl, c), w') →
  0 ≤ c ≤ Z.of_nat (length (dl_dataset d)).
Proof.
  intros Hd (d' & Hd' & Hiter)%iter_loader_inv Hloop.
  rewrite Hd in Hd'. injection Hd' as <-.
  simpl in Hiter. destruct Hiter as (-> & _).
  apply test_loop_count in Hloop.
  pose proof (batch_samples_take k
    (batches_of d (sample_order (dl_shuffle d) (rng w0) (length (dl_dataset d))).1)).
  pose proof (batches_of_samples d
    (sample_order (dl_shuffle d) (rng w0) (length (dl_dataset d))).1) as Hle.
  rewrite (to_nat_length_order Hperm) in Hle. lia.
Qed.

(** ** Composing relations along a computation *)

Section Stable.

Context (R : World → World → Prop) `{!PreOrder R}.

Lemma stable_ret {A} (a : A) : stable R (ret a).
Proof. intros w. simpl. reflexivity. Qed.

Lemma stable_raise {A} e : stable R (raise (A := A) e).
Proof. intros w. simpl. reflexivity. Qed.

Lemma stable_bind {A B} (c : M A) (k : A → M B) :
  stable R c → (∀ a, stable R (k a)) → stable R (bind c k).
Proof.
  intros Hc Hk w. unfold bind. specialize (Hc w).
  destruct (c w) as [[a|e] w1]; simpl in *; [|done].
  etrans; [exact Hc|]. apply Hk.
Qed.

Lemma stable_for_loop {A S} (xs : list A) (s : S) body :
  (∀ x s, stable R (body x s)) → stable R (for_loop xs s body).
Proof.
  intros Hbody. revert s. induction xs as [|x xs IH]; intros s; simpl.
  - apply stable_ret.
  - apply stable_bind; [apply Hbody|].
    intros [[] s']; [apply IH | apply stable_ret].
Qed.

Lemma stable_attempt {A} (c : M A) : stable R c → stable R (attempt c).
Proof.
  intros Hc w. unfold attempt. specialize (Hc w). by destruct (c w).
Qed.

Lemma stable_read {A} (c : M A) :
  (∀ w, (c w).2 = w) → stable R c.
Proof. intros Hc w. by rewrite Hc. Qed.

Lemma stable_load l : stable R (load l).
Proof. apply stable_read. intros w. unfold load. by destruct (heap w !! l). Qed.

Lemma stable_py_mod a b : stable R (py_mod a b).
Proof. unfold py_mod. destruct (b =? 0); [apply stable_raise | apply stable_ret]. Qed.

Lemma stable_py_truediv a b : stable R (py_truediv a b).
Proof. unfold py_truediv. destruct (b =? 0); [apply stable_raise | apply stable_ret]. Qed.

End Stable.

(** ** The heap frame *)

Lemma heap_frame_refl frozen h : heap_frame frozen h h.
Proof. intros l o Hl. eauto. Qed.

Lemma heap_frame_trans frozen h1 h2 h3 :
  heap_frame frozen h1 h2 → heap_frame frozen h2 h3 → heap_frame frozen h1 h3.
Proof.
  intros H12 H23 l o Hl.
  destruct (H12 l o Hl) as (o2 & Hl2 & Hk2 & Hf2).
  destruct (H23 l o2 Hl2) as (o3 & Hl3 & Hk3 & Hf3).
  exists o3. split_and!; [done|congruence|].
  intros Hfr. rewrite Hf3 by congruence. auto.
Qed.

#[local] Instance frame_preorder frozen : PreOrder (frame frozen).
Proof.
  split.
  - intros w. apply heap_frame_refl.
  - intros w1 w2 w3. apply heap_frame_trans.
Qed.

(** Overwriting an object by one of the same class, the class not frozen. *)
Lemma heap_frame_insert frozen h h1 l o o0 :
  heap_frame frozen h h1 →
  h !! l = Some o0 → kind_of o = kind_of o0 → frozen (kind_of o0) = false →
  heap_frame frozen h (<[l := o]> h1).
Proof.
  intros Hfr Hl Hk Hnf l' o' Hl'.
  destruct (decide (l = l')) as [<-|Hne].
  - rewrite lookup_insert_eq. exists o. rewrite Hl in Hl'. injection Hl' as <-.
    split_and!; [done|done|]. congruence.
  - rewrite lookup_insert_ne by done. by apply Hfr.
Qed.

(** A new object at a location not yet in use. *)
Lemma heap_frame_alloc frozen h o :
  heap_frame frozen h (<[fresh (dom h) := o]> h).
Proof.
  intros l o' Hl. exists o'. rewrite lookup_insert_ne; [done|].
  intros <-. apply (is_fresh (dom h)). apply elem_of_dom. eauto.
Qed.

(** Weakening: fewer frozen classes. *)
Lemma frame_weaken (f1 f2 : Kind → bool) w w' :
  (∀ k, f2 k = true → f1 k = true) → frame f1 w w' → frame f2 w w'.
Proof.
  intros Hsub Hfr l o Hl. destruct (Hfr l o Hl) as (o' & ? & ? & Heq).
  exists o'. split_and!; auto.
Qed.

Section Frame.

Context (frozen : Kind → bool).

Lemma frame_read {A} (c : M A) :
  (∀ w, heap (c w).2 = heap w) → stable (frame frozen) c.
Proof. intros Hc w. unfold frame. rewrite Hc. apply heap_frame_refl. Qed.

Lemma frame_emit e : stable (frame frozen) (emit e).
Proof. by apply frame_read. Qed.

Lemma frame_get_rng : stable (frame frozen) get_rng.
Proof. by apply frame_read. Qed.

Lemma frame_put_rng g : stable (frame frozen) (put_rng g).
Proof. by apply frame_read. Qed.

Lemma frame_is_grad_enabled : stable (frame frozen) is_grad_enabled.
Proof. by apply frame_read. Qed.

Lemma frame_alloc o : stable (frame frozen) (alloc o).
Proof. intros w. apply heap_frame_alloc. Qed.

Lemma frame_with_no_grad {A} (c : M A) :
  stable (frame frozen) c → stable (frame frozen) (with_no_grad c).
Proof.
  intros Hc w. unfold with_no_grad. specialize (Hc (set_grad_enabled false w)).
  by destruct (c (set_grad_enabled false w)).
Qed.

Lemma frame_set_mode model training :
  frozen KModule = false → stable (frame frozen) (set_mode model training).
Proof.
  intros Hf w. unfold set_mode, get_module, bind, load, store, ret, raise.
  destruct (heap w !! model) as [[]|] eqn:Hl; simpl; try apply heap_frame_refl.
  eapply heap_frame_insert; [apply heap_frame_refl|done..].
Qed.

Lemma frame_loss_backward loss :
  frozen KModule = false → stable (frame frozen) (loss_backward loss).
Proof.
  intros Hf w. unfold loss_backward.
  destruct (loss_graph loss) as [[g target]|]; [|apply heap_frame_refl].
  unfold get_module, bind, load, store, emit, ret, raise.
  destruct (heap w !! g_model g) as [[]|] eqn:Hl; simpl; try apply heap_frame_refl.
  eapply heap_frame_insert; [apply heap_frame_refl|done..].
Qed.

Lemma frame_zero_grad optimizer :
  frozen KModule = false → stable (frame frozen) (zero_grad optimizer).
Proof.
  intros Hf w. unfold zero_grad, get_adam, get_module, bind, load, store, emit, ret, raise.
  destruct (heap w !! optimizer) as [[| |o| | |]|] eqn:Hl; simpl; try apply heap_frame_refl.
  destruct (heap w !! opt_model o) as [[]|] eqn:Hm; simpl; try apply heap_frame_refl.
  eapply heap_frame_insert; [apply heap_frame_refl|done..].
Qed.

Lemma frame_optimizer_step optimizer :
  frozen KModule = false → frozen KAdam = false →
  stable (frame frozen) (optimizer_step optimizer).
Proof.
  intros Hf Hf' w.
  unfold optimizer_step, get_adam, get_module, bind, load, store, emit, ret, raise.
  destruct (heap w !! optimizer) as [[| |o| | |]|] eqn:Hl; simpl; try apply heap_frame_refl.
  destruct (heap w !! opt_model o) as [[|m| | | |]|] eqn:Hm; simpl; try apply heap_frame_refl.
  destruct (m_grad m) as [g|]; simpl; [|apply heap_frame_refl].
  destruct (adam_step (opt_lr o) (opt_state o) (m_params m) g) as [p' s']. simpl.
  eapply heap_frame_insert; [|done..].
  eapply heap_frame_insert; [apply heap_frame_refl|done..].
Qed.

Lemma frame_scheduler_step scheduler :
  frozen KStepLR = false → frozen KAdam = false →
  stable (frame frozen) (scheduler_step scheduler).
Proof.
  intros Hf Hf' w.
  unfold scheduler_step, get_steplr, get_adam, py_mod, bind, load, store, emit, ret, raise.
  destruct (heap w !! scheduler) as [[| | |s| |]|] eqn:Hl; simpl; try apply heap_frame_refl.
  destruct (heap w !! sl_optimizer s) as [[| |o| | |]|] eqn:Hm; simpl;
    try apply heap_frame_refl.
  destruct (sl_last_epoch s + 1 =? 0), (sl_step_size s =? 0); simpl;
    try apply heap_frame_refl;
    (eapply heap_frame_insert; [|done..]);
    (eapply heap_frame_insert; [apply heap_frame_refl|done..]).
Qed.

Lemma frame_suggest_float trial name low high log :
  frozen KStudy = false → frozen KTrial = false →
  stable (frame frozen) (suggest_float trial name low high log).
Proof.
  intros Hf Hf' w. unfold suggest_float.
  destruct (Qlt_le_dec high low); [apply heap_frame_refl|].
  destruct (log && _); [apply heap_frame_refl|].
  unfold get_trial, get_study, bind, load, store, emit, ret, raise.
  destruct (heap w !! trial) as [[| | | | |t]|] eqn:Hl; simpl; try apply heap_frame_refl.
  destruct (params_lookup name (tr_params t)); [apply heap_frame_refl|].
  destruct (heap w !! tr_study t) as [[| | | |st|]|] eqn:Hm; simpl;
    try apply heap_frame_refl.
  destruct (sample_float (st_sampler st) name low high log) as [v smp]. simpl.
  eapply heap_frame_insert; [|done..].
  eapply heap_frame_insert; [apply heap_frame_refl|done..].
Qed.

Lemma frame_study_tell study trial state value :
  frozen KStudy = false →
  stable (frame frozen) (study_tell study trial state value).
Proof.
  intros Hf w. unfold study_tell, get_trial, get_study, bind, load, store, ret, raise.
  destruct (heap w !! study) as [[| | | |st|]|] eqn:Hl; simpl; try apply heap_frame_refl.
  destruct (heap w !! trial) as [[| | | | |t]|] eqn:Hm; simpl; try apply heap_frame_refl.
  eapply heap_frame_insert; [apply heap_frame_refl|done..].
Qed.

End Frame.

(** ** The trace only grows *)

#[local] Instance emits_preorder P : PreOrder (emits P).
Proof.
  split.
  - intros w. by exists [].
  - intros w1 w2 w3 (e1 & Ht1 & HP1) (e2 & Ht2 & HP2).
    exists (e2 ++ e1). rewrite Ht2, Ht1, app_assoc. split; [done|].
    by apply Forall_app.
Qed.

Section Emits.

Context (P : Event → Prop).

Lemma emits_silent {A} (c : M A) :
  (∀ w, trace (c w).2 = trace w) → stable (emits P) c.
Proof. intros Hc w. exists []. by rewrite Hc. Qed.

Lemma emits_emit e : P e → stable (emits P) (emit e).
Proof. intros He w. exists [e]. split; [done|]. by repeat constructor. Qed.

Lemma emits_alloc o : (∀ l, P (New (kind_of o) l)) → stable (emits P) (alloc o).
Proof. intros He w. eexists [_]. split; [done|]. by repeat constructor. Qed.

Lemma emits_store l o : stable (emits P) (store l o).
Proof. by apply emits_silent. Qed.

Lemma emits_get_rng : stable (emits P) get_rng.
Proof. by apply emits_silent. Qed.

Lemma emits_put_rng g : stable (emits P) (put_rng g).
Proof. by apply emits_silent. Qed.

Lemma emits_is_grad_enabled : stable (emits P) is_grad_enabled.
Proof. by apply emits_silent. Qed.

Lemma emits_with_no_grad {A} (c : M A) :
  stable (emits P) c → stable (emits P) (with_no_grad c).
Proof.
  intros Hc w. unfold with_no_grad. specialize (Hc (set_grad_enabled false w)).
  by destruct (c (set_grad_enabled false w)).
Qed.

End Emits.

Lemma emits_emitted P w w' :
  emits P w w' → trace w' = emitted w w' ++ trace w ∧ Forall P (emitted w w').
Proof. intros (evs & Ht & HP). by rewrite (emitted_app _ _ _ Ht). Qed.

Create HintDb stable discriminated.

#[local] Hint Resolve stable_ret stable_raise stable_load stable_py_mod
  stable_py_truediv
  frame_emit frame_get_rng frame_put_rng frame_is_grad_enabled frame_alloc
  frame_set_mode frame_loss_backward frame_zero_grad frame_optimizer_step
  frame_scheduler_step frame_suggest_float frame_study_tell
  emits_store emits_get_rng emits_put_rng emits_is_grad_enabled : stable.
#[local] Hint Extern 0 (_ = false) => reflexivity : stable.
#[local] Hint Extern 0 (PreOrder _) => apply _ : stable.

(** Walks down a computation of the script, leaving the side conditions of
    the steps that emit. *)
Ltac stable_step :=
  first
    [ progress intros
    | solve [ eauto 3 with stable ]
    | apply stable_bind
    | apply stable_for_loop
    | apply stable_attempt
    | apply frame_with_no_grad
    | apply emits_with_no_grad
    | apply emits_emit
    | apply emits_alloc
    | match goal with
      | |- stable _ (match ?x with _ => _ end) => destruct x
      end
    | progress unfold train, train_batch, test, test_loop, test_batch,
        objective, objective_epoch, optimize, run_trial, best_trial, print_param,
        iter_loader, len_dataset, len_loader, call_model, nll_loss, new_Net,
        new_Adam, new_StepLR, new_DataLoader, create_study, study_ask,
        get_loader, get_module, get_adam, get_steplr, get_study, get_trial, to
    | progress unfold set_mode, loss_backward, zero_grad, optimizer_step,
        scheduler_step, suggest_float, study_tell ].

Ltac stable_go := repeat stable_step.

(** ** train, test and objective leave every other object alone *)

Lemma frame_train args model device train_loader optimizer epoch :
  stable (frame torch_frozen) (train args model device train_loader optimizer epoch).
Proof. stable_go. Qed.

Lemma frame_test model device test_loader epoch :
  stable (frame torch_frozen) (test model device test_loader epoch).
Proof. stable_go. Qed.

(** ** Constructors *)

Lemma not_in_dom_insert (h h' : gmap loc Obj) l l' o :
  h' = <[l' := o]> h → l ∉ dom h' → l ∉ dom h.
Proof. intros ->. rewrite dom_insert_L. set_solver. Qed.

Lemma not_in_dom_insert_ne (h h' : gmap loc Obj) l l' o :
  h' = <[l' := o]> h → l ∉ dom h' → l ≠ l'.
Proof. intros ->. rewrite dom_insert_L. set_solver. Qed.

Lemma alloc_inv o w l w' :
  alloc o w = (Ok l, w') →
  (l ∉ dom (heap w)) ∧ heap w' = <[l := o]> (heap w) ∧
  rng w' = rng w ∧ grad_enabled w' = grad_enabled w ∧
  trace w' = New (kind_of o) l :: trace w.
Proof.
  unfold alloc. intros [= <- <-]. simpl. split_and!; try done. apply is_fresh.
Qed.

Lemma new_Net_inv device w l w' :
  new_Net device w = (Ok l, w') →
  (l ∉ dom (heap w)) ∧
  heap w' = <[l := OModule {| m_params := (Net_init (rng w)).1; m_grad := None;
                              m_training := true; m_device := device |}]> (heap w) ∧
  rng w' = (Net_init (rng w)).2 ∧ grad_enabled w' = grad_enabled w ∧
  trace w' = New KModule l :: trace w.
Proof.
  unfold new_Net, bind, get_rng, put_rng.
  destruct (Net_init (rng w)) as [p g']. simpl.
  intros Ha%alloc_inv. simpl in Ha. naive_solver.
Qed.

Lemma new_Adam_inv model lr w l w' :
  new_Adam model lr w = (Ok l, w') →
  (∃ m, heap w !! model = Some (OModule m)) ∧ (0 <= lr)%Q ∧
  (l ∉ dom (heap w)) ∧
  heap w' = <[l := OAdam {| opt_model := model; opt_lr := lr;
                            opt_state := adam_init |}]> (heap w) ∧
  rng w' = rng w ∧ grad_enabled w' = grad_enabled w ∧
  trace w' = New KAdam l :: trace w.
Proof.
  unfold new_Adam.
  intros (m & w1 & [Hm ->]%get_module_inv & Hk)%bind_Ok_inv.
  destruct (Qlt_le_dec lr 0); [discriminate|].
  apply alloc_inv in Hk. simpl in Hk. naive_solver.
Qed.

Lemma new_StepLR_inv optimizer step_size gamma w l w' :
  new_StepLR optimizer step_size gamma w = (Ok l, w') →
  (∃ o, heap w !! optimizer = Some (OAdam o)) ∧
  (l ∉ dom (heap w)) ∧
  heap w' = <[l := OStepLR {| sl_optimizer := optimizer; sl_step_size := step_size;
                              sl_gamma := gamma; sl_last_epoch := 0 |}]> (heap w) ∧
  rng w' = rng w ∧ grad_enabled w' = grad_enabled w ∧
  trace w' = New KStepLR l :: trace w.
Proof.
  unfold new_StepLR.
  intros (o & w1 & [Ho ->]%get_adam_inv & Hk)%bind_Ok_inv.
  apply alloc_inv in Hk. simpl in Hk. naive_solver.
Qed.

Lemma params_lookup_app_None name ps v :
  params_lookup name ps = None →
  params_lookup name (ps ++ [(name, v)]) = Some v.
Proof.
  induction ps as [|[k x] ps IH]; simpl.
  - by rewrite String.eqb_refl.
  - destruct (String.eqb k name); [discriminate | exact IH].
Qed.

Lemma params_lookup_app_Some name ps qs v :
  params_lookup name ps = Some v → params_lookup name (ps ++ qs) = Some v.
Proof.
  induction ps as [|[k x] ps IH]; simpl; [discriminate|].
  destruct (String.eqb k name); [done | exact IH].
Qed.

(** What [suggest_float] has done when it returns: the value is in the
    parameters of the trial, either from before or fresh from the sampler. *)
Lemma suggest_float_inv trial name low high log w v w' :
  suggest_float trial name low high log w = (Ok v, w') →
  (low <= high)%Q ∧
  ∃ t, heap w !! trial = Some (OTrial t) ∧
    ((params_lookup name (tr_params t) = Some v ∧ w' = w) ∨
     (params_lookup name (tr_params t) = None ∧
      ∃ st, heap w !! tr_study t = Some (OStudy st) ∧
        v = (sample_float (st_sampler st) name low high log).1 ∧
        heap w' =
          <[trial := OTrial {| tr_study := tr_study t; tr_number := tr_number t;
                               tr_params := tr_params t ++ [(name, v)] |}]>
            (<[tr_study t :=
                 OStudy {| st_direction := st_direction st;
                           st_trials := st_trials st;
                           st_sampler :=
                             (sample_float (st_sampler st) name low high log).2 |}]>
               (heap w)) ∧
        rng w' = rng w ∧ grad_enabled w' = grad_enabled w ∧ trace w' = trace w)).
Proof.
  unfold suggest_float.
  destruct (Qlt_le_dec high low) as [|Hle]; [discriminate|].
  destruct (log && _); [discriminate|].
  intros (t & w1 & [Ht ->]%get_trial_inv & Hk)%bind_Ok_inv.
  split; [done|]. exists t. split; [done|].
  destruct (params_lookup name (tr_params t)) as [x|] eqn:Hp.
  - left. unfold ret in Hk. by injection Hk as -> ->.
  - right. split; [done|].
    apply bind_Ok_inv in Hk as (st & w1 & [Hst ->]%get_study_inv & Hk).
    exists st. split; [done|].
    destruct (sample_float (st_sampler st) name low high log) as [x smp].
    unfold bind, store, ret in Hk. simpl in Hk. injection Hk as -> <-. simpl.
    by split_and!.
Qed.

(** ** The epoch loop of objective *)

Lemma objective_epoch_inv args device train_loader test_loader model optimizer
    scheduler epoch st w r w' :
  objective_epoch args device train_loader test_loader model optimizer scheduler
    epoch st w = (Ok r, w') →
  ∃ w1 v w2,
    train args model device train_loader optimizer epoch w = (Ok tt, w1) ∧
    test model device test_loader epoch w1 = (Ok v, w2) ∧
    scheduler_step scheduler w2 = (Ok tt, w') ∧
    r = (Continue, Some v).
Proof.
  unfold objective_epoch.
  intros ([] & w1 & Htrain & Hk)%bind_Ok_inv.
  apply bind_Ok_inv in Hk as (v & w2 & Htest & Hk).
  apply bind_Ok_inv in Hk as ([] & w3 & Hstep & Hk).
  unfold ret in Hk. injection Hk as <- <-. eauto 10.
Qed.

Lemma objective_loop_inv args device train_loader test_loader model optimizer
    scheduler n :
  ∀ a st w r w',
    for_loop (Z.of_nat <$> seq a n) st
      (objective_epoch args device train_loader test_loader model optimizer scheduler)
      w = (Ok r, w') →
    ∃ vs,
      epochs_run args device train_loader test_loader model optimizer scheduler
        (Z.of_nat a) n w w' vs ∧
      length vs = n ∧
      r = match last vs with Some v => Some v | None => st end.
Proof.
  induction n as [|n IH]; intros a st w r w' Hrun.
  - injection Hrun as <- <-. exists []. split_and!; [constructor|done..].
  - simpl in Hrun. apply bind_Ok_inv in Hrun as (r1 & w3 & Hbody & Hrun).
    apply objective_epoch_inv in Hbody as (w1 & v & w2 & Htrain & Htest & Hstep & ->).
    apply IH in Hrun as (vs & Hruns & Hlen & ->).
    exists (v :: vs). split_and!.
    + econstructor; [done..|].
      by replace (Z.of_nat a + 1) with (Z.of_nat (S a)) by lia.
    + simpl. by rewrite Hlen.
    + rewrite last_cons. by destruct (last vs).
Qed.

Lemma frame_dom frozen w w' l :
  frame frozen w w' → l ∉ dom (heap w') → l ∉ dom (heap w).
Proof.
  intros Hfr Hl [o Ho]%elem_of_dom. destruct (Hfr l o Ho) as (o' & Ho' & _).
  apply Hl, elem_of_dom. eauto.
Qed.

Lemma suggest_float_post trial name low high log w v w' :
  suggest_float trial name low high log w = (Ok v, w') →
  ∃ t t',
    heap w !! trial = Some (OTrial t) ∧
    heap w' !! trial = Some (OTrial t') ∧
    params_lookup name (tr_params t') = Some v ∧
    (∀ name' v', params_lookup name' (tr_params t) = Some v' →
                 params_lookup name' (tr_params t') = Some v') ∧
    rng w' = rng w ∧ grad_enabled w' = grad_enabled w ∧ trace w' = trace w.
Proof.
  intros (_ & t & Ht & [[Hp ->]|(Hp & st & Hst & Hv & Hh & Hr & Hg & Htr)])%suggest_float_inv.
  - exists t, t. by split_and!.
  - exists t, {| tr_study := tr_study t; tr_number := tr_number t;
                 tr_params := tr_params t ++ [(name, v)] |}.
    split_and!; try done.
    + by rewrite Hh, lookup_insert_eq.
    + simpl. by apply params_lookup_app_None.
    + simpl. intros name' v'. apply params_lookup_app_Some.
Qed.

(** ** objective *)

(** What a run of [objective] that returns has done. *)
Lemma objective_inv
    args device train_loader test_loader trial w v w' :
  objective args device train_loader test_loader trial w = (Ok v, w') →
  ∃ lr gamma model optimizer scheduler t w0 vs,
    heap w0 !! trial = Some (OTrial t) ∧
    params_lookup "lr" (tr_params t) = Some lr ∧
    params_lookup "gamma" (tr_params t) = Some gamma ∧
    (model ∉ dom (heap w)) ∧ (optimizer ∉ dom (heap w)) ∧
    (scheduler ∉ dom (heap w)) ∧
    model ≠ optimizer ∧ model ≠ scheduler ∧ optimizer ≠ scheduler ∧
    heap w0 !! model =
      Some (OModule {| m_params := (Net_init (rng w)).1; m_grad := None;
                       m_training := true; m_device := device |}) ∧
    heap w0 !! optimizer =
      Some (OAdam {| opt_model := model; opt_lr := lr; opt_state := adam_init |}) ∧
    heap w0 !! scheduler =
      Some (OStepLR {| sl_optimizer := optimizer; sl_step_size := 1;
                       sl_gamma := gamma; sl_last_epoch := 0 |}) ∧
    trace w0 = New KStepLR scheduler :: New KAdam optimizer
               :: New KModule model :: trace w ∧
    epochs_run args device train_loader test_loader model optimizer scheduler
      0 (Z.to_nat (epochs args)) w0 w' vs ∧
    length vs = Z.to_nat (epochs args) ∧
    last vs = Some v.
Proof.
  unfold objective.
  intros (lr & w1 & Hlr & Hk)%bind_Ok_inv.
  apply bind_Ok_inv in Hk as (gamma & w2 & Hgamma & Hk).
  apply bind_Ok_inv in Hk as (model & w3 & Hnet & Hk).
  apply bind_Ok_inv in Hk as (optimizer & w4 & Hadam & Hk).
  apply bind_Ok_inv in Hk as (scheduler & w0 & Hsched & Hk).
  apply bind_Ok_inv in Hk as (r & w5 & Hloop & Hk).
  destruct r as [x|]; [|discriminate]. unfold ret in Hk. injection Hk as -> ->.
  assert (Hfr : frame loaders_frozen w w2).
  { transitivity w1.
    - replace w1 with (suggest_float trial "lr" (1 # 10000) (1 # 10) true w).2
        by by rewrite Hlr.
      by apply frame_suggest_float.
    - replace w2 with (suggest_float trial "gamma" (1 # 2) (9 # 10) false w1).2
        by by rewrite Hgamma.
      by apply frame_suggest_float. }
  apply suggest_float_post in Hlr
    as (t0 & t1 & Ht0 & Ht1 & Hplr & _ & Hr1 & Hg1 & Htr1).
  apply suggest_float_post in Hgamma
    as (t1' & t2 & Ht1' & Ht2 & Hpgamma & Hkeep & Hr2 & Hg2 & Htr2).
  rewrite Ht1 in Ht1'. injection Ht1' as <-. apply Hkeep in Hplr.
  apply new_Net_inv in Hnet as (Hm & Hh3 & Hr3 & Hg3 & Htr3).
  apply new_Adam_inv in Hadam as (_ & _ & Ho & Hh4 & Hr4 & Hg4 & Htr4).
  apply new_StepLR_inv in Hsched as (_ & Hs & Hh0 & Hr0 & Hg0 & Htr0).
  unfold range in Hloop. apply objective_loop_inv in Hloop as (vs & Hruns & Hlen & Hlast).
  assert (model ≠ optimizer).
  { intros ->. apply Ho. rewrite Hh3. set_solver. }
  assert (model ≠ scheduler).
  { intros ->. apply Hs. rewrite Hh4, Hh3. set_solver. }
  assert (optimizer ≠ scheduler).
  { intros ->. apply Hs. rewrite Hh4. set_solver. }
  assert (trial ≠ model).
  { intros ->. apply Hm, elem_of_dom. eauto. }
  assert (trial ≠ optimizer).
  { intros ->. apply Ho. rewrite Hh3. apply elem_of_dom.
    rewrite lookup_insert_ne by done. eauto. }
  assert (trial ≠ scheduler).
  { intros ->. apply Hs. rewrite Hh4, Hh3. apply elem_of_dom.
    rewrite !lookup_insert_ne by done. eauto. }
  exists lr, gamma, model, optimizer, scheduler, t2, w0, vs.
  split_and!; try done.
  - by rewrite Hh0, Hh4, Hh3, !lookup_insert_ne.
  - by eapply frame_dom.
  - eapply frame_dom; [done|]. rewrite Hh3 in Ho. set_solver.
  - eapply frame_dom; [done|]. rewrite Hh4, Hh3 in Hs. set_solver.
  - rewrite Hh0, Hh4, Hh3, !lookup_insert_ne, lookup_insert_eq by done.
    by rewrite Hr2, Hr1.
  - by rewrite Hh0, lookup_insert_ne, Hh4, lookup_insert_eq.
  - by rewrite Hh0, lookup_insert_eq.
  - by rewrite Htr0, Htr4, Htr3, Htr2, Htr1.
  - destruct (last vs); [done|discriminate].
Qed.

(** C1: a trial that returns has drawn a learning rate and a gamma, which
    are in its parameters, has built a model, an Adam optimizer on that
    model and a StepLR scheduler on that optimizer, all three at locations
    not in use before, has run train, test, scheduler step once per epoch
    for [args.epochs] epochs, and returns the test loss of the last of
    them. *)
Theorem objective_returns_final_test_loss
    args device train_loader test_loader trial w v w' :
  objective args device train_loader test_loader trial w = (Ok v, w') →
  ∃ lr gamma model optimizer scheduler t w0 vs,
    heap w0 !! trial = Some (OTrial t) ∧
    params_lookup "lr" (tr_params t) = Some lr ∧
    params_lookup "gamma" (tr_params t) = Some gamma ∧
    (model ∉ dom (heap w)) ∧ (optimizer ∉ dom (heap w)) ∧
    (scheduler ∉ dom (heap w)) ∧
    model ≠ optimizer ∧ model ≠ scheduler ∧ optimizer ≠ scheduler ∧
    heap w0 !! model =
      Some (OModule {| m_params := (Net_init (rng w)).1; m_grad := None;
                       m_training := true; m_device := device |}) ∧
    heap w0 !! optimizer =
      Some (OAdam {| opt_model := model; opt_lr := lr; opt_state := adam_init |}) ∧
    heap w0 !! scheduler =
      Some (OStepLR {| sl_optimizer := optimizer; sl_step_size := 1;
                       sl_gamma := gamma; sl_last_epoch := 0 |}) ∧
    trace w0 = New KStepLR scheduler :: New KAdam optimizer
               :: New KModule model :: trace w ∧
    epochs_run args device train_loader test_loader model optimizer scheduler
      0 (Z.to_nat (epochs args)) w0 w' vs ∧
    length vs = Z.to_nat (epochs args) ∧
    last vs = Some v.
Proof. apply objective_inv. Qed.

(** ** Constructors that go through *)

Lemma suggest_float_run trial name low high log w t st :
  heap w !! trial = Some (OTrial t) →
  params_lookup name (tr_params t) = None →
  heap w !! tr_study t = Some (OStudy st) →
  (low <= high)%Q → (log = true → (0 < low)%Q) →
  ∃ w', suggest_float trial name low high log w
        = (Ok (sample_float (st_sampler st) name low high log).1, w').
Proof.
  intros Ht Hp Hst Hle Hlog. unfold suggest_float.
  destruct (Qlt_le_dec high low); [lra|].
  destruct log; simpl.
  - destruct (Qlt_le_dec 0 low); [|specialize (Hlog eq_refl); lra].
    unfold bind. rewrite (get_trial_run _ _ _ Ht), Hp, (get_study_run _ _ _ Hst).
    destruct (sample_float (st_sampler st) name low high true). simpl. eauto.
  - unfold bind. rewrite (get_trial_run _ _ _ Ht), Hp, (get_study_run _ _ _ Hst).
    destruct (sample_float (st_sampler st) name low high false). simpl. eauto.
Qed.

Lemma new_Net_run device w : ∃ l w', new_Net device w = (Ok l, w').
Proof.
  unfold new_Net, bind, get_rng, put_rng. destruct (Net_init (rng w)). simpl.
  unfold alloc. eauto.
Qed.

Lemma new_Adam_run model lr w m :
  heap w !! model = Some (OModule m) → (0 <= lr)%Q →
  ∃ l w', new_Adam model lr w = (Ok l, w').
Proof.
  intros Hm Hlr. unfold new_Adam, bind. rewrite (get_module_run _ _ _ Hm).
  destruct (Qlt_le_dec lr 0); [lra|]. unfold alloc. eauto.
Qed.

Lemma new_StepLR_run optimizer step_size gamma w o :
  heap w !! optimizer = Some (OAdam o) →
  ∃ l w', new_StepLR optimizer step_size gamma w = (Ok l, w').
Proof.
  intros Ho. unfold new_StepLR, bind. rewrite (get_adam_run _ _ _ Ho).
  unfold alloc. eauto.
Qed.

(** C10: [objective] returns only when [args.epochs] is at least 1.  With
    [args.epochs <= 0] a fresh trial goes through lines 149-155, the loop
    body never runs (nothing but the three constructions is on the trace)
    and the return statement raises the unbound-name error. *)
Theorem objective_needs_one_epoch (Hrange : sampler_in_range)
    args device train_loader test_loader trial t st w :
  heap w !! trial = Some (OTrial t) →
  tr_params t = [] →
  heap w !! tr_study t = Some (OStudy st) →
  (∀ v w', objective args device train_loader test_loader trial w = (Ok v, w') →
           1 ≤ epochs args) ∧
  (epochs args ≤ 0 →
   ∃ model optimizer scheduler w',
     objective args device train_loader test_loader trial w
       = (Raise UnboundLocalError, w') ∧
     emitted w w' = [New KStepLR scheduler; New KAdam optimizer; New KModule model]).
Proof.
  intros Ht Hnil Hst. split.
  - intros v w' (lr & gamma & model & optimizer & scheduler & t' & w0 & vs & Hinv)%objective_inv.
    destruct Hinv as (_ & _ & _ & _ & _ & _ & _ & _ & _ & _ & _ & _ & _ & _ & Hlen & Hlast).
    destruct vs; [discriminate|]. simpl in Hlen. lia.
  - intros Hep. unfold objective.
    destruct (suggest_float_run trial "lr" (1 # 10000) (1 # 10) true w t st)
      as [w1 Hlr]; [done|by rewrite Hnil|done|done|done|].
    set (lr := (sample_float (st_sampler st) "lr" (1 # 10000) (1 # 10) true).1) in *.
    assert (0 <= lr)%Q as Hlr0.
    { pose proof (Hrange (st_sampler st) "lr" (1 # 10000) (1 # 10) true) as Hr.
      fold lr in Hr. assert ((1 # 10000) <= 1 # 10)%Q by done.
      assert (0 <= 1 # 10000)%Q by done. lra. }
    rewrite (bind_Ok_run _ _ _ _ _ Hlr).
    pose proof Hlr as (_ & t0 & Ht0 & Hcase)%suggest_float_inv.
    rewrite Ht in Ht0. injection Ht0 as <-. rewrite Hnil in Hcase. simpl in Hcase.
    destruct Hcase as [[? _]|(_ & st0 & Hst0 & _ & Hh1 & Hr1 & Hg1 & Htr1)]; [discriminate|].
    rewrite Hst in Hst0. injection Hst0 as <-.
    assert (trial ≠ tr_study t) as Hne by (intros Heq; rewrite <- Heq, Ht in Hst; discriminate).
    destruct (suggest_float_run trial "gamma" (1 # 2) (9 # 10) false w1
                {| tr_study := tr_study t; tr_number := tr_number t;
                   tr_params := [("lr", lr)] |}
                {| st_direction := st_direction st; st_trials := st_trials st;
                   st_sampler :=
                     (sample_float (st_sampler st) "lr" (1 # 10000) (1 # 10) true).2 |})
      as [w2 Hgamma]; [by rewrite Hh1, lookup_insert_eq| done | | done | done |].
    { simpl. by rewrite Hh1, lookup_insert_ne, lookup_insert_eq. }
    rewrite (bind_Ok_run _ _ _ _ _ Hgamma).
    apply suggest_float_post in Hgamma as (ta & tb & _ & _ & _ & _ & Hr2 & Hg2 & Htr2).
    destruct (new_Net_run device w2) as (model & w3 & Hnet).
    rewrite (bind_Ok_run _ _ _ _ _ Hnet).
    apply new_Net_inv in Hnet as (_ & Hh3 & _ & _ & Htr3).
    destruct (new_Adam_run model lr w3 _ ltac:(by rewrite Hh3, lookup_insert_eq) Hlr0)
      as (optimizer & w4 & Hadam).
    rewrite (bind_Ok_run _ _ _ _ _ Hadam).
    apply new_Adam_inv in Hadam as (_ & _ & _ & Hh4 & _ & _ & Htr4).
    destruct (new_StepLR_run optimizer 1
                (sample_float
                   (sample_float (st_sampler st) "lr" (1 # 10000) (1 # 10) true).2
                   "gamma" (1 # 2) (9 # 10) false).1 w4 _
                ltac:(by rewrite Hh4, lookup_insert_eq))
      as (scheduler & w5 & Hsched).
    simpl. rewrite (bind_Ok_run _ _ _ _ _ Hsched).
    apply new_StepLR_inv in Hsched as (_ & _ & _ & _ & _ & Htr5).
    unfold range. replace (Z.to_nat (epochs args)) with 0%nat by lia. simpl.
    unfold bind, ret, raise. simpl.
    exists model, optimizer, scheduler, w5. split; [done|].
    apply emitted_app. by rewrite Htr5, Htr4, Htr3, Htr2, Htr1.
Qed.

(** ** One training batch *)

Lemma nll_terms_ok rows target :
  length rows = length target →
  Forall (λ row, length row = num_classes) rows →
  Forall (λ t, (t < num_classes)%nat) target →
  ∃ terms, nll_terms rows target = Ok terms.
Proof.
  revert target. induction rows as [|row rows IH]; intros [|t target] Hlen Hrows Htarget;
    simpl in *; try discriminate; [by eexists|].
  apply Forall_cons in Hrows as [Hrow Hrows]. apply Forall_cons in Htarget as [Ht Htarget].
  destruct (lookup_lt_is_Some_2 row t) as [x ->]; [lia|].
  destruct (IH target) as [terms ->]; [lia|done..|]. eauto.
Qed.


Ltac heap_lookup :=
  repeat first [ rewrite lookup_insert_eq | rewrite lookup_insert_ne by done ].


Lemma batches_of_first (Hperm : order_permutes) d g :
  dl_dataset d ≠ [] → 0 < dl_batch_size d →
  Forall (λ s : Image * nat, (s.2 < num_classes)%nat) (dl_dataset d) →
  ∃ data target rest,
    batches_of d (sample_order (dl_shuffle d) g (length (dl_dataset d))).1
      = (data, target) :: rest ∧
    length data = length target ∧
    Forall (λ t, (t < num_classes)%nat) target ∧
    (0 < length target)%nat.
Proof.
  intros Hne Hbs Hlabels.
  pose proof (Hperm (dl_shuffle d) g (length (dl_dataset d))) as Hp.
  destruct (sample_order (dl_shuffle d) g (length (dl_dataset d))).1 as [|i order] eqn:Ho.
  { apply Permutation_length in Hp. rewrite length_seq in Hp.
    destruct (dl_dataset d); [done|discriminate]. }
  assert (i ∈ seq 0 (length (dl_dataset d))) as Hi.
  { rewrite <- Hp. apply list_elem_of_here. }
  apply elem_of_seq in Hi.
  destruct (lookup_lt_is_Some_2 (dl_dataset d) i) as [s Hs]; [lia|].
  unfold batches_of. csimpl. rewrite Hs. csimpl.
  set (samples := omap (λ i, dl_dataset d !! i) order).
  exists (take (Z.to_nat (dl_batch_size d)) (s :: samples)).*1,
         (take (Z.to_nat (dl_batch_size d)) (s :: samples)).*2.
  eexists. split; [reflexivity|]. split; [by rewrite !length_fmap|]. split.
  - apply Forall_fmap, Forall_take. apply Forall_cons. split.
    + rewrite Forall_forall in Hlabels. apply Hlabels. by eapply list_elem_of_lookup_2.
    + apply Forall_forall. intros x (j & _ & Hj)%list_elem_of_omap.
      rewrite Forall_forall in Hlabels. apply Hlabels. by eapply list_elem_of_lookup_2.
  - rewrite length_fmap, length_take. simpl length. lia.
Qed.

Lemma for_loop_cons {A S} (x : A) xs (s : S) body :
  for_loop (x :: xs) s body =
  bind (body x s)
       (λ r, match r with
             | (Break, s') => ret s'
             | (Continue, s') => for_loop xs s' body
             end).
Proof. reflexivity. Qed.

Lemma enumerate_cons {A} (x : A) xs :
  enumerate (x :: xs) = (0, x) :: imap (λ i y, (Z.of_nat (S i), y)) xs.
Proof. reflexivity. Qed.

Lemma set_mode_run model training w m :
  heap w !! model = Some (OModule m) →
  set_mode model training w =
    (Ok tt, set_heap (<[model := OModule {| m_params := m_params m; m_grad := m_grad m;
                                            m_training := training;
                                            m_device := m_device m |}]> (heap w)) w).
Proof. intros Hm. unfold set_mode, bind. by rewrite (get_module_run _ _ _ Hm). Qed.

Lemma iter_loader_run l w d :
  heap w !! l = Some (ODataLoader d) →
  iter_loader l w =
    (Ok (batches_of d (sample_order (dl_shuffle d) (rng w) (length (dl_dataset d))).1),
     set_rng (sample_order (dl_shuffle d) (rng w) (length (dl_dataset d))).2
       (set_trace (Iter l :: trace w) w)).
Proof.
  intros Hd. unfold iter_loader, bind. rewrite (get_loader_run _ _ _ Hd).
  unfold emit, get_rng, put_rng, ret. simpl.
  by destruct (sample_order (dl_shuffle d) (rng w) (length (dl_dataset d))).
Qed.


(** ** main: what is never done *)

#[local] Hint Extern 0 (_ = true) => reflexivity : stable.

Lemma main_never_saves env args :
  stable (emits (λ e, is_save e = false)) (main env args).
Proof. unfold main. stable_go. Qed.

(** ** main, step by step *)

Lemma new_DataLoader_inv dataset kwargs w l w' :
  new_DataLoader dataset kwargs w = (Ok l, w') →
  0 < kw_int kwargs "batch_size" 1 ∧
  (l ∉ dom (heap w)) ∧
  heap w' = <[l := ODataLoader
                     {| dl_dataset := dataset;
                        dl_batch_size := kw_int kwargs "batch_size" 1;
                        dl_shuffle := kw_bool kwargs "shuffle" false;
                        dl_num_workers := kw_int kwargs "num_workers" 0;
                        dl_pin_memory := kw_bool kwargs "pin_memory" false |}]> (heap w) ∧
  rng w' = rng w ∧ grad_enabled w' = grad_enabled w ∧
  trace w' = New KDataLoader l :: trace w.
Proof.
  unfold new_DataLoader.
  destruct (Z.leb_spec (kw_int kwargs "batch_size" 1) 0); [discriminate|].
  intros Ha%alloc_inv. simpl in Ha. naive_solver.
Qed.

Lemma print_params_run ps : ∀ w,
  for_loop ps tt print_param w
  = (Ok tt, set_trace (rev ((λ kv : string * Q, PrintParam kv.1 kv.2) <$> ps) ++ trace w) w).
Proof.
  induction ps as [|[k v] ps IH]; intros w.
  - simpl. unfold ret. by destruct w.
  - rewrite for_loop_cons. unfold print_param at 1. unfold bind, emit, ret. simpl.
    rewrite IH. simpl. by rewrite <- app_assoc.
Qed.

Lemma best_trial_inv study w ft w' :
  best_trial study w = (Ok ft, w') →
  ∃ st v, heap w !! study = Some (OStudy st) ∧
          best_of (st_direction st) None (st_trials st) = Some (v, ft) ∧ w' = w.
Proof.
  unfold best_trial.
  intros (st & w1 & [Hst ->]%get_study_inv & Hk)%bind_Ok_inv.
  destruct (best_of (st_direction st) None (st_trials st)) as [[v t]|] eqn:Hb;
    [|discriminate].
  unfold ret in Hk. injection Hk as -> ->. eauto.
Qed.

(** Evaluates the reads of keyword dictionaries in the hypotheses. *)
Ltac kw_compute :=
  repeat match goal with
         | Hx : context [kw_int ?m ?k ?d] |- _ =>
             let v := eval vm_compute in (kw_int m k d) in
             change (kw_int m k d) with v in Hx
         | Hx : context [kw_bool ?m ?k ?d] |- _ =>
             let v := eval vm_compute in (kw_bool m k d) in
             change (kw_bool m k d) with v in Hx
         end.

(** The loaders as [main] builds them. *)
Lemma main_inv env args w w' :
  main env args w = (Ok tt, w') →
  let use_cuda := negb (no_cuda args) && cuda_is_available env in
  let device := if use_cuda then Cuda else Cpu in
  let dl dataset bs :=
    {| dl_dataset := dataset; dl_batch_size := bs; dl_shuffle := use_cuda;
       dl_num_workers := if use_cuda then 1 else 0; dl_pin_memory := use_cuda |} in
  let results := path_join (PLR_ROOT_DIR env) "results" in
  ∃ train_loader test_loader study w0 w1 st v ft,
    0 < batch_size args ∧ 0 < test_batch_size args ∧
    (train_loader ∉ dom (heap w)) ∧ (test_loader ∉ dom (heap w)) ∧
    (study ∉ dom (heap w)) ∧
    train_loader ≠ test_loader ∧ train_loader ≠ study ∧ test_loader ≠ study ∧
    heap w0 =
      <[study := OStudy {| st_direction := Minimize; st_trials := [];
                           st_sampler := sampler_init |}]>
        (<[test_loader := ODataLoader (dl (mnist_test env) (test_batch_size args))]>
           (<[train_loader := ODataLoader (dl (mnist_train env) (batch_size args))]>
              (heap w))) ∧
    rng w0 = manual_seed (seed args) ∧ grad_enabled w0 = grad_enabled w ∧
    trace w0 =
      [New KStudy study; New KDataLoader test_loader; New KDataLoader train_loader;
       LoadMNIST "../data" false false; LoadMNIST "../data" true true;
       WandbLogCode "source_files" (PLR_ROOT_DIR env);
       WandbInit results "plr-project" args (PLR_ROOT_DIR env);
       Makedirs results; WandbLogin] ++ trace w ∧
    optimize study (objective args device train_loader test_loader) 5 w0 = (Ok tt, w1) ∧
    heap w1 !! study = Some (OStudy st) ∧
    best_of (st_direction st) None (st_trials st) = Some (v, ft) ∧
    heap w' = heap w1 ∧ rng w' = rng w1 ∧ grad_enabled w' = grad_enabled w1 ∧
    trace w' =
      WandbFinish :: rev ((λ kv : string * Q, PrintParam kv.1 kv.2) <$> ft_params ft)
      ++ [PrintStr "  Params: "; PrintValue (ft_value ft); PrintStr "Best trial:"]
      ++ trace w1.
Proof.
  unfold main. intros Hrun.
  repeat (apply bind_Ok_inv in Hrun as ([] & ? & [= <-] & Hrun)).
  apply bind_Ok_inv in Hrun as (train_loader & wa & Htl & Hrun).
  apply bind_Ok_inv in Hrun as (test_loader & wb & Htel & Hrun).
  apply bind_Ok_inv in Hrun as (study & w0 & Hstudy & Hrun).
  apply bind_Ok_inv in Hrun as ([] & w1 & Hopt & Hrun).
  apply bind_Ok_inv in Hrun as ([] & ? & [= <-] & Hrun).
  apply bind_Ok_inv in Hrun as (ft & ? & (st & v & Hst & Hbest & ->)%best_trial_inv & Hrun).
  repeat (apply bind_Ok_inv in Hrun as ([] & ? & [= <-] & Hrun)).
  apply bind_Ok_inv in Hrun as ([] & w2 & Hprint & Hrun).
  rewrite print_params_run in Hprint. injection Hprint as <-.
  injection Hrun as <-.
  apply new_DataLoader_inv in Htl as (Hbs1 & Hl1 & Hh1 & Hr1 & Hg1 & Ht1).
  apply new_DataLoader_inv in Htel as (Hbs2 & Hl2 & Hh2 & Hr2 & Hg2 & Ht2).
  apply alloc_inv in Hstudy as (Hl3 & Hh3 & Hr3 & Hg3 & Ht3).
  simpl in *.
  exists train_loader, test_loader, study, w0, w1, st, v, ft.
  assert (train_loader ≠ test_loader).
  { apply not_eq_sym. eapply not_in_dom_insert_ne; [exact Hh1|exact Hl2]. }
  assert (train_loader ≠ study).
  { apply not_eq_sym. eapply not_in_dom_insert_ne; [exact Hh1|].
    eapply not_in_dom_insert; [exact Hh2|exact Hl3]. }
  assert (test_loader ≠ study).
  { apply not_eq_sym. eapply not_in_dom_insert_ne; [exact Hh2|exact Hl3]. }
  destruct (negb (no_cuda args) && cuda_is_available env) eqn:Hcuda.
  all: kw_compute.
  all: split_and!; try done; try congruence.
  all: try (eapply not_in_dom_insert; [exact Hh1|exact Hl2]).
  all: try (eapply not_in_dom_insert; [exact Hh1|];
            eapply not_in_dom_insert; [exact Hh2|exact Hl3]).
  all: try (by rewrite Hh3, Hh2, Hh1).
  all: try (by rewrite Ht3, Ht2, Ht1).
  all: by rewrite <- app_assoc.
Qed.

(** ** The loaders *)

Lemma iter_within_l a b : iter_within a b (Iter a) = true.
Proof. simpl. by rewrite bool_decide_eq_true_2. Qed.

Lemma iter_within_r a b : iter_within a b (Iter b) = true.
Proof. simpl. rewrite (bool_decide_eq_true_2 (b = b)) by done. apply orb_true_r. Qed.

#[local] Hint Resolve iter_within_l iter_within_r : stable.

Lemma objective_frame args device train_loader test_loader trial :
  stable (frame loaders_frozen) (objective args device train_loader test_loader trial).
Proof. stable_go. Qed.

Lemma train_frame args model device train_loader optimizer epoch :
  stable (frame loaders_frozen) (train args model device train_loader optimizer epoch).
Proof. stable_go. Qed.

Lemma test_frame model device test_loader epoch :
  stable (frame loaders_frozen) (test model device test_loader epoch).
Proof. stable_go. Qed.

Lemma optimize_frame args device train_loader test_loader study n :
  stable (frame loaders_frozen)
    (optimize study (objective args device train_loader test_loader) n).
Proof. stable_go. Qed.

Lemma optimize_no_new_loader args device train_loader test_loader study n :
  stable (emits (λ e, is_new_loader e = false))
    (optimize study (objective args device train_loader test_loader) n).
Proof. stable_go. Qed.

Lemma optimize_iter_within args device train_loader test_loader study n :
  stable (emits (λ e, iter_within train_loader test_loader e = true))
    (optimize study (objective args device train_loader test_loader) n).
Proof. stable_go. Qed.

Lemma frame_loader w w' l d :
  frame loaders_frozen w w' →
  heap w !! l = Some (ODataLoader d) → heap w' !! l = Some (ODataLoader d).
Proof.
  intros Hfr Hl. destruct (Hfr l _ Hl) as (o' & Hl' & _ & Heq).
  by rewrite Hl', Heq.
Qed.

(** C7: in a run of [main] that completes, the two loaders are built
    once each, before the study is created, at locations not in use
    before; after that no loader is built, every iteration of the search
    is over one of these two, and at the end both are the objects that
    were built, unchanged.  No call of [train], [test] or [objective]
    modifies any data loader, whatever its arguments. *)
Theorem loaders_built_once_and_only_read env args w w' :
  main env args w = (Ok tt, w') →
  ∃ train_loader test_loader study dtr dte before after,
    (train_loader ∉ dom (heap w)) ∧ (test_loader ∉ dom (heap w)) ∧
    train_loader ≠ test_loader ∧
    dl_dataset dtr = mnist_train env ∧ dl_dataset dte = mnist_test env ∧
    emitted w w' =
      after ++ New KStudy study :: New KDataLoader test_loader
            :: New KDataLoader train_loader :: before ∧
    Forall (λ e, is_new_loader e = false) before ∧
    Forall (λ e, is_new_loader e = false) after ∧
    Forall (λ e, iter_within train_loader test_loader e = true) after ∧
    heap w' !! train_loader = Some (ODataLoader dtr) ∧
    heap w' !! test_loader = Some (ODataLoader dte) ∧
    (∀ a model device loader optimizer epoch w0 l d,
        heap w0 !! l = Some (ODataLoader d) →
        heap (train a model device loader optimizer epoch w0).2 !! l
          = Some (ODataLoader d)) ∧
    (∀ model device loader epoch w0 l d,
        heap w0 !! l = Some (ODataLoader d) →
        heap (test model device loader epoch w0).2 !! l = Some (ODataLoader d)) ∧
    (∀ a device l1 l2 trial w0 l d,
        heap w0 !! l = Some (ODataLoader d) →
        heap (objective a device l1 l2 trial w0).2 !! l = Some (ODataLoader d)).
Proof.
  intros Hmain. pose proof (main_inv _ _ _ _ Hmain) as Hinv. simpl in Hinv.
  destruct Hinv as (train_loader & test_loader & study & w0 & w1 & st & v & ft & Hinv).
  destruct Hinv as (_ & _ & Hl1 & Hl2 & _ & Hne & Hne1 & Hne2 & Hh0 & _ & _ & Ht0
                    & Hopt & _ & _ & Hh' & _ & _ & Ht').
  set (device := if negb (no_cuda args) && cuda_is_available env then Cuda else Cpu) in *.
  pose proof (optimize_frame args device train_loader test_loader study 5 w0) as Hfr.
  pose proof (optimize_no_new_loader args device train_loader test_loader study 5 w0)
    as [Ht1 Hnew]%emits_emitted.
  pose proof (optimize_iter_within args device train_loader test_loader study 5 w0)
    as [_ Hiter]%emits_emitted.
  rewrite Hopt in Hfr, Ht1, Hnew, Hiter. simpl in Hfr, Ht1, Hnew, Hiter.
  set (report := WandbFinish
         :: rev ((λ kv : string * Q, PrintParam kv.1 kv.2) <$> ft_params ft)
         ++ [PrintStr "  Params: "; PrintValue (ft_value ft); PrintStr "Best trial:"]).
  set (use_cuda := negb (no_cuda args) && cuda_is_available env) in *.
  exists train_loader, test_loader, study,
    {| dl_dataset := mnist_train env; dl_batch_size := batch_size args;
       dl_shuffle := use_cuda; dl_num_workers := if use_cuda then 1 else 0;
       dl_pin_memory := use_cuda |},
    {| dl_dataset := mnist_test env; dl_batch_size := test_batch_size args;
       dl_shuffle := use_cuda; dl_num_workers := if use_cuda then 1 else 0;
       dl_pin_memory := use_cuda |},
    [LoadMNIST "../data" false false; LoadMNIST "../data" true true;
     WandbLogCode "source_files" (PLR_ROOT_DIR env);
     WandbInit (path_join (PLR_ROOT_DIR env) "results") "plr-project" args
       (PLR_ROOT_DIR env);
     Makedirs (path_join (PLR_ROOT_DIR env) "results"); WandbLogin],
    (report ++ emitted w0 w1).
  split_and!; try done.
  - apply emitted_app. rewrite Ht', Ht1, Ht0. unfold report. simpl.
    rewrite <- !app_assoc. simpl. reflexivity.
  - by repeat constructor.
  - apply Forall_app. split; [|done]. unfold report.
    constructor; [done|]. apply Forall_app. split; [|by repeat constructor].
    apply Forall_rev, Forall_fmap, Forall_forall. by intros [].
  - apply Forall_app. split; [|done]. unfold report.
    constructor; [done|]. apply Forall_app. split; [|by repeat constructor].
    apply Forall_rev, Forall_fmap, Forall_forall. by intros [].
  - rewrite Hh'. eapply frame_loader; [done|].
    rewrite Hh0. by heap_lookup.
  - rewrite Hh'. eapply frame_loader; [done|].
    rewrite Hh0. by heap_lookup.
  - intros. eapply frame_loader; [apply train_frame|done].
  - intros. eapply frame_loader; [apply test_frame|done].
  - intros. eapply frame_loader; [apply objective_frame|done].
Qed.

(** ** The study *)

Lemma best_of_spec ts : ∀ best v ft,
  best_of Minimize best ts = Some (v, ft) →
  (best = Some (v, ft) ∨
   (ft ∈ ts ∧ ft_state ft = Complete ∧ ft_value ft = Some v)) ∧
  (∀ vb b, best = Some (vb, b) → (v <= vb)%Q) ∧
  (∀ t v', t ∈ ts → ft_state t = Complete → ft_value t = Some v' → (v <= v')%Q).
Proof.
  induction ts as [|t ts IH]; intros best v ft Hbest; simpl in Hbest.
  - subst best. split_and!; [by left| |].
    + intros vb b [= <- <-]. lra.
    + intros t v' Hin. by apply elem_of_nil in Hin.
  - destruct (ft_state t) eqn:Hstate, (ft_value t) as [vt|] eqn:Hvalue.
    2-4: (apply IH in Hbest as (Hwho & Hle & Hall); split_and!;
          [ destruct Hwho as [?|(? & ? & ?)]; [by left|right; split_and!; try done;
                                                by apply list_elem_of_further]
          | done
          | intros t' v' [->|Hin]%elem_of_cons Hc Hv; [congruence|by eapply Hall] ]).
    destruct best as [[vb b]|].
    + unfold better in Hbest. destruct (Qlt_le_dec vt vb) as [Hlt|Hge].
      * apply IH in Hbest as (Hwho & Hle & Hall).
        pose proof (Hle _ _ eq_refl) as Hvt.
        split_and!.
        -- right. destruct Hwho as [[= <- <-]|(? & ? & ?)].
           ++ split_and!; try done. apply list_elem_of_here.
           ++ split_and!; try done. by apply list_elem_of_further.
        -- intros vb' b' [= <- <-]. lra.
        -- intros t' v' [->|Hin]%elem_of_cons Hc Hv; [|by eapply Hall].
           rewrite Hvalue in Hv. injection Hv as <-. done.
      * apply IH in Hbest as (Hwho & Hle & Hall).
        pose proof (Hle _ _ eq_refl) as Hvb.
        split_and!.
        -- destruct Hwho as [?|(? & ? & ?)]; [by left|].
           right. split_and!; try done. by apply list_elem_of_further.
        -- done.
        -- intros t' v' [->|Hin]%elem_of_cons Hc Hv; [|by eapply Hall].
           rewrite Hvalue in Hv. injection Hv as <-. lra.
    + apply IH in Hbest as (Hwho & Hle & Hall).
      pose proof (Hle _ _ eq_refl) as Hvt.
      split_and!.
      * right. destruct Hwho as [[= <- <-]|(? & ? & ?)].
        -- split_and!; try done. apply list_elem_of_here.
        -- split_and!; try done. by apply list_elem_of_further.
      * intros ? ? [=].
      * intros t' v' [->|Hin]%elem_of_cons Hc Hv; [|by eapply Hall].
        rewrite Hvalue in Hv. injection Hv as <-. done.
Qed.

(** The parameters of a trial that ran [objective] from scratch. *)
Lemma objective_trial_params (Hrange : sampler_in_range)
    args device train_loader test_loader trial w v w' t st :
  heap w !! trial = Some (OTrial t) → tr_params t = [] →
  heap w !! tr_study t = Some (OStudy st) →
  objective args device train_loader test_loader trial w = (Ok v, w') →
  ∃ lr gamma smp,
    (1 # 10000 <= lr <= 1 # 10)%Q ∧ (1 # 2 <= gamma <= 9 # 10)%Q ∧
    heap w' !! trial =
      Some (OTrial {| tr_study := tr_study t; tr_number := tr_number t;
                      tr_params := [("lr", lr); ("gamma", gamma)] |}) ∧
    heap w' !! tr_study t =
      Some (OStudy {| st_direction := st_direction st; st_trials := st_trials st;
                      st_sampler := smp |}).
Proof.
  intros Ht Hnil Hst. unfold objective.
  intros (lr & w1 & Hlr & Hk)%bind_Ok_inv.
  apply bind_Ok_inv in Hk as (gamma & w2 & Hgamma & Hk).
  assert (trial ≠ tr_study t) as Hne
    by (intros Heq; rewrite <- Heq, Ht in Hst; discriminate).
  apply suggest_float_inv in Hlr as (Hle1 & t0 & Ht0 & Hcase).
  rewrite Ht in Ht0. injection Ht0 as <-. rewrite Hnil in Hcase. simpl in Hcase.
  destruct Hcase as [[? _]|(_ & st0 & Hst0 & Hv1 & Hh1 & _)]; [discriminate|].
  rewrite Hst in Hst0. injection Hst0 as <-.
  apply suggest_float_inv in Hgamma as (Hle2 & t1 & Ht1 & Hcase).
  rewrite Hh1, lookup_insert_eq in Ht1. injection Ht1 as <-. simpl in Hcase.
  destruct Hcase as [[[=] _]|(_ & st1 & Hst1 & Hv2 & Hh2 & _)].
  rewrite Hh1, lookup_insert_ne, lookup_insert_eq in Hst1 by done.
  injection Hst1 as <-. simpl in Hv2, Hh2.
  match type of Hk with
  | ?c w2 = _ =>
      assert (stable (frame torch_frozen) c) as Hfr by stable_go;
      specialize (Hfr w2); rewrite Hk in Hfr; simpl in Hfr
  end.
  exists lr, gamma. eexists. split_and!.
  - rewrite Hv1. apply Hrange, Hle1.
  - rewrite Hv1. apply Hrange, Hle1.
  - rewrite Hv2. apply Hrange, Hle2.
  - rewrite Hv2. apply Hrange, Hle2.
  - destruct (Hfr trial _ ltac:(by rewrite Hh2, lookup_insert_eq)) as (o' & -> & _ & Heq).
    by rewrite Heq.
  - destruct (Hfr (tr_study t) _
                ltac:(by rewrite Hh2, lookup_insert_ne, lookup_insert_eq))
      as (o' & -> & _ & Heq).
    by rewrite Heq.
Qed.

Lemma study_ask_inv study w trial w' :
  study_ask study w = (Ok trial, w') →
  ∃ st, heap w !! study = Some (OStudy st) ∧ (trial ∉ dom (heap w)) ∧
        heap w' = <[trial := OTrial {| tr_study := study;
                                       tr_number := length (st_trials st);
                                       tr_params := [] |}]> (heap w).
Proof.
  unfold study_ask.
  intros (st & w1 & [Hst ->]%get_study_inv & Hk)%bind_Ok_inv.
  apply alloc_inv in Hk as (Hl & Hh & _). eauto.
Qed.

Lemma study_tell_inv study trial state value w u w' :
  study_tell study trial state value w = (Ok u, w') →
  ∃ st t, heap w !! study = Some (OStudy st) ∧ heap w !! trial = Some (OTrial t) ∧
    heap w' =
      <[study := OStudy
          {| st_direction := st_direction st;
             st_trials := st_trials st ++
               [{| ft_number := tr_number t; ft_state := state; ft_value := value;
                   ft_params := tr_params t |}];
             st_sampler :=
               after_trial (st_sampler st)
                 {| ft_number := tr_number t; ft_state := state; ft_value := value;
                    ft_params := tr_params t |} |}]> (heap w).
Proof.
  unfold study_tell.
  intros (st & w1 & [Hst ->]%get_study_inv & Hk)%bind_Ok_inv.
  apply bind_Ok_inv in Hk as (t & w1 & [Ht ->]%get_trial_inv & Hk).
  unfold store in Hk. injection Hk as _ <-. eauto.
Qed.

(** One more completed trial, with parameters within the ranges. *)
Lemma run_trial_inv (Hrange : sampler_in_range)
    args device train_loader test_loader study w u w' st :
  heap w !! study = Some (OStudy st) →
  run_trial study (objective args device train_loader test_loader) w = (Ok u, w') →
  ∃ v lr gamma smp,
    (1 # 10000 <= lr <= 1 # 10)%Q ∧ (1 # 2 <= gamma <= 9 # 10)%Q ∧
    heap w' !! study =
      Some (OStudy
        {| st_direction := st_direction st;
           st_trials := st_trials st ++
             [{| ft_number := length (st_trials st); ft_state := Complete;
                 ft_value := Some v;
                 ft_params := [("lr", lr); ("gamma", gamma)] |}];
           st_sampler := smp |}).
Proof.
  intros Hst. unfold run_trial.
  intros (trial & w1 & (st0 & Hst0 & Hfresh & Hh1)%study_ask_inv & Hk)%bind_Ok_inv.
  rewrite Hst in Hst0. injection Hst0 as <-.
  assert (trial ≠ study) as Hne.
  { intros ->. apply Hfresh, elem_of_dom. eauto. }
  apply bind_Ok_inv in Hk as (r & w2 & Hobj & Hk).
  unfold attempt in Hobj.
  destruct (objective args device train_loader test_loader trial w1) as [r' w2'] eqn:Hrun.
  injection Hobj as <- <-.
  destruct r' as [v|e].
  - eapply (objective_trial_params Hrange) in Hrun
      as (lr & gamma & smp & Hlr & Hgamma & Ht2 & Hs2);
      [| by rewrite Hh1, lookup_insert_eq | done
       | simpl; by rewrite Hh1, lookup_insert_ne ].
    simpl in Ht2, Hs2.
    apply study_tell_inv in Hk as (st2 & t2 & Hst2 & Ht2' & Hh').
    rewrite Hs2 in Hst2. injection Hst2 as <-.
    rewrite Ht2 in Ht2'. injection Ht2' as <-. simpl in Hh'.
    exists v, lr, gamma. eexists. split_and!; try tauto.
    by rewrite Hh', lookup_insert_eq.
  - apply bind_Ok_inv in Hk as (? & ? & _ & Hk). discriminate.
Qed.

(** The parameters of a recorded trial are within the sampling ranges. *)
Lemma optimize_inv (Hrange : sampler_in_range)
    args device train_loader test_loader study (xs : list Z) :
  ∀ w w' st,
    heap w !! study = Some (OStudy st) →
    for_loop xs tt
      (λ _ _, bind (run_trial study (objective args device train_loader test_loader))
                   (λ _, ret (Continue, tt))) w = (Ok tt, w') →
    ∃ new smp,
      heap w' !! study =
        Some (OStudy {| st_direction := st_direction st;
                        st_trials := st_trials st ++ new; st_sampler := smp |}) ∧
      length new = length xs ∧
      Forall (λ ft, ft_state ft = Complete ∧ is_Some (ft_value ft) ∧
                    ∃ lr gamma, ft_params ft = [("lr", lr); ("gamma", gamma)] ∧
                                (1 # 10000 <= lr <= 1 # 10)%Q ∧
                                (1 # 2 <= gamma <= 9 # 10)%Q) new.
Proof.
  induction xs as [|x xs IH]; intros w w' st Hst Hrun.
  - injection Hrun as <-. exists [], (st_sampler st). rewrite app_nil_r.
    split_and!; [by destruct st|done|constructor].
  - rewrite for_loop_cons in Hrun.
    apply bind_Ok_inv in Hrun as (r & w1 & Hbody & Hrun).
    apply bind_Ok_inv in Hbody as (u & w1' & Htrial & Hret).
    injection Hret as <- <-.
    eapply (run_trial_inv Hrange) in Htrial
      as (v & lr & gamma & smp & Hlr & Hgamma & Hst1); [|done].
    eapply IH in Hrun as (new & smp' & Hst' & Hlen & Hall); [|done].
    simpl in Hst'. rewrite <- app_assoc in Hst'. simpl in Hst'.
    eexists (_ :: new), smp'. split_and!; [done|simpl; by rewrite Hlen|].
    constructor; [|done]. simpl. split_and!; [done|by eexists|eauto].
Qed.

(** C2: in a run of [main] that completes, the study minimizes, holds
    exactly five trials, all completed; the trial it reports is one of
    them, no completed trial has a smaller value, and its parameters, the
    ones printed, are a learning rate within [1e-4, 1e-1] and a gamma
    within [0.5, 0.9]. *)
Theorem best_trial_within_sampling_ranges (Hrange : sampler_in_range)
    env args w w' :
  main env args w = (Ok tt, w') →
  ∃ study st v ft lr gamma,
    heap w' !! study = Some (OStudy st) ∧
    st_direction st = Minimize ∧
    length (st_trials st) = 5%nat ∧
    Forall (λ t, ft_state t = Complete) (st_trials st) ∧
    best_of (st_direction st) None (st_trials st) = Some (v, ft) ∧
    ft ∈ st_trials st ∧ ft_value ft = Some v ∧
    (∀ t v', t ∈ st_trials st → ft_value t = Some v' → (v <= v')%Q) ∧
    ft_params ft = [("lr", lr); ("gamma", gamma)] ∧
    (1 # 10000 <= lr <= 1 # 10)%Q ∧ (1 # 2 <= gamma <= 9 # 10)%Q ∧
    PrintParam "lr" lr ∈ emitted w w' ∧ PrintParam "gamma" gamma ∈ emitted w w'.
Proof.
  intros Hmain. pose proof (main_inv _ _ _ _ Hmain) as Hinv. simpl in Hinv.
  destruct Hinv as (train_loader & test_loader & study & w0 & w1 & st & v & ft & Hinv).
  destruct Hinv as (_ & _ & _ & _ & _ & _ & _ & _ & Hh0 & _ & _ & Ht0
                    & Hopt & Hst & Hbest & Hh' & _ & _ & Ht').
  set (device := if negb (no_cuda args) && cuda_is_available env then Cuda else Cpu) in *.
  pose proof (optimize_no_new_loader args device train_loader test_loader study 5 w0)
    as [Ht1 _]%emits_emitted.
  rewrite Hopt in Ht1. simpl in Ht1.
  unfold optimize in Hopt.
  eapply (optimize_inv Hrange) in Hopt as (new & smp & Hst1 & Hlen & Hall);
    [|by rewrite Hh0, lookup_insert_eq].
  simpl in Hst1. rewrite Hst in Hst1. injection Hst1 as ->. simpl in Hbest.
  pose proof (best_of_spec _ _ _ _ Hbest) as ([[=]|(Hin & Hstate & Hvalue)] & _ & Hmin).
  rewrite Forall_forall in Hall.
  destruct (Hall ft Hin) as (_ & _ & lr & gamma & Hparams & Hlr & Hgamma).
  exists study, {| st_direction := Minimize; st_trials := new; st_sampler := smp |},
    v, ft, lr, gamma.
  assert (emitted w w' =
            WandbFinish :: rev ((λ kv : string * Q, PrintParam kv.1 kv.2) <$> ft_params ft)
            ++ [PrintStr "  Params: "; PrintValue (ft_value ft); PrintStr "Best trial:"]
            ++ emitted w0 w1 ++
            [New KStudy study; New KDataLoader test_loader; New KDataLoader train_loader;
             LoadMNIST "../data" false false; LoadMNIST "../data" true true;
             WandbLogCode "source_files" (PLR_ROOT_DIR env);
             WandbInit (path_join (PLR_ROOT_DIR env) "results") "plr-project" args
               (PLR_ROOT_DIR env);
             Makedirs (path_join (PLR_ROOT_DIR env) "results"); WandbLogin]) as Hem.
  { apply emitted_app. rewrite Ht', Ht1, Ht0. simpl.
    repeat (rewrite <- app_assoc; simpl). reflexivity. }
  simpl. split_and!; try done; try tauto.
  - by rewrite Hh'.
  - apply Forall_forall. intros t Ht. by destruct (Hall t Ht).
  - intros t v' Ht Hv. eapply Hmin; [done| |done]. by destruct (Hall t Ht).
  - rewrite Hem, Hparams. simpl. set_solver.
  - rewrite Hem, Hparams. simpl. set_solver.
Qed.

(** ** Computations that do not read the trace *)

Lemma oblivious_ret {A} (a : A) : oblivious (ret a).
Proof. intros w. by exists []. Qed.

Lemma oblivious_raise {A} e : oblivious (raise (A := A) e).
Proof. intros w. by exists []. Qed.

Lemma oblivious_bind {A B} (c : M A) (k : A → M B) :
  oblivious c → (∀ a, oblivious (k a)) → oblivious (bind c k).
Proof.
  intros Hc Hk w. destruct (Hc w) as (e1 & Ht1 & Hrun1).
  unfold bind. destruct (c w) as [[a|e] w1] eqn:Hcw; simpl in *.
  - destruct (Hk a w1) as (e2 & Ht2 & Hrun2).
    exists (e2 ++ e1). split.
    + by rewrite Ht2, Ht1, app_assoc.
    + intros t. rewrite Hrun1, Hrun2. by rewrite app_assoc.
  - exists e1. split; [done|]. intros t. by rewrite Hrun1.
Qed.

Lemma oblivious_for_loop {A S} (xs : list A) (s : S) body :
  (∀ x s, oblivious (body x s)) → oblivious (for_loop xs s body).
Proof.
  intros Hbody. revert s. induction xs as [|x xs IH]; intros s; simpl.
  - apply oblivious_ret.
  - apply oblivious_bind; [apply Hbody|].
    intros [[] s']; [apply IH | apply oblivious_ret].
Qed.

Lemma oblivious_attempt {A} (c : M A) : oblivious c → oblivious (attempt c).
Proof.
  intros Hc w. destruct (Hc w) as (evs & Ht & Hrun). exists evs.
  unfold attempt. split.
  - by destruct (c w).
  - intros t. rewrite Hrun. by destruct (c w).
Qed.

Lemma oblivious_with_no_grad {A} (c : M A) :
  oblivious c → oblivious (with_no_grad c).
Proof.
  intros Hc w. destruct (Hc (set_grad_enabled false w)) as (evs & Ht & Hrun).
  exists evs. unfold with_no_grad. split.
  - by destruct (c (set_grad_enabled false w)).
  - intros t. simpl.
    change (set_grad_enabled false (set_trace t w))
      with (set_trace t (set_grad_enabled false w)).
    rewrite Hrun. by destruct (c (set_grad_enabled false w)).
Qed.

Lemma oblivious_emit e : oblivious (emit e).
Proof. intros w. by exists [e]. Qed.

Lemma oblivious_alloc o : oblivious (alloc o).
Proof. intros w. by eexists [_]. Qed.

Lemma oblivious_load l : oblivious (load l).
Proof. intros w. exists []. unfold load. simpl. by destruct (heap w !! l). Qed.

Lemma oblivious_store l o : oblivious (store l o).
Proof. intros w. by exists []. Qed.

Lemma oblivious_get_rng : oblivious get_rng.
Proof. intros w. by exists []. Qed.

Lemma oblivious_put_rng g : oblivious (put_rng g).
Proof. intros w. by exists []. Qed.

Lemma oblivious_is_grad_enabled : oblivious is_grad_enabled.
Proof. intros w. by exists []. Qed.

Create HintDb oblivious discriminated.

#[local] Hint Resolve oblivious_ret oblivious_raise oblivious_emit oblivious_alloc
  oblivious_load oblivious_store oblivious_get_rng oblivious_put_rng
  oblivious_is_grad_enabled : oblivious.

Ltac oblivious_step :=
  first
    [ progress intros
    | solve [ eauto 2 with oblivious ]
    | apply oblivious_bind
    | apply oblivious_for_loop
    | apply oblivious_attempt
    | apply oblivious_with_no_grad
    | match goal with
      | |- oblivious (match ?x with _ => _ end) => destruct x
      end
    | progress unfold train, train_batch, test, test_loop, test_batch,
        objective, objective_epoch, optimize, run_trial, best_trial, print_param,
        iter_loader, len_dataset, len_loader, call_model, nll_loss, new_Net,
        new_Adam, new_StepLR, new_DataLoader, create_study, study_ask,
        get_loader, get_module, get_adam, get_steplr, get_study, get_trial, to,
        set_mode, loss_backward, zero_grad, optimizer_step, scheduler_step,
        suggest_float, study_tell, py_mod, py_truediv ].

Ltac oblivious_go := repeat oblivious_step.

(** ** The flags that main does not use *)

(** C8, as the code has it: the value of [--gamma] reaches the outside
    only through the configuration handed to [wandb.init].  Two runs that
    differ in that flag alone end the same way, in worlds with the same
    heap, generator and autograd switch, and their traces are equal event
    by event except for that configuration.  [train] and [objective] do
    not depend on the flag at all. *)
Theorem gamma_flag_reaches_only_wandb_config env args g w :
  (main env (with_gamma g args) w).1 = (main env args w).1 ∧
  heap (main env (with_gamma g args) w).2 = heap (main env args w).2 ∧
  rng (main env (with_gamma g args) w).2 = rng (main env args w).2 ∧
  grad_enabled (main env (with_gamma g args) w).2 = grad_enabled (main env args w).2 ∧
  (∃ before after dir project code_dir,
      emitted w (main env args w).2
        = after ++ WandbInit dir project args code_dir :: before ∧
      emitted w (main env (with_gamma g args) w).2
        = after ++ WandbInit dir project (with_gamma g args) code_dir :: before) ∧
  (∀ model device train_loader optimizer epoch,
      train (with_gamma g args) model device train_loader optimizer epoch
      = train args model device train_loader optimizer epoch) ∧
  (∀ device train_loader test_loader trial,
      objective (with_gamma g args) device train_loader test_loader trial
      = objective args device train_loader test_loader trial).
Proof.
  assert (∃ rest : Args → M unit,
            (∀ a, main env a w =
                  rest a (set_trace
                            ([WandbLogCode "source_files" (PLR_ROOT_DIR env);
                              WandbInit (path_join (PLR_ROOT_DIR env) "results")
                                "plr-project" a (PLR_ROOT_DIR env);
                              Makedirs (path_join (PLR_ROOT_DIR env) "results");
                              WandbLogin] ++ trace w) w)) ∧
            (∀ a, oblivious (rest a)) ∧
            rest (with_gamma g args) = rest args) as (rest & Hmain & Hobl & Hsame).
  { eexists. split; [|split].
    - intros a. unfold main.
      do 4 (erewrite bind_Ok_run by reflexivity).
      match goal with
      | |- ?c _ = ?r a _ =>
          let f := eval pattern a in c in
          match f with ?F a => unify r F end
      end.
      reflexivity.
    - intros a. simpl. oblivious_go.
    - reflexivity. }
  rewrite !Hmain, Hsame.
  destruct (Hobl args w) as (evs & Htr & Hrun). rewrite !Hrun. simpl.
  split_and!; try done.
  exists [Makedirs (path_join (PLR_ROOT_DIR env) "results"); WandbLogin],
    (evs ++ [WandbLogCode "source_files" (PLR_ROOT_DIR env)]),
    (path_join (PLR_ROOT_DIR env) "results"), "plr-project", (PLR_ROOT_DIR env).
  split.
  - apply emitted_app. simpl. rewrite <- !app_assoc. reflexivity.
  - apply emitted_app. simpl. rewrite <- !app_assoc. reflexivity.
Qed.

(** C9, as the code has it: whether or not [--save-model] is given, no
    run of the script saves a model ([torch.save] is not among the calls
    it makes), and the value of the flag reaches the outside only through
    the configuration handed to [wandb.init]: two runs that differ in that
    flag alone end the same way, in worlds with the same heap, generator
    and autograd switch, and their traces are equal event by event except
    for that configuration.  [train] and [objective] do not depend on the
    flag at all. *)
Theorem save_model_flag_reaches_only_wandb_config env args (flag : bool) w :
  (∀ path state,
      TorchSave path state ∉ emitted w (main env (with_save_model flag args) w).2) ∧
  (main env (with_save_model flag args) w).1 = (main env args w).1 ∧
  heap (main env (with_save_model flag args) w).2 = heap (main env args w).2 ∧
  rng (main env (with_save_model flag args) w).2 = rng (main env args w).2 ∧
  grad_enabled (main env (with_save_model flag args) w).2
    = grad_enabled (main env args w).2 ∧
  (∃ before after dir project code_dir,
      emitted w (main env args w).2
        = after ++ WandbInit dir project args code_dir :: before ∧
      emitted w (main env (with_save_model flag args) w).2
        = after ++ WandbInit dir project (with_save_model flag args) code_dir :: before) ∧
  (∀ model device train_loader optimizer epoch,
      train (with_save_model flag args) model device train_loader optimizer epoch
      = train args model device train_loader optimizer epoch) ∧
  (∀ device train_loader test_loader trial,
      objective (with_save_model flag args) device train_loader test_loader trial
      = objective args device train_loader test_loader trial).
Proof.
  split.
  { intros path state.
    destruct (emits_emitted _ _ _ (main_never_saves env (with_save_model flag args) w))
      as [_ Hall].
    intros Hin. rewrite Forall_forall in Hall. apply Hall in Hin. discriminate. }
  assert (∃ rest : Args → M unit,
            (∀ a, main env a w =
                  rest a (set_trace
                            ([WandbLogCode "source_files" (PLR_ROOT_DIR env);
                              WandbInit (path_join (PLR_ROOT_DIR env) "results")
                                "plr-project" a (PLR_ROOT_DIR env);
                              Makedirs (path_join (PLR_ROOT_DIR env) "results");
                              WandbLogin] ++ trace w) w)) ∧
            (∀ a, oblivious (rest a)) ∧
            rest (with_save_model flag args) = rest args) as (rest & Hmain & Hobl & Hsame).
  { eexists. split; [|split].
    - intros a. unfold main.
      do 4 (erewrite bind_Ok_run by reflexivity).
      match goal with
      | |- ?c _ = ?r a _ =>
          let f := eval pattern a in c in
          match f with ?F a => unify r F end
      end.
      reflexivity.
    - intros a. simpl. oblivious_go.
    - reflexivity. }
  rewrite !Hmain, Hsame.
  destruct (Hobl args w) as (evs & Htr & Hrun). rewrite !Hrun. simpl.
  split_and!; try done.
  exists [Makedirs (path_join (PLR_ROOT_DIR env) "results"); WandbLogin],
    (evs ++ [WandbLogCode "source_files" (PLR_ROOT_DIR env)]),
    (path_join (PLR_ROOT_DIR env) "results"), "plr-project", (PLR_ROOT_DIR env).
  split.
  - apply emitted_app. simpl. rewrite <- !app_assoc. reflexivity.
  - apply emitted_app. simpl. rewrite <- !app_assoc. reflexivity.
Qed.

(** * Further properties of the script *)

(** ** test: edge cases and what it reports *)

Lemma batches_of_empty (d : DataLoader) order :
  dl_dataset d = [] → batches_of d order = [].
Proof.
  intros Hd. unfold batches_of. rewrite Hd.
  assert (omap (λ i, ([] : list (Image * nat)) !! i) order = []) as ->.
  { induction order as [|i order IH]; [done|]. csimpl. exact IH. }
  done.
Qed.

(** X1: on a loader whose dataset is empty, [test] iterates over nothing
    and the division of line 75 raises ZeroDivisionError; nothing is
    printed or logged. *)
Theorem test_empty_dataset_raises model device test_loader epoch w m d :
  heap w !! model = Some (OModule m) →
  heap w !! test_loader = Some (ODataLoader d) →
  dl_dataset d = [] →
  ∃ w', test model device test_loader epoch w = (Raise ZeroDivisionError, w') ∧
        emitted w w' = [Iter test_loader].
Proof.
  intros Hm Hd Hnil.
  assert (model ≠ test_loader) as Hne by (intros ->; rewrite Hm in Hd; discriminate).
  unfold test.
  rewrite (bind_Ok_run _ _ _ _ _ (set_mode_run model false w m Hm)).
  set (w1 := set_heap _ w).
  assert (with_no_grad
            (bind (iter_loader test_loader) (λ batches, test_loop model device batches)) w1
          = (Ok (0%Q, 0),
             set_grad_enabled (grad_enabled w)
               (set_rng (sample_order (dl_shuffle d) (rng w) (length (dl_dataset d))).2
                  (set_trace (Iter test_loader :: trace w)
                     (set_grad_enabled false w1)))))
    as Hloop.
  { unfold with_no_grad.
    erewrite bind_Ok_run; last first.
    { apply (iter_loader_run _ _ d). subst w1. simpl. by rewrite lookup_insert_ne. }
    rewrite batches_of_empty by done. simpl. reflexivity. }
  rewrite (bind_Ok_run _ _ _ _ _ Hloop).
  unfold len_dataset. unfold bind at 1. unfold bind at 1.
  rewrite (get_loader_run _ _ d) by (subst w1; simpl; by rewrite lookup_insert_ne).
  unfold ret, py_truediv, bind. rewrite Hnil. simpl.
  eexists. split; [reflexivity|]. by apply emitted_app.
Qed.


(** ** train: the log interval *)

(** X3: with [--log-interval 0] and a train loader that has data, [train]
    trains the first batch, steps the optimizer once and then raises
    ZeroDivisionError at [batch_idx % args.log_interval], whether or not
    [--dry-run] is given; nothing is printed or logged. *)
Theorem train_log_interval_zero_raises (Hshape : forward_shaped)
    (Hperm : order_permutes)
    args model device train_loader optimizer epoch w m o d :
  log_interval args = 0 →
  heap w !! model = Some (OModule m) →
  heap w !! optimizer = Some (OAdam o) → opt_model o = model →
  heap w !! train_loader = Some (ODataLoader d) →
  grad_enabled w = true →
  dl_dataset d ≠ [] → 0 < dl_batch_size d →
  Forall (λ s : Image * nat, (s.2 < num_classes)%nat) (dl_dataset d) →
  ∃ w',
    train args model device train_loader optimizer epoch w
      = (Raise ZeroDivisionError, w') ∧
    emitted w w' =
      [OptStep optimizer (opt_lr o); Backward model; Forward model true true;
       ZeroGrad optimizer; Iter train_loader].
Proof.
  intros Hli Hm Ho Hom Hd Hg Hne Hbs Hlabels.
  assert (model ≠ optimizer) as Hmo by (intros ->; rewrite Hm in Ho; discriminate).
  assert (model ≠ train_loader) as Hml by (intros ->; rewrite Hm in Hd; discriminate).
  assert (optimizer ≠ train_loader) as Hol by (intros ->; rewrite Ho in Hd; discriminate).
  destruct (batches_of_first Hperm d (rng w) Hne Hbs Hlabels)
    as (data & target & rest & Hb & Hlen & Htarget & Hpos).
  unfold train.
  rewrite (bind_Ok_run _ _ _ _ _ (set_mode_run model true w m Hm)).
  erewrite bind_Ok_run; last first.
  { apply (iter_loader_run _ _ d). simpl. by rewrite lookup_insert_ne. }
  simpl rng. rewrite Hb, enumerate_cons, for_loop_cons.
  match goal with |- context [bind _ _ ?w0] => set (w1 := w0) end.
  assert (∃ w', train_batch args model device train_loader optimizer epoch
                  (0, (data, target)) tt w1 = (Raise ZeroDivisionError, w') ∧
                trace w' = [OptStep optimizer (opt_lr o); Backward model;
                            Forward model true true; ZeroGrad optimizer] ++ trace w1)
    as (w' & Hrun & Htr).
  { destruct (Hshape true (m_params m) (rng w1) data) as [Hrows Hcols].
    destruct (nll_terms_ok (forward true (m_params m) (rng w1) data).1 target)
      as [terms Hterms]; [congruence|done..|].
    unfold train_batch, to, zero_grad, call_model, nll_loss, loss_backward,
      optimizer_step, py_mod, get_adam, get_module, bind, load, store, emit, get_rng,
      put_rng, is_grad_enabled, ret, raise.
    subst w1. simpl. heap_lookup. rewrite Ho. simpl. rewrite Hom. heap_lookup. simpl.
    heap_lookup. simpl.
    destruct (forward true (m_params m) _ data) as [rows g'] eqn:Hf.
    simpl in Hrows, Hcols, Hterms |- *. rewrite Hg. simpl.
    rewrite Hrows, Hlen, Nat.eqb_refl. simpl. rewrite Hterms. simpl.
    heap_lookup. simpl. heap_lookup. rewrite Ho. simpl.
    rewrite Hom. heap_lookup. simpl.
    destruct (adam_step (opt_lr o) (opt_state o) (m_params m) _) as [p' s'].
    simpl. rewrite Hli. simpl. eauto. }
  rewrite (bind_Raise_run _ _ _ _ _ Hrun).
  exists w'. split; [done|]. apply emitted_app. rewrite Htr. subst w1. simpl. reflexivity.
Qed.

(** ** Relations on the heap alone *)

Section OnHeap.

Context (Rh : relation (gmap loc Obj)) `{!PreOrder Rh}.

Lemma on_heap_preorder : PreOrder (on_heap Rh).
Proof.
  split.
  - intros w. unfold on_heap. reflexivity.
  - intros w1 w2 w3. unfold on_heap. apply transitivity.
Qed.

#[local] Existing Instance on_heap_preorder.

Lemma on_heap_read {A} (c : M A) :
  (∀ w, heap (c w).2 = heap w) → stable (on_heap Rh) c.
Proof. intros Hc w. unfold on_heap. rewrite Hc. reflexivity. Qed.

Lemma on_heap_emit e : stable (on_heap Rh) (emit e).
Proof. by apply on_heap_read. Qed.

Lemma on_heap_get_rng : stable (on_heap Rh) get_rng.
Proof. by apply on_heap_read. Qed.

Lemma on_heap_put_rng g : stable (on_heap Rh) (put_rng g).
Proof. by apply on_heap_read. Qed.

Lemma on_heap_is_grad_enabled : stable (on_heap Rh) is_grad_enabled.
Proof. by apply on_heap_read. Qed.

Lemma on_heap_with_no_grad {A} (c : M A) :
  stable (on_heap Rh) c → stable (on_heap Rh) (with_no_grad c).
Proof.
  intros Hc w. unfold with_no_grad. specialize (Hc (set_grad_enabled false w)).
  by destruct (c (set_grad_enabled false w)).
Qed.

End OnHeap.

#[local] Existing Instance on_heap_preorder.

#[local] Instance only_at_preorder L : PreOrder (only_at L).
Proof.
  split.
  - by intros h l Hl.
  - intros h1 h2 h3 H12 H23 l Hl. by rewrite H23, H12.
Qed.

#[local] Instance keeps_weights_preorder model : PreOrder (keeps_weights model).
Proof.
  split.
  - intros h m Hm. eauto.
  - intros h1 h2 h3 H12 H23 m Hm.
    destruct (H12 m Hm) as (m2 & Hm2 & Hp2 & Hg2).
    destruct (H23 m2 Hm2) as (m3 & Hm3 & Hp3 & Hg3).
    exists m3. split_and!; congruence.
Qed.

Lemma only_at_set_mode model training :
  stable (on_heap (only_at {[model]})) (set_mode model training).
Proof.
  intros w. unfold set_mode, get_module, bind, load, store, ret, raise.
  destruct (heap w !! model) as [[]|] eqn:Hl; simpl; try done.
  intros l Hl'. simpl. rewrite lookup_insert_ne; [done|]. set_solver.
Qed.

Lemma keeps_weights_set_mode model l training :
  stable (on_heap (keeps_weights model)) (set_mode l training).
Proof.
  intros w. unfold set_mode, get_module, bind, load, store, ret, raise.
  destruct (heap w !! l) as [[|m0| | | |]|] eqn:Hl; simpl;
    try (intros m Hm; by eauto).
  intros m Hm. simpl. destruct (decide (l = model)) as [->|Hne].
  - rewrite lookup_insert_eq. rewrite Hl in Hm. injection Hm as <-. eauto.
  - rewrite lookup_insert_ne by done. eauto.
Qed.

#[local] Hint Resolve on_heap_emit on_heap_get_rng on_heap_put_rng
  on_heap_is_grad_enabled only_at_set_mode keeps_weights_set_mode : stable.

Ltac stable_more :=
  repeat first [ stable_step | apply on_heap_with_no_grad ].

(** X4: whatever its arguments and however it ends, [test] changes
    nothing in the heap but the model it is given, and of the model only
    the mode: the weights and their gradients stay as they are. *)
Theorem test_touches_only_the_mode model device test_loader epoch w :
  (∀ l, l ≠ model →
        heap (test model device test_loader epoch w).2 !! l = heap w !! l) ∧
  (∀ m, heap w !! model = Some (OModule m) →
        ∃ m', heap (test model device test_loader epoch w).2 !! model
                = Some (OModule m') ∧
              m_params m' = m_params m ∧ m_grad m' = m_grad m).
Proof.
  split.
  - assert (stable (on_heap (only_at {[model]}))
              (test model device test_loader epoch)) as Hst by stable_more.
    intros l Hl. apply (Hst w). set_solver.
  - assert (stable (on_heap (keeps_weights model))
              (test model device test_loader epoch)) as Hst by stable_more.
    exact (Hst w).
Qed.

(** ** The mode of the model *)

Lemma guarded_preorder (I : World → Prop) (R : World → World → Prop) :
  PreOrder R → PreOrder (guarded I R).
Proof.
  intros HR. split.
  - intros w Hw. split; [done|reflexivity].
  - intros w1 w2 w3 H12 H23 Hw.
    destruct (H12 Hw) as [Hw2 R12]. destruct (H23 Hw2) as [Hw3 R23].
    split; [done|]. by etrans.
Qed.

#[local] Existing Instance guarded_preorder.

Section Mode.

Context (model : loc) (training : bool).

#[local] Abbreviation in_mode_rel :=
  (guarded (in_mode model training) (emits (forward_in_mode model training))).

(** A step that leaves the heap alone and emits at most one event, not a
    forward pass. *)
Lemma mode_quiet {A} (c : M A) :
  (∀ w, heap (c w).2 = heap w) →
  (∀ w, emits (forward_in_mode model training) w (c w).2) →
  stable in_mode_rel c.
Proof.
  intros Hh Ht w (m & Hm & Htr). split; [|apply Ht].
  exists m. by rewrite Hh.
Qed.

Lemma mode_emit e :
  forward_in_mode model training e → stable in_mode_rel (emit e).
Proof.
  intros He. apply mode_quiet; [done|]. intros w. exists [e]. split; [done|].
  by repeat constructor.
Qed.

Lemma mode_get_rng : stable in_mode_rel get_rng.
Proof. apply mode_quiet; [done|]. intros w. by exists []. Qed.

Lemma mode_put_rng g : stable in_mode_rel (put_rng g).
Proof. apply mode_quiet; [done|]. intros w. by exists []. Qed.

Lemma mode_is_grad_enabled : stable in_mode_rel is_grad_enabled.
Proof. apply mode_quiet; [done|]. intros w. by exists []. Qed.

Lemma mode_with_no_grad {A} (c : M A) :
  stable in_mode_rel c → stable in_mode_rel (with_no_grad c).
Proof.
  intros Hc w Hw. unfold with_no_grad.
  specialize (Hc (set_grad_enabled false w) Hw).
  by destruct (c (set_grad_enabled false w)).
Qed.

Lemma mode_set_mode : stable in_mode_rel (set_mode model training).
Proof.
  intros w (m & Hm & Htr). unfold set_mode, bind.
  rewrite (get_module_run _ _ _ Hm). unfold store. simpl. split.
  - eexists. simpl. by rewrite lookup_insert_eq.
  - by exists [].
Qed.

Lemma mode_call_model data : stable in_mode_rel (call_model model data).
Proof.
  intros w (m & Hm & Htr). unfold call_model, bind.
  rewrite (get_module_run _ _ _ Hm). unfold get_rng, put_rng, is_grad_enabled, emit, ret.
  destruct (forward (m_training m) (m_params m) (rng w) data) as [rows g']. simpl.
  split; [by exists m|]. eexists [_]. split; [done|]. by repeat constructor.
Qed.

(** Writing a module back with its mode unchanged. *)
Lemma mode_zero_grad optimizer : stable in_mode_rel (zero_grad optimizer).
Proof.
  intros w (m & Hm & Htr).
  unfold zero_grad, get_adam, get_module, bind, load, store, emit, ret, raise.
  destruct (heap w !! optimizer) as [[| |o| | |]|] eqn:Hl; simpl;
    try (split; [by exists m|by exists []]).
  destruct (heap w !! opt_model o) as [[|m0| | | |]|] eqn:Hm0; simpl;
    try (split; [by exists m|by exists []]).
  split; [|eexists [_]; split; [done|by repeat constructor]].
  destruct (decide (opt_model o = model)) as [Heq|Hne].
  - rewrite Heq, Hm in Hm0. injection Hm0 as <-.
    eexists. simpl. rewrite Heq, lookup_insert_eq. done.
  - exists m. simpl. by rewrite lookup_insert_ne.
Qed.

Lemma mode_loss_backward loss : stable in_mode_rel (loss_backward loss).
Proof.
  intros w (m & Hm & Htr). unfold loss_backward.
  destruct (loss_graph loss) as [[g target]|]; [|split; [by exists m|by exists []]].
  unfold get_module, bind, load, store, emit, ret, raise.
  destruct (heap w !! g_model g) as [[|m0| | | |]|] eqn:Hm0; simpl;
    try (split; [by exists m|by exists []]).
  split; [|eexists [_]; split; [done|by repeat constructor]].
  destruct (decide (g_model g = model)) as [Heq|Hne].
  - rewrite Heq, Hm in Hm0. injection Hm0 as <-.
    eexists. simpl. rewrite Heq, lookup_insert_eq. done.
  - exists m. simpl. by rewrite lookup_insert_ne.
Qed.

Lemma mode_optimizer_step optimizer : stable in_mode_rel (optimizer_step optimizer).
Proof.
  intros w (m & Hm & Htr).
  unfold optimizer_step, get_adam, get_module, bind, load, store, emit, ret, raise.
  destruct (heap w !! optimizer) as [[| |o| | |]|] eqn:Hl; simpl;
    try (split; [by exists m|by exists []]).
  destruct (heap w !! opt_model o) as [[|m0| | | |]|] eqn:Hm0; simpl;
    try (split; [by exists m|by exists []]).
  assert (optimizer ≠ model) as Hom by (intros ->; rewrite Hm in Hl; discriminate).
  destruct (m_grad m0) as [gr|]; simpl.
  - destruct (adam_step (opt_lr o) (opt_state o) (m_params m0) gr) as [p' s']. simpl.
    split; [|eexists [_]; split; [done|by repeat constructor]].
    destruct (decide (opt_model o = model)) as [Heq|Hne].
    + rewrite Heq, Hm in Hm0. injection Hm0 as <-.
      eexists. simpl. rewrite lookup_insert_ne, Heq, lookup_insert_eq by done. done.
    + exists m. simpl. by rewrite !lookup_insert_ne.
  - split; [by exists m|]. eexists [_]. split; [done|by repeat constructor].
Qed.

End Mode.

#[local] Hint Resolve mode_get_rng mode_put_rng mode_is_grad_enabled mode_set_mode
  mode_call_model mode_zero_grad mode_loss_backward mode_optimizer_step : stable.

Ltac stable_mode :=
  repeat first
    [ progress intros
    | solve [ eauto 3 with stable ]
    | apply stable_bind
    | apply stable_for_loop
    | apply mode_with_no_grad
    | apply mode_emit; exact I
    | match goal with
      | |- stable _ (match ?x with _ => _ end) => destruct x
      end
    | progress unfold train_batch, test_loop, test_batch, iter_loader, len_dataset,
        len_loader, nll_loss, get_loader, to ].

(** The forward passes of a computation that starts by setting the mode. *)
Lemma forwards_after_set_mode {A} model training (rest : M A) w :
  stable (guarded (in_mode model training) (emits (forward_in_mode model training)))
    rest →
  Forall (forward_in_mode model training)
    (emitted w (bind (set_mode model training) (λ _, rest) w).2) ∧
  (∀ m, heap w !! model = Some (OModule m) →
        in_mode model training (bind (set_mode model training) (λ _, rest) w).2).
Proof.
  intros Hrest. unfold bind.
  destruct (set_mode model training w) as [[u|e] w1] eqn:Hset.
  - apply set_mode_inv in Hset as (m & Hm & Hh1 & _ & _ & Ht1).
    assert (in_mode model training w1) as Hin.
    { eexists. rewrite Hh1, lookup_insert_eq. done. }
    destruct (Hrest w1 Hin) as [Hin' Hem].
    apply emits_emitted in Hem as [Ht Hall].
    split; [|done].
    erewrite emitted_app; [exact Hall|]. by rewrite Ht, Ht1.
  - assert (w1 = w) as ->.
    { revert Hset. unfold set_mode, get_module, bind, load, store, ret, raise.
      destruct (heap w !! model) as [[]|]; simpl; congruence. }
    split.
    + erewrite (emitted_app _ _ []); done.
    + intros m Hm. revert Hset. unfold set_mode, bind.
      rewrite (get_module_run _ _ _ Hm). discriminate.
Qed.

(** X5: however [test] ends, every forward pass it makes is one of the
    model it was given, in evaluation mode; if the model is there, it is
    in evaluation mode afterwards. *)
Theorem test_evaluates_in_eval_mode model device test_loader epoch w :
  (∀ l mode tracked,
      Forward l mode tracked ∈ emitted w (test model device test_loader epoch w).2 →
      l = model ∧ mode = false) ∧
  (∀ m, heap w !! model = Some (OModule m) →
        ∃ m', heap (test model device test_loader epoch w).2 !! model
                = Some (OModule m') ∧ m_training m' = false).
Proof.
  unfold test.
  match goal with
  | |- context [bind (set_mode model false) ?k] =>
      destruct (forwards_after_set_mode model false (k tt) w) as [Hall Hmode];
        [stable_mode|]
  end.
  split.
  - intros l mode tracked Hin. rewrite Forall_forall in Hall.
    exact (Hall _ Hin).
  - exact Hmode.
Qed.

(** X6: however [train] ends, every forward pass it makes is one of the
    model it was given, in training mode; if the model is there, it is in
    training mode afterwards. *)
Theorem train_trains_in_training_mode
    args model device train_loader optimizer epoch w :
  (∀ l mode tracked,
      Forward l mode tracked
        ∈ emitted w (train args model device train_loader optimizer epoch w).2 →
      l = model ∧ mode = true) ∧
  (∀ m, heap w !! model = Some (OModule m) →
        ∃ m', heap (train args model device train_loader optimizer epoch w).2 !! model
                = Some (OModule m') ∧ m_training m' = true).
Proof.
  unfold train.
  match goal with
  | |- context [bind (set_mode model true) ?k] =>
      destruct (forwards_after_set_mode model true (k tt) w) as [Hall Hmode];
        [stable_mode|]
  end.
  split.
  - intros l mode tracked Hin. rewrite Forall_forall in Hall.
    exact (Hall _ Hin).
  - exact Hmode.
Qed.

(** ** The learning rate schedule *)

#[local] Instance keeps_lr_preorder optimizer scheduler :
  PreOrder (keeps_lr optimizer scheduler).
Proof.
  split.
  - intros h o s Ho Hs. eauto.
  - intros h1 h2 h3 H12 H23 o s Ho Hs.
    destruct (H12 o s Ho Hs) as (o2 & Ho2 & Hlr2 & Hs2).
    destruct (H23 o2 s Ho2 Hs2) as (o3 & Ho3 & Hlr3 & Hs3).
    exists o3. split_and!; congruence.
Qed.

Section KeepsLr.

#[local] Ltac lr_same := try (intros ? ? ? ?; simpl; eexists; split_and!; by eauto).

Context (optimizer scheduler : loc).

(** Overwriting a module changes neither the optimizer nor the scheduler. *)
Lemma keeps_lr_insert_module (h : gmap loc Obj) l m0 m1 :
  h !! l = Some (OModule m0) →
  keeps_lr optimizer scheduler h (<[l := OModule m1]> h).
Proof.
  intros Hl o s Ho Hs.
  assert (l ≠ optimizer) by (intros ->; rewrite Hl in Ho; discriminate).
  assert (l ≠ scheduler) by (intros ->; rewrite Hl in Hs; discriminate).
  exists o. by rewrite !lookup_insert_ne.
Qed.

Lemma keeps_lr_set_mode l training :
  stable (on_heap (keeps_lr optimizer scheduler)) (set_mode l training).
Proof.
  intros w. unfold set_mode, get_module, bind, load, store, ret, raise.
  destruct (heap w !! l) as [[]|] eqn:Hl; simpl; lr_same.
  by eapply keeps_lr_insert_module.
Qed.

Lemma keeps_lr_zero_grad l :
  stable (on_heap (keeps_lr optimizer scheduler)) (zero_grad l).
Proof.
  intros w. unfold zero_grad, get_adam, get_module, bind, load, store, emit, ret, raise.
  destruct (heap w !! l) as [[| |o| | |]|] eqn:Hl; simpl; lr_same.
  destruct (heap w !! opt_model o) as [[]|] eqn:Hm; simpl; lr_same.
  by eapply keeps_lr_insert_module.
Qed.

Lemma keeps_lr_loss_backward loss :
  stable (on_heap (keeps_lr optimizer scheduler)) (loss_backward loss).
Proof.
  intros w. unfold loss_backward.
  destruct (loss_graph loss) as [[g target]|]; [|by lr_same].
  unfold get_module, bind, load, store, emit, ret, raise.
  destruct (heap w !! g_model g) as [[]|] eqn:Hm; simpl; lr_same.
  by eapply keeps_lr_insert_module.
Qed.

Lemma keeps_lr_optimizer_step l :
  stable (on_heap (keeps_lr optimizer scheduler)) (optimizer_step l).
Proof.
  intros w.
  unfold optimizer_step, get_adam, get_module, bind, load, store, emit, ret, raise.
  destruct (heap w !! l) as [[| |o| | |]|] eqn:Hl; simpl; lr_same.
  destruct (heap w !! opt_model o) as [[|m| | | |]|] eqn:Hm; simpl; lr_same.
  destruct (m_grad m) as [gr|]; simpl; [|by lr_same].
  destruct (adam_step (opt_lr o) (opt_state o) (m_params m) gr) as [p' s']. simpl.
  intros o0 s0 Ho0 Hs0. simpl.
  assert (opt_model o ≠ optimizer) by (intros Heq; rewrite Heq, Ho0 in Hm; discriminate).
  assert (opt_model o ≠ scheduler) by (intros Heq; rewrite Heq, Hs0 in Hm; discriminate).
  assert (l ≠ scheduler) by (intros ->; rewrite Hs0 in Hl; discriminate).
  destruct (decide (l = optimizer)) as [->|Hne].
  - rewrite Ho0 in Hl. injection Hl as <-.
    eexists. rewrite lookup_insert_eq. split_and!; [done|done|].
    by rewrite !lookup_insert_ne.
  - exists o0. by rewrite !lookup_insert_ne.
Qed.

End KeepsLr.

#[local] Hint Resolve keeps_lr_set_mode keeps_lr_zero_grad keeps_lr_loss_backward
  keeps_lr_optimizer_step : stable.

Lemma train_keeps_lr args model device train_loader optimizer optimizer' scheduler epoch :
  stable (on_heap (keeps_lr optimizer' scheduler))
    (train args model device train_loader optimizer epoch).
Proof. stable_more. Qed.

Lemma test_keeps_lr model device test_loader optimizer scheduler epoch :
  stable (on_heap (keeps_lr optimizer scheduler))
    (test model device test_loader epoch).
Proof. stable_more. Qed.

Lemma scheduler_step_inv scheduler w u w' :
  scheduler_step scheduler w = (Ok u, w') →
  ∃ s o,
    let e := sl_last_epoch s + 1 in
    heap w !! scheduler = Some (OStepLR s) ∧
    heap w !! sl_optimizer s = Some (OAdam o) ∧
    sl_step_size s ≠ 0 ∧
    heap w' =
      <[sl_optimizer s :=
          OAdam {| opt_model := opt_model o;
                   opt_lr := if (e =? 0) || negb (e mod sl_step_size s =? 0)
                             then opt_lr o else (opt_lr o * sl_gamma s)%Q;
                   opt_state := opt_state o |}]>
        (<[scheduler :=
             OStepLR {| sl_optimizer := sl_optimizer s; sl_step_size := sl_step_size s;
                        sl_gamma := sl_gamma s; sl_last_epoch := e |}]> (heap w)) ∧
    trace w' = SchedStep scheduler :: trace w.
Proof.
  unfold scheduler_step.
  intros (s & w1 & [Hs ->]%get_steplr_inv & Hk)%bind_Ok_inv.
  apply bind_Ok_inv in Hk as (o & w1 & [Ho ->]%get_adam_inv & Hk).
  apply bind_Ok_inv in Hk as (r & w1 & (Hss & -> & ->)%py_mod_inv & Hk).
  unfold bind, store, emit, ret in Hk. simpl in Hk. injection Hk as _ <-.
  exists s, o. simpl. by split_and!.
Qed.

Lemma Qpower_succ_nat (q : Q) (n : nat) :
  (q ^ Z.of_nat (S n) == q ^ Z.of_nat n * q)%Q.
Proof.
  rewrite Nat2Z.inj_succ. unfold Z.succ.
  rewrite Qpower_plus' by lia. by rewrite Qpower_1_r.
Qed.

(** [n] rounds multiply the learning rate by [gamma] to the [n]. *)
Lemma epochs_run_decay args device train_loader test_loader model optimizer scheduler
    e n w w' vs :
  epochs_run args device train_loader test_loader model optimizer scheduler e n w w' vs →
  ∀ o s,
    heap w !! optimizer = Some (OAdam o) →
    heap w !! scheduler = Some (OStepLR s) →
    sl_optimizer s = optimizer → sl_step_size s = 1 → 0 ≤ sl_last_epoch s →
    ∃ o' s',
      heap w' !! optimizer = Some (OAdam o') ∧
      (opt_lr o' == opt_lr o * sl_gamma s ^ Z.of_nat n)%Q ∧
      heap w' !! scheduler = Some (OStepLR s') ∧
      sl_optimizer s' = optimizer ∧ sl_gamma s' = sl_gamma s ∧
      sl_last_epoch s' = sl_last_epoch s + Z.of_nat n.
Proof.
  induction 1 as [e w|e n w w1 w2 w3 w' v vs Htrain Htest Hstep Hrest IH];
    intros o s Ho Hs Hso Hss Hle.
  - exists o, s. split_and!; try done; [|lia]. simpl. lra.
  - pose proof (train_keeps_lr args model device train_loader optimizer optimizer
                  scheduler e w o s Ho Hs) as (o1 & Ho1 & Hlr1 & Hs1).
    rewrite Htrain in Ho1, Hs1. simpl in Ho1, Hs1.
    pose proof (test_keeps_lr model device test_loader optimizer scheduler e w1
                  o1 s Ho1 Hs1) as (o2 & Ho2 & Hlr2 & Hs2).
    rewrite Htest in Ho2, Hs2. simpl in Ho2, Hs2.
    apply scheduler_step_inv in Hstep as (s2 & o2' & Hstep). simpl in Hstep.
    destruct Hstep as (Hs2' & Ho2' & _ & Hh3 & _).
    rewrite Hs2 in Hs2'. injection Hs2' as <-.
    rewrite Hso, Ho2 in Ho2'. injection Ho2' as <-.
    rewrite Hso, Hss in Hh3.
    assert (optimizer ≠ scheduler) as Hne
      by (intros Heq; rewrite Heq, Hs in Ho; discriminate).
    replace (sl_last_epoch s + 1 =? 0) with false in Hh3 by (symmetry; lia).
    rewrite Z.mod_1_r in Hh3. simpl in Hh3.
    edestruct IH as (o' & s' & Ho' & Hlr' & Hs' & Hso' & Hg' & Hle').
    { by rewrite Hh3, lookup_insert_eq. }
    { by rewrite Hh3, lookup_insert_ne, lookup_insert_eq. }
    { done. } { done. } { simpl. lia. }
    simpl in Hlr', Hg', Hle'. exists o', s'. split_and!; try done; [|lia].
    rewrite Qpower_succ_nat, Hlr', Hlr2, Hlr1. ring.
Qed.

Lemma epochs_run_frame args device train_loader test_loader model optimizer scheduler
    e n w w' vs :
  epochs_run args device train_loader test_loader model optimizer scheduler e n w w' vs →
  frame torch_frozen w w'.
Proof.
  induction 1 as [e w|e n w w1 w2 w3 w' v vs Htrain Htest Hstep Hrest IH];
    [reflexivity|].
  pose proof (frame_train args model device train_loader optimizer e w) as H1.
  pose proof (frame_test model device test_loader e w1) as H2.
  pose proof (frame_scheduler_step torch_frozen scheduler eq_refl eq_refl w2) as H3.
  rewrite Htrain in H1. rewrite Htest in H2. rewrite Hstep in H3. simpl in *.
  etrans; [exact H1|]. etrans; [exact H2|]. etrans; [exact H3|exact IH].
Qed.

(** X7: when a trial returns, the learning rate of its optimizer is the
    suggested learning rate times the suggested gamma to the power
    [args.epochs], and its scheduler has counted [args.epochs] epochs:
    StepLR with step size 1 decays once per epoch, and nothing else in
    the loop touches the rate. *)
Theorem objective_decays_learning_rate
    args device train_loader test_loader trial w v w' :
  objective args device train_loader test_loader trial w = (Ok v, w') →
  ∃ lr gamma optimizer scheduler t o s,
    heap w' !! trial = Some (OTrial t) ∧
    params_lookup "lr" (tr_params t) = Some lr ∧
    params_lookup "gamma" (tr_params t) = Some gamma ∧
    (optimizer ∉ dom (heap w)) ∧ (scheduler ∉ dom (heap w)) ∧
    heap w' !! optimizer = Some (OAdam o) ∧
    (opt_lr o == lr * gamma ^ epochs args)%Q ∧
    heap w' !! scheduler = Some (OStepLR s) ∧
    sl_optimizer s = optimizer ∧ sl_gamma s = gamma ∧
    sl_last_epoch s = epochs args.
Proof.
  intros (lr & gamma & model & optimizer & scheduler & t & w0 & vs & Hinv)%objective_inv.
  destruct Hinv as (Ht & Hlr & Hgamma & _ & Ho & Hs & _ & _ & _ & _ & Hopt & Hsched & _
                    & Hrun & Hlen & Hlast).
  assert (Z.of_nat (Z.to_nat (epochs args)) = epochs args) as Hep.
  { destruct vs; [discriminate|]. simpl in Hlen. lia. }
  pose proof (epochs_run_frame _ _ _ _ _ _ _ _ _ _ _ _ Hrun) as Hfr.
  destruct (Hfr trial _ Ht) as (ot & Ht' & _ & Heq). rewrite Heq in Ht' by done.
  eapply epochs_run_decay in Hrun as (o' & s' & Ho' & Hlr' & Hs' & Hso' & Hg' & Hle');
    [|done|done|done|done|done].
  simpl in *. rewrite Hep in *.
  exists lr, gamma, optimizer, scheduler, t, o', s'. by split_and!.
Qed.

(** ** Counting optimizer steps and training lines *)

Lemma tally_refl w : tally 0 0 w w.
Proof. by exists []. Qed.

Lemma tally_trans a b c d w1 w2 w3 :
  tally a b w1 w2 → tally c d w2 w3 → tally (a + c) (b + d) w1 w3.
Proof.
  intros (e1 & Ht1 & <- & <-) (e2 & Ht2 & <- & <-). exists (e2 ++ e1).
  unfold count_if. rewrite Ht2, Ht1, !List.filter_app, !length_app, app_assoc.
  split_and!; [done|lia|lia].
Qed.

Lemma tally_quiet w w' :
  emits (λ e, is_opt_step e = false ∧ is_print_train e = false) w w' → tally 0 0 w w'.
Proof.
  intros (evs & Ht & HP). exists evs. split; [done|]. unfold count_if.
  clear Ht. induction HP as [|e evs [He1 He2] _ [IH1 IH2]]; [done|].
  simpl. by rewrite He1, He2.
Qed.

Lemma tally_of_run {A} (c : M A) w r w' :
  stable (emits (λ e, is_opt_step e = false ∧ is_print_train e = false)) c →
  c w = (r, w') → tally 0 0 w w'.
Proof. intros Hc Hrun. apply tally_quiet. specialize (Hc w). by rewrite Hrun in Hc. Qed.

Lemma optimizer_step_tally optimizer w u w' :
  optimizer_step optimizer w = (Ok u, w') → tally 1 0 w w'.
Proof.
  unfold optimizer_step, get_adam, get_module, bind, load, store, emit, ret, raise.
  destruct (heap w !! optimizer) as [[| |o| | |]|]; simpl; try discriminate.
  destruct (heap w !! opt_model o) as [[|m| | | |]|]; simpl; try discriminate.
  destruct (m_grad m) as [gr|]; simpl;
    [destruct (adam_step (opt_lr o) (opt_state o) (m_params m) gr) as [p' s']; simpl|];
    intros [= _ <-]; by eexists [_].
Qed.

Lemma train_batch_tally args model device train_loader optimizer epoch i b w f w' :
  dry_run args = false →
  train_batch args model device train_loader optimizer epoch (i, b) tt w
    = (Ok (f, tt), w') →
  f = Continue ∧
  tally 1 (if i mod log_interval args =? 0 then 1 else 0) w w'.
Proof.
  intros Hdry. destruct b as [data target]. unfold train_batch.
  intros (u1 & w1 & H1 & Hk)%bind_Ok_inv.
  apply bind_Ok_inv in Hk as (out & w2 & H2 & Hk).
  apply bind_Ok_inv in Hk as (loss & w3 & H3 & Hk).
  apply bind_Ok_inv in Hk as (u4 & w4 & H4 & Hk).
  apply bind_Ok_inv in Hk as (u5 & w5 & H5 & Hk).
  apply bind_Ok_inv in Hk as (r & w6 & (_ & -> & ->)%py_mod_inv & Hk).
  apply tally_of_run in H1; [|stable_go; done].
  apply tally_of_run in H2; [|stable_go; done].
  apply tally_of_run in H3; [|stable_go; done].
  apply tally_of_run in H4; [|stable_go; done].
  apply optimizer_step_tally in H5.
  pose proof (tally_trans _ _ _ _ _ _ _ H1
               (tally_trans _ _ _ _ _ _ _ H2
                 (tally_trans _ _ _ _ _ _ _ H3
                   (tally_trans _ _ _ _ _ _ _ H4 H5)))) as H15.
  simpl in H15.
  destruct (i mod log_interval args =? 0).
  - apply bind_Ok_inv in Hk as (total & w6 & (d & _ & _ & ->)%len_dataset_inv & Hk).
    apply bind_Ok_inv in Hk as (nb & w6 & H6 & Hk).
    apply tally_of_run in H6; [|stable_go; done].
    apply bind_Ok_inv in Hk as (pct & w7 & (_ & _ & ->)%py_truediv_inv & Hk).
    rewrite Hdry in Hk. unfold bind, emit, ret in Hk. simpl in Hk.
    injection Hk as <- <-. split; [done|].
    pose proof (tally_trans _ _ _ _ _ _ _ H15 H6) as H16. simpl in H16.
    apply (tally_trans 1 0 0 1 w w6); [exact H16|]. by eexists [_; _].
  - unfold ret in Hk. injection Hk as <- <-. split; [done|].
    exact H15.
Qed.

Lemma train_loop_tally args model device train_loader optimizer epoch :
  dry_run args = false →
  ∀ xs w w',
    for_loop xs tt (train_batch args model device train_loader optimizer epoch) w
      = (Ok tt, w') →
    tally (length xs) (count_if (λ ib, ib.1 mod log_interval args =? 0) xs) w w'.
Proof.
  intros Hdry xs. induction xs as [|[i b] xs IH]; intros w w' Hrun.
  - injection Hrun as <-. apply tally_refl.
  - rewrite for_loop_cons in Hrun.
    apply bind_Ok_inv in Hrun as ([f []] & w1 & Hb & Hk).
    apply train_batch_tally in Hb as [-> Hb]; [|done].
    apply IH in Hk.
    pose proof (tally_trans _ _ _ _ _ _ _ Hb Hk) as Hall.
    unfold count_if in *. simpl.
    destruct (i mod log_interval args =? 0); exact Hall.
Qed.

(** X8: outside a dry run, a call of [train] that returns has taken one
    optimizer step for every batch the loader yielded, and has printed a
    training line for exactly the batches whose index is a multiple of
    [args.log_interval]. *)
Theorem train_steps_once_per_batch
    args model device train_loader optimizer epoch w w' :
  dry_run args = false →
  train args model device train_loader optimizer epoch w = (Ok tt, w') →
  ∃ d,
    heap w !! train_loader = Some (ODataLoader d) ∧
    let batches :=
      batches_of d (sample_order (dl_shuffle d) (rng w) (length (dl_dataset d))).1 in
    count_if is_opt_step (emitted w w') = length batches ∧
    count_if is_print_train (emitted w w') =
      count_if (λ ib, ib.1 mod log_interval args =? 0) (enumerate batches).
Proof.
  intros Hdry. unfold train.
  intros (u & w1 & (m & Hm & Hh1 & Hr1 & _ & Ht1)%set_mode_inv & Hk)%bind_Ok_inv.
  apply bind_Ok_inv in Hk as (batches & w2 & (d & Hd & Hit)%iter_loader_inv & Hk).
  simpl in Hit. destruct Hit as (-> & _ & _ & _ & Ht2).
  apply (train_loop_tally _ _ _ _ _ _ Hdry) in Hk as (evs & Ht3 & Ho & Hp).
  exists d. split.
  { rewrite Hh1 in Hd. destruct (decide (train_loader = model)) as [->|Hne].
    - by rewrite lookup_insert_eq in Hd.
    - by rewrite lookup_insert_ne in Hd. }
  simpl. rewrite <- Hr1.
  rewrite (emitted_app w w' (evs ++ [Iter train_loader])).
  2:{ rewrite Ht3, Ht2, Ht1, <- app_assoc. done. }
  unfold count_if in *. rewrite !List.filter_app, !length_app. simpl.
  rewrite Ho, Hp. unfold enumerate. rewrite length_imap. split; lia.
Qed.

(** ** wandb.finish *)

Lemma finishes_last_emit : finishes_last (emit WandbFinish).
Proof. intros w. exists [WandbFinish]. simpl. eauto. Qed.

Lemma finishes_last_bind {A B} (c : M A) (k : A → M B) :
  stable (emits (λ e, is_finish e = false)) c →
  (∀ a, finishes_last (k a)) →
  finishes_last (bind c k).
Proof.
  intros Hc Hk w. unfold bind. destruct (Hc w) as (evs1 & Ht1 & HP1).
  destruct (c w) as [[a|e] w1]; simpl in *; [|eauto].
  destruct (Hk a w1) as (evs2 & Ht2 & Hcase).
  exists (evs2 ++ evs1). split; [by rewrite Ht2, Ht1, app_assoc|].
  destruct ((k a w1).1).
  - destruct Hcase as (evs' & -> & HP2). exists (evs' ++ evs1).
    split; [done|]. by apply Forall_app.
  - by apply Forall_app.
Qed.

Lemma main_finishes_last env args : finishes_last (main env args).
Proof.
  unfold main.
  repeat (apply finishes_last_bind; [stable_go; done|intros]).
  apply finishes_last_emit.
Qed.

(** X9: [wandb.finish()] is the last call of a run of the script that
    returns, and the only one of its kind; a run that raises, at whatever
    point, has not called it. *)
Theorem main_finishes_wandb_only_on_success env args w :
  match (main env args w).1 with
  | Ok _ =>
      ∃ evs, emitted w (main env args w).2 = WandbFinish :: evs ∧ WandbFinish ∉ evs
  | Raise _ => WandbFinish ∉ emitted w (main env args w).2
  end.
Proof.
  destruct (main_finishes_last env args w) as (evs & Ht & Hcase).
  rewrite (emitted_app _ _ _ Ht).
  destruct ((main env args w).1).
  - destruct Hcase as (evs' & -> & HP). exists evs'. split; [done|].
    intros Hin. rewrite Forall_forall in HP. by apply HP in Hin.
  - intros Hin. rewrite Forall_forall in Hcase. by apply Hcase in Hin.
Qed.

Lemma main_needs_one_epoch env args w w' :
  main env args w = (Ok tt, w') → 1 ≤ epochs args.
Proof.
  intros Hmain. apply main_inv in Hmain. simpl in Hmain.
  destruct Hmain as (train_loader & test_loader & study & w0 & w1 & st & v & ft & Hmain).
  destruct Hmain as (_ & _ & _ & _ & _ & _ & _ & _ & _ & _ & _ & _ & Hopt & _).
  unfold optimize in Hopt.
  change (range 5) with (0 :: (Z.of_nat <$> seq 1 4)) in Hopt.
  rewrite for_loop_cons in Hopt.
  apply bind_Ok_inv in Hopt as (r & w2 & Hbody & _).
  apply bind_Ok_inv in Hbody as (u & w3 & Htrial & _).
  unfold run_trial in Htrial.
  apply bind_Ok_inv in Htrial as (trial & w4 & _ & Hk).
  apply bind_Ok_inv in Hk as (res & w5 & Hobj & Hk).
  unfold attempt in Hobj.
  destruct (objective _ _ _ _ trial w4) as [[val|e] w6] eqn:Hrun;
    injection Hobj as <- <-.
  - apply objective_inv in Hrun
      as (lr & gamma & model & optimizer & scheduler & t' & wa & vs & Hinv).
    destruct Hinv as (_ & _ & _ & _ & _ & _ & _ & _ & _ & _ & _ & _ & _ & _ & Hlen & Hlast).
    destruct vs; [discriminate|]. simpl in Hlen. lia.
  - apply bind_Ok_inv in Hk as (u' & w7 & _ & Hraise). discriminate.
Qed.

(** X10: with [args.epochs <= 0] no run of the script returns: it ends in
    an exception, and [wandb.finish()] has not been called. *)
Theorem main_without_epochs_never_finishes env args w :
  epochs args ≤ 0 →
  ∃ e w', main env args w = (Raise e, w') ∧ WandbFinish ∉ emitted w w'.
Proof.
  intros Hep. destruct (main_finishes_last env args w) as (evs & Ht & Hcase).
  destruct (main env args w) as [[[]|e] w'] eqn:Hrun.
  - apply main_needs_one_epoch in Hrun. lia.
  - exists e, w'. split; [done|]. simpl in *. rewrite (emitted_app _ _ _ Ht).
    intros Hin. rewrite Forall_forall in Hcase. by apply Hcase in Hin.
Qed.

(** ** The command line switches *)

(** X11: in a run of [main] that completes, the loaders are as lines
    126-145 set them up: the batch sizes of the command line, both
    positive, and shuffling, one worker and pinned memory exactly when
    CUDA is in use; without CUDA neither loader shuffles. *)
Theorem loaders_follow_cuda_switch env args w w' :
  main env args w = (Ok tt, w') →
  let use_cuda := negb (no_cuda args) && cuda_is_available env in
  ∃ train_loader test_loader,
    (train_loader ∉ dom (heap w)) ∧ (test_loader ∉ dom (heap w)) ∧
    0 < batch_size args ∧ 0 < test_batch_size args ∧
    heap w' !! train_loader =
      Some (ODataLoader
              {| dl_dataset := mnist_train env; dl_batch_size := batch_size args;
                 dl_shuffle := use_cuda; dl_num_workers := if use_cuda then 1 else 0;
                 dl_pin_memory := use_cuda |}) ∧
    heap w' !! test_loader =
      Some (ODataLoader
              {| dl_dataset := mnist_test env; dl_batch_size := test_batch_size args;
                 dl_shuffle := use_cuda; dl_num_workers := if use_cuda then 1 else 0;
                 dl_pin_memory := use_cuda |}).
Proof.
  intros Hmain. pose proof (main_inv _ _ _ _ Hmain) as Hinv. simpl in Hinv.
  destruct Hinv as (train_loader & test_loader & study & w0 & w1 & st & v & ft & Hinv).
  destruct Hinv as (Hbs1 & Hbs2 & Hl1 & Hl2 & _ & Hne & Hne1 & Hne2 & Hh0 & _ & _ & _
                    & Hopt & _ & _ & Hh' & _).
  set (device := if negb (no_cuda args) && cuda_is_available env then Cuda else Cpu) in *.
  pose proof (optimize_frame args device train_loader test_loader study 5 w0) as Hfr.
  rewrite Hopt in Hfr. simpl in Hfr.
  exists train_loader, test_loader. split_and!; try done.
  - rewrite Hh'. eapply frame_loader; [done|].
    rewrite Hh0. by heap_lookup.
  - rewrite Hh'. eapply frame_loader; [done|].
    rewrite Hh0. by heap_lookup.
Qed.

(** X12: with [--no-cuda] given, a run does not depend on whether CUDA is
    available: two surroundings that differ in that alone give the same
    run. *)
Theorem no_cuda_flag_ignores_cuda_availability env env' args :
  PLR_ROOT_DIR env' = PLR_ROOT_DIR env →
  mnist_train env' = mnist_train env →
  mnist_test env' = mnist_test env →
  main env' (with_no_cuda true args) = main env (with_no_cuda true args).
Proof.
  destruct env, env'. simpl. intros -> -> ->. reflexivity.
Qed.

End Properties.

(** * The small instance meets the assumptions, and runs *)

#[local] Existing Instance Toy.torch.
#[local] Existing Instance Toy.optuna.

Lemma run_fst `{Torch} {A} (c : M A) w r : (c w).1 = r → c w = (r, (c w).2).
Proof. intros <-. by destruct (c w). Qed.

Lemma Qsquare_nonneg (a : Q) : (0 <= a * a)%Q.
Proof. destruct a as [n d]. unfold Qle, Qmult. simpl. nia. Qed.

Lemma toy_log_probs : forward_log_probs.
Proof.
  intros training p g data row x Hrow Hx. simpl in Hrow.
  apply list_elem_of_fmap in Hrow as (y & -> & _).
  apply elem_of_cons in Hx as [->|Hx].
  - rewrite Qred_correct.
    pose proof (Qsquare_nonneg (p - y)).
    change (- ((p - y) * (p - y)) <= 0)%Q. lra.
  - apply list_elem_of_singleton in Hx as ->. done.
Qed.

Lemma toy_shaped : forward_shaped.
Proof.
  intros training p g data. simpl. split; [apply length_fmap|].
  apply Forall_fmap, Forall_forall. done.
Qed.

Lemma toy_permutes : order_permutes.
Proof.
  intros shuffle g n. simpl. destruct shuffle; [|done].
  symmetry. apply Permutation_rev.
Qed.

Lemma toy_in_range : sampler_in_range.
Proof.
  intros s name low high log Hle. simpl. destruct (Nat.even s); lra.
Qed.

Lemma test_returns_average_loss_witness :
  (test Toy.model Cpu Toy.test_loader 0 Toy.world).1 = Ok (1 # 2) ∧
  ∃ m d losses,
    let so := sample_order (dl_shuffle d) (rng Toy.world) (length (dl_dataset d)) in
    heap Toy.world !! Toy.model = Some (OModule m) ∧
    heap Toy.world !! Toy.test_loader = Some (ODataLoader d) ∧
    eval_losses (m_params m) so.2 (batches_of d so.1) = Some losses ∧
    (1 # 2 == Qsum losses / inject_Z (Z.of_nat (length (dl_dataset d))))%Q ∧
    (∀ l training tracked,
        Forward l training tracked
          ∈ emitted Toy.world (test Toy.model Cpu Toy.test_loader 0 Toy.world).2 →
        tracked = false) ∧
    grad_enabled (test Toy.model Cpu Toy.test_loader 0 Toy.world).2
      = grad_enabled Toy.world ∧
    ∃ m', heap (test Toy.model Cpu Toy.test_loader 0 Toy.world).2 !! Toy.model
            = Some (OModule m') ∧
          m_params m' = m_params m ∧ m_grad m' = m_grad m.
Proof.
  assert ((test Toy.model Cpu Toy.test_loader 0 Toy.world).1 = Ok (1 # 2)) as Hrun
    by (vm_compute; reflexivity).
  split; [exact Hrun|].
  exact (test_returns_average_loss Toy.model Cpu Toy.test_loader 0 Toy.world (1 # 2)
           (test Toy.model Cpu Toy.test_loader 0 Toy.world).2 (run_fst _ _ _ Hrun)).
Defined.

Lemma test_loss_nonnegative_witness :
  (test Toy.model Cpu Toy.test_loader 0 Toy.world).1 = Ok (1 # 2) ∧
  (0 <= 1 # 2)%Q.
Proof.
  assert ((test Toy.model Cpu Toy.test_loader 0 Toy.world).1 = Ok (1 # 2)) as Hrun
    by (vm_compute; reflexivity).
  split; [exact Hrun|].
  exact (test_loss_nonnegative toy_log_probs Toy.model Cpu Toy.test_loader 0 Toy.world
           (1 # 2) (test Toy.model Cpu Toy.test_loader 0 Toy.world).2
           (run_fst _ _ _ Hrun)).
Defined.

Lemma correct_never_exceeds_dataset_witness :
  heap Toy.world !! Toy.test_loader = Some (ODataLoader Toy.test_data) ∧
  (iter_loader Toy.test_loader Toy.world).1
    = Ok Toy.test_batches ∧
  (test_loop Toy.model Cpu (take 1 Toy.test_batches) Toy.world).1
    = Ok (0%Q, 1) ∧
  0 ≤ 1 ≤ Z.of_nat (length (dl_dataset Toy.test_data)).
Proof.
  assert (heap Toy.world !! Toy.test_loader = Some (ODataLoader Toy.test_data)) as H1
    by reflexivity.
  assert ((iter_loader Toy.test_loader Toy.world).1
          = Ok Toy.test_batches) as H2
    by (vm_compute; reflexivity).
  assert ((test_loop Toy.model Cpu (take 1 Toy.test_batches) Toy.world).1 = Ok (0%Q, 1)) as H3
    by reflexivity.
  split_and!; [exact H1|exact H2|exact H3|..];
    apply (correct_never_exceeds_dataset toy_permutes Toy.model Cpu Toy.test_loader
             Toy.test_data Toy.world Toy.test_batches
             (iter_loader Toy.test_loader Toy.world).2 1%nat Toy.world 0%Q 1
             (test_loop Toy.model Cpu (take 1 Toy.test_batches)
                Toy.world).2 H1 (run_fst _ _ _ H2) (run_fst _ _ _ H3)).
Defined.

Lemma objective_returns_final_test_loss_witness :
  let run := objective (Toy.dry_args 3) Cpu Toy.train_loader Toy.test_loader Toy.trial
               Toy.world in
  run.1 = Ok (49990001 # 50000000) ∧
  ∃ lr gamma model optimizer scheduler t w0 vs,
    heap w0 !! Toy.trial = Some (OTrial t) ∧
    params_lookup "lr" (tr_params t) = Some lr ∧
    params_lookup "gamma" (tr_params t) = Some gamma ∧
    (model ∉ dom (heap Toy.world)) ∧ (optimizer ∉ dom (heap Toy.world)) ∧
    (scheduler ∉ dom (heap Toy.world)) ∧
    model ≠ optimizer ∧ model ≠ scheduler ∧ optimizer ≠ scheduler ∧
    heap w0 !! model =
      Some (OModule {| m_params := (Net_init (rng Toy.world)).1; m_grad := None;
                       m_training := true; m_device := Cpu |}) ∧
    heap w0 !! optimizer =
      Some (OAdam {| opt_model := model; opt_lr := lr; opt_state := adam_init |}) ∧
    heap w0 !! scheduler =
      Some (OStepLR {| sl_optimizer := optimizer; sl_step_size := 1;
                       sl_gamma := gamma; sl_last_epoch := 0 |}) ∧
    trace w0 = New KStepLR scheduler :: New KAdam optimizer
               :: New KModule model :: trace Toy.world ∧
    epochs_run (Toy.dry_args 3) Cpu Toy.train_loader Toy.test_loader model optimizer
      scheduler 0 (Z.to_nat (epochs (Toy.dry_args 3))) w0 run.2 vs ∧
    length vs = Z.to_nat (epochs (Toy.dry_args 3)) ∧
    last vs = Some (49990001 # 50000000).
Proof.
  intros run.
  assert (run.1 = Ok (49990001 # 50000000)) as Hrun by (vm_compute; reflexivity).
  split; [exact Hrun|].
  exact (objective_returns_final_test_loss (Toy.dry_args 3) Cpu Toy.train_loader
           Toy.test_loader Toy.trial Toy.world (49990001 # 50000000) run.2
           (run_fst _ _ _ Hrun)).
Defined.

Lemma objective_needs_one_epoch_witness :
  heap Toy.world !! Toy.trial
    = Some (OTrial {| tr_study := Toy.study; tr_number := 0; tr_params := [] |}) ∧
  heap Toy.world !! Toy.study
    = Some (OStudy {| st_direction := Minimize; st_trials := [];
                      st_sampler := 0%nat |}) ∧
  (∀ v w', objective Toy.zero_epoch_args Cpu Toy.train_loader Toy.test_loader
             Toy.trial Toy.world = (Ok v, w') →
           1 ≤ epochs Toy.zero_epoch_args) ∧
  (epochs Toy.zero_epoch_args ≤ 0 →
   ∃ model optimizer scheduler w',
     objective Toy.zero_epoch_args Cpu Toy.train_loader Toy.test_loader Toy.trial
       Toy.world = (Raise UnboundLocalError, w') ∧
     emitted Toy.world w'
       = [New KStepLR scheduler; New KAdam optimizer; New KModule model]).
Proof.
  assert (heap Toy.world !! Toy.trial
          = Some (OTrial {| tr_study := Toy.study; tr_number := 0; tr_params := [] |}))
    as H1 by reflexivity.
  assert (heap Toy.world !! Toy.study
          = Some (OStudy {| st_direction := Minimize; st_trials := [];
                            st_sampler := 0%nat |}))
    as H2 by reflexivity.
  split; [exact H1|]. split; [exact H2|].
  exact (objective_needs_one_epoch toy_in_range Toy.zero_epoch_args Cpu
           Toy.train_loader Toy.test_loader Toy.trial _ _ Toy.world H1 eq_refl H2).
Defined.



(** C8, as stated, fails: two runs that differ in [--gamma] alone hand
    different configurations to [wandb.init]. *)
Lemma gamma_flag_changes_wandb_config :
  main Toy.env (with_gamma (1 # 2) (Toy.dry_args 3)) (initial_world 0%nat)
  ≠ main Toy.env (Toy.dry_args 3) (initial_world 0%nat).
Proof.
  intros Heq.
  apply (f_equal (λ run : Result unit * World,
                    omap (λ e, match e with
                               | WandbInit _ _ config _ => Some (gamma config)
                               | _ => None
                               end) (trace run.2))) in Heq.
  vm_compute in Heq. discriminate.
Qed.

(** C9, as stated, fails: two runs that differ in [--save-model] alone
    hand different configurations to [wandb.init]: the flag is read after
    parsing, and it has an effect. *)
Lemma save_model_flag_changes_wandb_config :
  main Toy.env (with_save_model true (Toy.dry_args 3)) (initial_world 0%nat)
  ≠ main Toy.env (Toy.dry_args 3) (initial_world 0%nat).
Proof.
  intros Heq.
  apply (f_equal (λ run : Result unit * World,
                    omap (λ e, match e with
                               | WandbInit _ _ config _ => Some (save_model config)
                               | _ => None
                               end) (trace run.2))) in Heq.
  vm_compute in Heq. discriminate.
Qed.

Lemma best_trial_within_sampling_ranges_witness :
  let run := main Toy.env (Toy.dry_args 3) (initial_world 0%nat) in
  run.1 = Ok tt ∧
  ∃ study st v ft lr gamma,
    heap run.2 !! study = Some (OStudy st) ∧
    st_direction st = Minimize ∧
    length (st_trials st) = 5%nat ∧
    Forall (λ t, ft_state t = Complete) (st_trials st) ∧
    best_of (st_direction st) None (st_trials st) = Some (v, ft) ∧
    ft ∈ st_trials st ∧ ft_value ft = Some v ∧
    (∀ t v', t ∈ st_trials st → ft_value t = Some v' → (v <= v')%Q) ∧
    ft_params ft = [("lr", lr); ("gamma", gamma)] ∧
    (1 # 10000 <= lr <= 1 # 10)%Q ∧ (1 # 2 <= gamma <= 9 # 10)%Q ∧
    PrintParam "lr" lr ∈ emitted (initial_world 0%nat) run.2 ∧
    PrintParam "gamma" gamma ∈ emitted (initial_world 0%nat) run.2.
Proof.
  intros run.
  assert (run.1 = Ok tt) as Hrun by (vm_compute; reflexivity).
  split; [exact Hrun|].
  exact (best_trial_within_sampling_ranges toy_in_range Toy.env (Toy.dry_args 3)
           (initial_world 0%nat) run.2 (run_fst _ _ _ Hrun)).
Defined.

Lemma loaders_built_once_and_only_read_witness :
  let w := initial_world 0%nat in
  let run := main Toy.env (Toy.dry_args 3) w in
  run.1 = Ok tt ∧
  ∃ train_loader test_loader study dtr dte before after,
    (train_loader ∉ dom (heap w)) ∧ (test_loader ∉ dom (heap w)) ∧
    train_loader ≠ test_loader ∧
    dl_dataset dtr = mnist_train Toy.env ∧ dl_dataset dte = mnist_test Toy.env ∧
    emitted w run.2 =
      after ++ New KStudy study :: New KDataLoader test_loader
            :: New KDataLoader train_loader :: before ∧
    Forall (λ e, is_new_loader e = false) before ∧
    Forall (λ e, is_new_loader e = false) after ∧
    Forall (λ e, iter_within train_loader test_loader e = true) after ∧
    heap run.2 !! train_loader = Some (ODataLoader dtr) ∧
    heap run.2 !! test_loader = Some (ODataLoader dte) ∧
    (∀ a model device loader optimizer epoch w0 l d,
        heap w0 !! l = Some (ODataLoader d) →
        heap (train a model device loader optimizer epoch w0).2 !! l
          = Some (ODataLoader d)) ∧
    (∀ model device loader epoch w0 l d,
        heap w0 !! l = Some (ODataLoader d) →
        heap (test model device loader epoch w0).2 !! l = Some (ODataLoader d)) ∧
    (∀ a device l1 l2 trial w0 l d,
        heap w0 !! l = Some (ODataLoader d) →
        heap (objective a device l1 l2 trial w0).2 !! l = Some (ODataLoader d)).
Proof.
  intros w run.
  assert (run.1 = Ok tt) as Hrun by (vm_compute; reflexivity).
  split; [exact Hrun|].
  exact (loaders_built_once_and_only_read Toy.env (Toy.dry_args 3) w run.2
           (run_fst _ _ _ Hrun)).
Defined.

Lemma test_empty_dataset_raises_witness :
  heap Toy.empty_world !! Toy.model = Some (OModule Toy.net) ∧
  heap Toy.empty_world !! Toy.test_loader = Some (ODataLoader Toy.empty_data) ∧
  dl_dataset Toy.empty_data = [] ∧
  ∃ w', test Toy.model Cpu Toy.test_loader 0 Toy.empty_world
          = (Raise ZeroDivisionError, w') ∧
        emitted Toy.empty_world w' = [Iter Toy.test_loader].
Proof.
  assert (heap Toy.empty_world !! Toy.model = Some (OModule Toy.net)) as H1
    by reflexivity.
  assert (heap Toy.empty_world !! Toy.test_loader = Some (ODataLoader Toy.empty_data))
    as H2 by reflexivity.
  split_and!; [exact H1|exact H2|reflexivity|].
  exact (test_empty_dataset_raises Toy.model Cpu Toy.test_loader 0 Toy.empty_world
           Toy.net Toy.empty_data H1 H2 eq_refl).
Defined.


Lemma train_log_interval_zero_raises_witness :
  log_interval (Toy.dry_args 0) = 0 ∧
  heap Toy.world !! Toy.model = Some (OModule Toy.net) ∧
  heap Toy.world !! Toy.optimizer = Some (OAdam Toy.adam) ∧
  opt_model Toy.adam = Toy.model ∧
  heap Toy.world !! Toy.train_loader = Some (ODataLoader Toy.train_data) ∧
  grad_enabled Toy.world = true ∧
  dl_dataset Toy.train_data ≠ [] ∧ 0 < dl_batch_size Toy.train_data ∧
  Forall (λ s : Image * nat, (s.2 < num_classes)%nat) (dl_dataset Toy.train_data) ∧
  ∃ w',
    train (Toy.dry_args 0) Toy.model Cpu Toy.train_loader Toy.optimizer 0 Toy.world
      = (Raise ZeroDivisionError, w') ∧
    emitted Toy.world w' =
      [OptStep Toy.optimizer (opt_lr Toy.adam); Backward Toy.model;
       Forward Toy.model true true; ZeroGrad Toy.optimizer; Iter Toy.train_loader].
Proof.
  assert (heap Toy.world !! Toy.model = Some (OModule Toy.net)) as H2
    by reflexivity.
  assert (heap Toy.world !! Toy.optimizer = Some (OAdam Toy.adam)) as H3
    by reflexivity.
  assert (heap Toy.world !! Toy.train_loader = Some (ODataLoader Toy.train_data)) as H5
    by reflexivity.
  assert (dl_dataset Toy.train_data ≠ []) as H7 by (simpl; discriminate).
  assert (0 < dl_batch_size Toy.train_data) as H8 by (simpl; lia).
  assert (Forall (λ s : Image * nat, (s.2 < num_classes)%nat)
            (dl_dataset Toy.train_data)) as H9
    by (simpl; repeat constructor).
  split_and!; [reflexivity|exact H2|exact H3|reflexivity|exact H5|reflexivity
              |exact H7|exact H8|exact H9|].
  exact (train_log_interval_zero_raises toy_shaped toy_permutes (Toy.dry_args 0)
           Toy.model Cpu Toy.train_loader Toy.optimizer 0 Toy.world Toy.net Toy.adam
           Toy.train_data eq_refl H2 H3 eq_refl H5 eq_refl H7 H8 H9).
Defined.

Lemma objective_decays_learning_rate_witness :
  let run := objective Toy.args Cpu Toy.train_loader Toy.test_loader Toy.trial
               Toy.world in
  run.1 = Ok (1950900479858933747565828568826561 # 1953125000000000000000000000000000) ∧
  ∃ lr gamma optimizer scheduler t o s,
    heap run.2 !! Toy.trial = Some (OTrial t) ∧
    params_lookup "lr" (tr_params t) = Some lr ∧
    params_lookup "gamma" (tr_params t) = Some gamma ∧
    (optimizer ∉ dom (heap Toy.world)) ∧ (scheduler ∉ dom (heap Toy.world)) ∧
    heap run.2 !! optimizer = Some (OAdam o) ∧
    (opt_lr o == lr * gamma ^ epochs Toy.args)%Q ∧
    heap run.2 !! scheduler = Some (OStepLR s) ∧
    sl_optimizer s = optimizer ∧ sl_gamma s = gamma ∧
    sl_last_epoch s = epochs Toy.args.
Proof.
  intros run.
  assert (run.1
          = Ok (1950900479858933747565828568826561 # 1953125000000000000000000000000000))
    as Hrun by (vm_compute; reflexivity).
  split; [exact Hrun|].
  exact (objective_decays_learning_rate Toy.args Cpu Toy.train_loader Toy.test_loader
           Toy.trial Toy.world
           (1950900479858933747565828568826561 # 1953125000000000000000000000000000)
           run.2 (run_fst _ _ _ Hrun)).
Defined.

Lemma train_steps_once_per_batch_witness :
  let run := train Toy.args Toy.model Cpu Toy.train_loader Toy.optimizer 0 Toy.world in
  dry_run Toy.args = false ∧ run.1 = Ok tt ∧
  ∃ d,
    heap Toy.world !! Toy.train_loader = Some (ODataLoader d) ∧
    let batches :=
      batches_of d
        (sample_order (dl_shuffle d) (rng Toy.world) (length (dl_dataset d))).1 in
    count_if is_opt_step (emitted Toy.world run.2) = length batches ∧
    count_if is_print_train (emitted Toy.world run.2) =
      count_if (λ ib, ib.1 mod log_interval Toy.args =? 0) (enumerate batches).
Proof.
  intros run.
  assert (run.1 = Ok tt) as Hrun by (vm_compute; reflexivity).
  split_and!; [reflexivity|exact Hrun|].
  exact (train_steps_once_per_batch Toy.args Toy.model Cpu Toy.train_loader
           Toy.optimizer 0 Toy.world run.2 eq_refl (run_fst _ _ _ Hrun)).
Defined.

Lemma main_without_epochs_never_finishes_witness :
  epochs Toy.zero_epoch_args ≤ 0 ∧
  ∃ e w',
    main Toy.env Toy.zero_epoch_args (initial_world 0%nat) = (Raise e, w') ∧
    WandbFinish ∉ emitted (initial_world 0%nat) w'.
Proof.
  assert (epochs Toy.zero_epoch_args ≤ 0) as H1 by (simpl; lia).
  split; [exact H1|].
  exact (main_without_epochs_never_finishes Toy.env Toy.zero_epoch_args
           (initial_world 0%nat) H1).
Defined.

Lemma loaders_follow_cuda_switch_witness :
  let w := initial_world 0%nat in
  let run := main Toy.env Toy.args w in
  run.1 = Ok tt ∧
  let use_cuda := negb (no_cuda Toy.args) && cuda_is_available Toy.env in
  ∃ train_loader test_loader,
    (train_loader ∉ dom (heap w)) ∧ (test_loader ∉ dom (heap w)) ∧
    0 < batch_size Toy.args ∧ 0 < test_batch_size Toy.args ∧
    heap run.2 !! train_loader =
      Some (ODataLoader
              {| dl_dataset := mnist_train Toy.env; dl_batch_size := batch_size Toy.args;
                 dl_shuffle := use_cuda; dl_num_workers := if use_cuda then 1 else 0;
                 dl_pin_memory := use_cuda |}) ∧
    heap run.2 !! test_loader =
      Some (ODataLoader
              {| dl_dataset := mnist_test Toy.env;
                 dl_batch_size := test_batch_size Toy.args;
                 dl_shuffle := use_cuda; dl_num_workers := if use_cuda then 1 else 0;
                 dl_pin_memory := use_cuda |}).
Proof.
  intros w run.
  assert (run.1 = Ok tt) as Hrun by (vm_compute; reflexivity).
  split; [exact Hrun|].
  exact (loaders_follow_cuda_switch Toy.env Toy.args w run.2 (run_fst _ _ _ Hrun)).
Defined.

Lemma no_cuda_flag_ignores_cuda_availability_witness :
  cuda_is_available Toy.cuda_env ≠ cuda_is_available Toy.env ∧
  main Toy.cuda_env (with_no_cuda true Toy.args)
  = main Toy.env (with_no_cuda true Toy.args).
Proof.
  split; [simpl; discriminate|].
  exact (no_cuda_flag_ignores_cuda_availability Toy.env Toy.cuda_env Toy.args
           eq_refl eq_refl eq_refl).
Defined.
